(** * HORUS position pipeline: a shallow embedding of [scripts/compute_positions]

    The development follows the Python sources module by module:

    - [fetch_labels.py]: the sliding-window rate limiter and the retrying
      fetch of one feature ([NeuronpediaClient]);
    - [compute_umap.py]: position normalisation and the k-nearest-neighbour
      edge builder;
    - [download_sae.py], [export_layer.py], [run_pipeline.py]: the cached,
      four-stage per-layer pipeline and its multi-layer driver.

    Clock times are rationals ([Q]), so the limiter and the fetcher run inside
    Rocq.  NumPy arrays are lists of reals ([R]) where the statements do not
    depend on rounding: the cosine metric needs square roots, and what is
    proved of edges and of the pipeline is about thresholds, indices, order
    and files.  Where rounding decides, in the range of the normalised
    positions, the function is modelled on binary64 floats ([Binary64]);
    Python's built-in [round], applied to what is exported, is a parameter
    of the pipeline, like the hub and UMAP.
    Python exceptions are values of [exn]; a call that may raise returns a
    [result]. *)

From stdpp Require Import base option list sorting gmap strings.
From Stdlib Require Floats.
From Stdlib Require Import ZArith QArith Qabs Reals Lqa Lra Lia.

(** ** Python exceptions *)

Inductive exn : Type :=
| ValueError
| IndexError
| KeyError
| TypeError
| AttributeError
| FileNotFoundError
| RuntimeError
| ExternalError.

Inductive result (A : Type) : Type :=
| Ok (a : A)
| Raise (e : exn).
Arguments Ok {A} a.
Arguments Raise {A} e.

(** ** [fetch_labels.py]: [NeuronpediaClient] *)

Module Client.
Local Open Scope Q_scope.

(** [x < y] on floats, as a boolean. *)
Definition Qltb (x y : Q) : bool := negb (Qle_bool y x).

(** The fields of [NeuronpediaConfig] the client copies in [__init__]. *)
Record config : Type := Config {
  rate_limit : Z;        (* requests_per_minute *)
  retry_attempts : Z;
  retry_delay : Q
}.

(** [DEFAULT_NEURONPEDIA_CONFIG]. *)
Definition default_config : config :=
  {| rate_limit := 100; retry_attempts := 3; retry_delay := 1 |}.

(** The list comprehension of [_wait_for_rate_limit]:
    [[t for t in self._request_times if now - t < 60]]. *)
Definition trim (now : Q) (request_times : list Q) : list Q :=
  List.filter (fun t => Qltb (now - t) 60) request_times.

(** What one call of [_wait_for_rate_limit] did: the duration it slept (if it
    slept) and the new value of [self._request_times]. *)
Record waited : Type := Waited {
  slept : option Q;
  request_times : list Q
}.

(** [_wait_for_rate_limit].  The body runs under [self._lock], so calls are
    serialised; [now] is what [time.time()] returns on entry, and [over] is the
    time that passes, beyond any requested sleep, before the final
    [time.time()].  [self._request_times[0]] raises [IndexError] on an empty
    list. *)
Definition wait_for_rate_limit (rate_limit : Z) (now over : Q)
    (request_times : list Q) : result waited :=
  let request_times := trim now request_times in
  if (rate_limit <=? Z.of_nat (length request_times))%Z then
    match request_times with
    | [] => Raise IndexError
    | oldest :: _ =>
        let sleep_time := 60 - (now - oldest) + (1 # 10) in
        if Qltb 0 sleep_time then
          Ok (Waited (Some sleep_time)
                (request_times ++ [now + sleep_time + over]))
        else
          Ok (Waited None (request_times ++ [now + over]))
    end
  else
    Ok (Waited None (request_times ++ [now + over])).

(** A caller of the limiter: [idle] is the time between the previous
    admission and the moment this caller holds the lock and reads [now];
    [over] as in [wait_for_rate_limit]. *)
Record call : Type := Call { idle : Q; over : Q }.

Definition call_ok (c : call) : Prop := 0 <= idle c /\ 0 <= over c.

(** The timestamp a call appended: its admission time. *)
Definition recorded (w : waited) : Q := List.last (request_times w) 0.

(** A sequence of calls on one client, in the order in which they take the
    lock.  Returns the admission timestamps, oldest first, and the final
    [_request_times]. *)
Fixpoint acquire_all (rate_limit : Z) (clock : Q) (request_times : list Q)
    (calls : list call) : result (list Q * list Q) :=
  match calls with
  | [] => Ok ([], request_times)
  | c :: calls' =>
      match wait_for_rate_limit rate_limit (clock + idle c) (over c)
              request_times with
      | Raise e => Raise e
      | Ok w =>
          match acquire_all rate_limit (recorded w) (Client.request_times w)
                  calls' with
          | Raise e => Raise e
          | Ok (stamps, final) => Ok (recorded w :: stamps, final)
          end
      end
  end.

(** The acquire procedure in the words of the specification (section 4.3):
    trim; if fewer than [R] timestamps remain, record the current timestamp
    and return; otherwise suspend for [60 - age(oldest) + eps] and retry the
    trim and the check.  The clock is read as in [wait_for_rate_limit]: the
    latency [over] is incurred once.  [fuel] bounds the retries; running out
    of it, like having no oldest timestamp to wait for, ends in an error. *)
Fixpoint acquire_spec (fuel : nat) (rate_limit : Z) (now over : Q)
    (request_times : list Q) : result waited :=
  let request_times := trim now request_times in
  if (Z.of_nat (length request_times) <? rate_limit)%Z then
    Ok (Waited None (request_times ++ [now + over]))
  else
    match fuel, request_times with
    | S fuel', oldest :: _ =>
        let sleep_time := 60 - (now - oldest) + (1 # 10) in
        match acquire_spec fuel' rate_limit (now + sleep_time + over) 0
                request_times with
        | Ok w => Ok (Waited (Some sleep_time) (Client.request_times w))
        | Raise e => Raise e
        end
    | _, _ => Raise IndexError
    end.

(** *** [fetch_feature] *)

(** The [Retry-After] header as [int(...)] sees it: absent (the default
    ["60"] is used), an integer literal, or a string on which [int] raises
    [ValueError]. *)
Inductive retry_after : Type :=
| NoHeader
| HeaderInt (seconds : Z)
| HeaderNotInt.

Definition int_of_retry_after (h : retry_after) : option Z :=
  match h with
  | NoHeader => Some 60%Z
  | HeaderInt n => Some n
  | HeaderNotInt => None
  end.

(** What [session.get] gives: a response with its status, its [Retry-After]
    header and its decoded body ([None] when [response.json()] raises), or an
    exception (timeout, transport failure). *)
Inductive response (payload : Type) : Type :=
| Response (status : Z) (header : retry_after) (json : option payload)
| GetRaises.
Arguments Response {payload} status header json.
Arguments GetRaises {payload}.

(** The observable actions of one [fetch_feature] call. *)
Inductive event : Type :=
| Get (attempt : nat)
| Sleep (seconds : Q)
| Print.

(** [self.retry_delay * (2 ** attempt)]. *)
Definition backoff (retry_delay : Q) (attempt : nat) : Q :=
  retry_delay * inject_Z (2 ^ Z.of_nat attempt).

(** The [for attempt in range(self.retry_attempts)] loop, by recursion on the
    attempts still to run.  [server attempt] is the answer to the request
    made in iteration [attempt].  [in_except] tells the [except] handler of
    line 94 (which prints on the last attempt) from the [else] branch of
    line 90. *)
Fixpoint fetch_loop {payload : Type} (retry_attempts : Z) (retry_delay : Q)
    (server : nat -> response payload) (attempts : list nat)
    : option payload * list event :=
  match attempts with
  | [] => (None, [])                                     (* line 100 *)
  | attempt :: rest =>
      let next := fetch_loop retry_attempts retry_delay server rest in
      let on_error (in_except : bool) :=
        if (Z.of_nat attempt =? retry_attempts - 1)%Z then
          (None, Get attempt :: (if in_except then [Print] else []))
        else
          (fst next,
           Get attempt :: Sleep (backoff retry_delay attempt) :: snd next) in
      match server attempt with
      | GetRaises => on_error true
      | Response status header json =>
          if (status =? 200)%Z then
            match json with
            | Some data => (Some data, [Get attempt])
            | None => on_error true
            end
          else if (status =? 404)%Z then
            (None, [Get attempt])
          else if (status =? 429)%Z then
            match int_of_retry_after header with
            | Some seconds =>
                (fst next, Get attempt :: Sleep (inject_Z seconds) :: snd next)
            | None => on_error true
            end
          else on_error false
      end
  end.

(** [range(n)]. *)
Definition range (n : Z) : list nat := seq 0 (Z.to_nat n).

(** The outcome of [fetch_feature]: the returned [Optional[dict]], the
    actions performed after the limiter admitted the call, and the limiter's
    state. *)
Record fetched (payload : Type) : Type := Fetched {
  returned : option payload;
  actions : list event;
  limiter : waited
}.
Arguments Fetched {payload} returned actions limiter.
Arguments returned {payload} f.
Arguments actions {payload} f.
Arguments limiter {payload} f.

(** [fetch_feature]: one call of the limiter, outside the [try], then the
    attempt loop. *)
Definition fetch_feature {payload : Type} (cfg : config) (now over : Q)
    (request_times : list Q) (server : nat -> response payload)
    : result (fetched payload) :=
  match wait_for_rate_limit (rate_limit cfg) now over request_times with
  | Raise e => Raise e
  | Ok w =>
      let '(data, trace) :=
        fetch_loop (retry_attempts cfg) (retry_delay cfg) server
          (range (retry_attempts cfg)) in
      Ok (Fetched data trace w)
  end.

(** The requests a trace contains. *)
Definition is_get (e : event) : bool :=
  match e with Get _ => true | _ => false end.

Definition requests (trace : list event) : nat :=
  length (List.filter is_get trace).

(** The sleeps a trace contains, in order. *)
Definition sleeps (trace : list event) : list Q :=
  omap (fun e => match e with Sleep d => Some d | _ => None end) trace.


(** The seconds slept on a 429 answer whose [Retry-After] is absent or an
    integer. *)
Definition rate_limited {payload : Type} (r : response payload) : option Z :=
  match r with
  | Response 429 header _ => int_of_retry_after header
  | _ => None
  end.



(** What the limiter knows about the past: against every later instant, the
    stored list and the full history [past] of admissions show the same
    window, which holds at most [limit] timestamps. *)
Definition limiter_inv (limit : Z) (clock : Q) (stored past : list Q) : Prop :=
  (forall t, clock <= t -> trim t past = trim t stored) /\
  (forall t, clock <= t -> (Z.of_nat (length (trim t stored)) <= limit)%Z).

End Client.

(** ** [compute_umap.py]: positions and edges *)

Module Umap.
Local Open Scope R_scope.

(** Comparisons on floats, as booleans. *)
Definition Rltb (x y : R) : bool := if Rlt_dec x y then true else false.
Definition Rleb (x y : R) : bool := if Rle_dec x y then true else false.

(** A row of a 2-D array. *)
Definition vector : Type := list R.

(** A row of a [(N, 3)] array of positions. *)
Definition position : Type := (R * R * R)%type.

Definition coordinates (p : position) : list R := [p.1.1; p.1.2; p.2].

(** *** [normalize_positions]

    In exact arithmetic; [Binary64.normalize_positions] is the function as
    it runs on floats. *)

(** One column of [positions.mean(axis=0)]. *)
Definition mean (column : list R) : R :=
  fold_right Rplus 0 column / INR (length column).

(** [a.max()]: raises [ValueError] on a zero-size array. *)
Definition array_max (a : list R) : result R :=
  match a with
  | [] => Raise ValueError
  | x :: a' => Ok (fold_left Rmax a' x)
  end.

Definition center (positions : list position) : list position :=
  let mx := mean (map (fun p => p.1.1) positions) in
  let my := mean (map (fun p => p.1.2) positions) in
  let mz := mean (map (fun p => p.2) positions) in
  map (fun p => (p.1.1 - mx, p.1.2 - my, p.2 - mz)) positions.

Definition scale (factor : R) (p : position) : position :=
  (p.1.1 * factor, p.1.2 * factor, p.2 * factor).

Definition normalize_positions (positions : list position)
    (target_range : R * R) : result (list position) :=
  (* Center at origin *)
  let positions := center positions in
  (* Scale to fit within target range *)
  match array_max (map Rabs (concat (map coordinates positions))) with
  | Raise e => Raise e
  | Ok max_abs =>
      if Rltb 0 max_abs then
        let target_max := target_range.2 in
        Ok (map (scale (target_max / max_abs)) positions)
      else Ok positions
  end.

(** *** The cosine metric and the neighbour search *)

Definition dot (u v : vector) : R := fold_right Rplus 0 (zip_with Rmult u v).

Definition norm (u : vector) : R := sqrt (dot u u).

(** Cosine distance: one minus the cosine of the angle.  A zero vector has
    similarity 0 to everything ([x / 0 = 0] here, as in the library's
    normalisation). *)
Definition cosine_distance (u v : vector) : R :=
  1 - dot u v / (norm u * norm v).

(** Insertion of a candidate [(distance, index)] before the first candidate
    that is not nearer. *)
Fixpoint insert_nearest (p : R * nat) (l : list (R * nat)) : list (R * nat) :=
  match l with
  | [] => [p]
  | q :: l' => if Rleb p.1 q.1 then p :: l else q :: insert_nearest p l'
  end.

(** Candidates by ascending distance; among equal distances, by ascending
    index (the list is given in index order and an element is inserted in
    front of its equals). *)
Definition sort_nearest (l : list (R * nat)) : list (R * nat) :=
  fold_right insert_nearest [] l.

(** One row of the answer: the [n_neighbors] nearest fitted points to [x]. *)
Definition kneighbors_row (n_neighbors : nat) (fit : list vector) (x : vector)
    : list (R * nat) :=
  take n_neighbors
    (sort_nearest (imap (fun j y => (cosine_distance x y, j)) fit)).

(** [NearestNeighbors(n_neighbors, metric="cosine").fit(fit).kneighbors(X)]
    of scikit-learn, a library outside the repository, by its contract: for
    each row of [X] the [n_neighbors] nearest rows of [fit], nearest first,
    as [(distances, indices)]; [ValueError] unless
    [0 < n_neighbors <= len(fit)].  The query point itself is a candidate
    like any other.  Ties go to the smaller index, the rule section 4.2 of
    the specification fixes. *)
Definition kneighbors (n_neighbors : Z) (fit X : list vector)
    : result (list (list R) * list (list nat)) :=
  if (n_neighbors <=? 0)%Z then Raise ValueError
  else if (Z.of_nat (length fit) <? n_neighbors)%Z then Raise ValueError
  else
    let rows := map (kneighbors_row (Z.to_nat n_neighbors) fit) X in
    Ok (map (map fst) rows, map (map snd) rows).

(** *** [compute_edges] *)

Record EdgeParams : Type := {
  top_k : Z;
  min_similarity : R;
  deduplicate : bool
}.

Definition DEFAULT_EDGE_PARAMS : EdgeParams :=
  {| top_k := 25; min_similarity := 25 / 100; deduplicate := true |}.

Record edge : Type := Edge {
  source : nat;
  target : nat;
  weight : R
}.

(** [edges] and [seen_pairs]. *)
Definition builder : Type := (list edge * gset (nat * nat))%type.

(** A [for] loop whose body may raise. *)
Fixpoint for_each {A S : Type} (body : A -> S -> result S) (l : list A)
    (st : S) : result S :=
  match l with
  | [] => Ok st
  | a :: l' =>
      match body a st with
      | Ok st' => for_each body l' st'
      | Raise e => Raise e
      end
  end.

(** The body of the inner loop, lines 153 to 171. *)
Definition visit (params : EdgeParams) (indices : list (list nat))
    (similarities : list (list R)) (i j_idx : nat) (st : builder)
    : result builder :=
  match indices !! i ≫= (.!! j_idx), similarities !! i ≫= (.!! j_idx) with
  | Some j, Some similarity =>
      (* Apply threshold *)
      if Rltb similarity (min_similarity params) then Ok st
      (* Deduplicate bidirectional edges *)
      else if deduplicate params then
        let pair := (Nat.min i j, Nat.max i j) in
        if decide (pair ∈ st.2) then Ok st
        else Ok (st.1 ++ [Edge i j similarity], {[pair]} ∪ st.2)
      else Ok (st.1 ++ [Edge i j similarity], st.2)
  | _, _ => Raise IndexError
  end.

(** The two nested loops over the answer of the neighbour search. *)
Definition build_edges (params : EdgeParams) (num_features : nat)
    (indices : list (list nat)) (similarities : list (list R))
    : result builder :=
  for_each
    (fun i =>
       for_each (visit params indices similarities i)
         (seq 1 (Z.to_nat (top_k params))))      (* Skip self (index 0) *)
    (seq 0 num_features) ([], ∅).

(** [compute_edges]; the [positions] argument is unused by the source and
    left out. *)
Definition compute_edges (decoder_vectors : list vector)
    (params : option EdgeParams) : result (list edge) :=
  let params := default DEFAULT_EDGE_PARAMS params in
  let num_features := length decoder_vectors in
  match kneighbors (top_k params + 1) decoder_vectors decoder_vectors with
  | Raise e => Raise e
  | Ok (distances, indices) =>
      let similarities := map (map (fun d => 1 - d)) distances in
      match build_edges params num_features indices similarities with
      | Raise e => Raise e
      | Ok (edges, _) => Ok edges
      end
  end.

(** The unordered index pair of an edge. *)
Definition unordered (e : edge) : nat * nat :=
  (Nat.min (source e) (target e), Nat.max (source e) (target e)).

(** What holds of [edges] and [seen_pairs] throughout the loops. *)
Definition builder_inv (params : EdgeParams) (st : builder) : Prop :=
  Forall (fun e => min_similarity params <= weight e) st.1 /\
  (deduplicate params = true ->
   NoDup (map unordered st.1) /\ forall e, e ∈ st.1 -> unordered e ∈ st.2).

(** A unit vector in the plane, by its angle in degrees. *)
Definition unit_vector_deg (degrees : R) : vector :=
  [cos (degrees * PI / 180); sin (degrees * PI / 180)].

Definition four_angles : list vector :=
  map unit_vector_deg [0; 10; 90; 180].

End Umap.

(** ** [compute_umap.py] on double-precision floats *)

(** [normalize_positions] as NumPy computes it on an array of dtype
    [float64]: every operation is the IEEE 754 binary64 operation, rounded to
    nearest.  [Umap.normalize_positions] above is the same function in exact
    arithmetic. *)
Module Binary64.
Import Stdlib.Floats.Floats.
Local Open Scope float_scope.

(** A row of a [(N, 3)] array of dtype [float64]. *)
Definition position : Type := (float * float * float)%type.

Definition coordinates (p : position) : list float := [p.1.1; p.1.2; p.2].

(** The row count as a float. *)
Definition of_nat (n : nat) : float :=
  PrimFloat.of_uint63 (Uint63.of_Z (Z.of_nat n)).

(** One column of [positions.mean(axis=0)]: the sum, accumulated row by row
    from the first row, divided by the number of rows. *)
Definition mean (column : list float) : float :=
  match column with
  | [] => nan
  | x :: column' => fold_left PrimFloat.add column' x / of_nat (length column)
  end.

(** [np.maximum]: the greater of the two, a NaN if one of them is. *)
Definition maximum (x y : float) : float :=
  if PrimFloat.is_nan x then x
  else if PrimFloat.is_nan y then y
  else if PrimFloat.ltb x y then y else x.

(** [a.max()]: raises [ValueError] on a zero-size array. *)
Definition array_max (a : list float) : result float :=
  match a with
  | [] => Raise ValueError
  | x :: a' => Ok (fold_left maximum a' x)
  end.

Definition center (positions : list position) : list position :=
  let mx := mean (map (fun p => p.1.1) positions) in
  let my := mean (map (fun p => p.1.2) positions) in
  let mz := mean (map (fun p => p.2) positions) in
  map (fun p => (p.1.1 - mx, p.1.2 - my, p.2 - mz)) positions.

Definition scale (factor : float) (p : position) : position :=
  (p.1.1 * factor, p.1.2 * factor, p.2 * factor).

Definition normalize_positions (positions : list position)
    (target_range : float * float) : result (list position) :=
  (* Center at origin *)
  let positions := center positions in
  (* Scale to fit within target range *)
  match array_max (map PrimFloat.abs (concat (map coordinates positions))) with
  | Raise e => Raise e
  | Ok max_abs =>
      if PrimFloat.ltb 0 max_abs then
        let target_max := target_range.2 in
        Ok (map (scale (target_max / max_abs)) positions)
      else Ok positions
  end.

(** [OutputConfig.position_range]. *)
Definition position_range : float * float := (-50, 50).

(** Three points on the x axis, at 0, 1 and 17. *)
Definition three_on_a_line : list position :=
  [(0, 0, 0); (1, 0, 0); (17, 0, 0)].

End Binary64.

(** ** [config.py] *)

Module Config.

Record ModelConfig : Type := {
  model_id : string;
  display_name : string;
  num_layers : Z;
  features_per_layer : Z;
  decoder_dim : Z
}.

Definition MODELS : gmap string ModelConfig :=
  {[ "gemma-2-2b" :=
       {| model_id := "gemma-2-2b"; display_name := "Gemma 2 2B";
          num_layers := 26; features_per_layer := 16384;
          decoder_dim := 2304 |};
     "gemma-2-9b" :=
       {| model_id := "gemma-2-9b"; display_name := "Gemma 2 9B";
          num_layers := 42; features_per_layer := 16384;
          decoder_dim := 3584 |} ]}.

Record OutputConfig : Type := {
  output_dir : string;
  position_range : R * R;
  compress : bool
}.

Definition DEFAULT_OUTPUT_CONFIG : OutputConfig :=
  {| output_dir := "./output"; position_range := ((-50)%R, 50%R);
     compress := true |}.

End Config.

(** ** The files, the outside world and the monad of the pipeline *)

Module Pipeline.
Import Umap Config.

(** [labels.json]: feature index to label. *)
Definition labels : Type := gmap Z string.

(** What [build_layer_json] assembles: the position of every node, rounded
    to four digits; the label of node [idx], for the nodes that have one;
    the edges with their weights rounded to four digits.  The identifier
    strings and the metadata block are left out. *)
Record layer_data : Type := LayerData {
  nodes : list position;
  node_labels : labels;
  edges : list edge
}.

(** The files of one cache directory and one output directory.  A cache file
    is keyed by [(model_id, layer)]; an exported layer also by the
    [compress] flag, which decides its extension.  [output_dirs] holds the
    models whose directory exists under the output directory:
    [export_manifest] opens its file there without creating the directory.
    The directories of the cache are not modelled: [download_decoder_vectors]
    creates the one it writes to, and [compute_layer_positions] writes where
    it has just read the decoder vectors, so no outcome depends on them. *)
Record files : Type := Files {
  decoder_vectors_npy : gmap (string * Z) (list vector);
  positions_npy : gmap (string * Z) (list position);
  edges_npy : gmap (string * Z) (list edge);
  labels_json : gmap (string * Z) labels;
  layer_json : gmap (string * Z * bool) layer_data;
  manifest_json : gmap string (list Z);
  output_dirs : gset string
}.

(** Calls that leave the process. *)
Inductive external_call : Type :=
| HfDownload (model_id : string) (layer : Z)
| UmapFit (model_id : string) (layer : Z).

Record world : Type := World {
  fs : files;
  calls : list external_call
}.

(** The collaborators outside the repository: the HuggingFace hub (the
    [W_dec] array of a layer, or the exception of [find_sae_path],
    [hf_hub_download] or the key lookup), UMAP's [fit_transform], and
    Python's built-in [round(number, ndigits)] on floats. *)
Record environment : Type := Environment {
  hf_decoder_weights : string -> Z -> result (list vector);
  umap_fit_transform : list vector -> result (list position);
  round : R -> Z -> R
}.

(** State and exceptions: a computation changes the world and returns or
    raises; the world it reached survives a raise. *)
Definition M (A : Type) : Type := world -> result A * world.

Definition ret {A : Type} (a : A) : M A := fun w => (Ok a, w).

Definition raise {A : Type} (e : exn) : M A := fun w => (Raise e, w).

Definition bind {A B : Type} (m : M A) (k : A -> M B) : M B :=
  fun w =>
    match m w with
    | (Ok a, w') => k a w'
    | (Raise e, w') => (Raise e, w')
    end.

#[global] Instance M_ret : MRet M := @ret.
#[global] Instance M_bind : MBind M := fun A B k m => bind m k.

(** [try: body except Exception: handler]. *)
Definition try_except {A : Type} (body : M A) (handler : exn -> M A) : M A :=
  fun w =>
    match body w with
    | (Ok a, w') => (Ok a, w')
    | (Raise e, w') => handler e w'
    end.

Definition lift {A : Type} (r : result A) : M A := fun w => (r, w).

Definition get_fs : M files := fun w => (Ok (fs w), w).

Definition set_fs (update : files -> files) : M unit :=
  fun w => (Ok tt, World (update (fs w)) (calls w)).

Definition call_out (c : external_call) : M unit :=
  fun w => (Ok tt, World (fs w) (calls w ++ [c])).

(** [path.exists()]. *)
Definition exists_in `{Countable K} {V : Type} (m : gmap K V) (k : K) : bool :=
  bool_decide (is_Some (m !! k)).

(** The file writes. *)
Definition save_decoder_vectors (k : string * Z) (v : list vector) : M unit :=
  set_fs (fun f =>
    Files (<[k := v]> (decoder_vectors_npy f)) (positions_npy f) (edges_npy f)
      (labels_json f) (layer_json f) (manifest_json f)
      (output_dirs f)).

Definition save_positions (k : string * Z) (v : list position) : M unit :=
  set_fs (fun f =>
    Files (decoder_vectors_npy f) (<[k := v]> (positions_npy f)) (edges_npy f)
      (labels_json f) (layer_json f) (manifest_json f)
      (output_dirs f)).

Definition save_edges (k : string * Z) (v : list edge) : M unit :=
  set_fs (fun f =>
    Files (decoder_vectors_npy f) (positions_npy f) (<[k := v]> (edges_npy f))
      (labels_json f) (layer_json f) (manifest_json f)
      (output_dirs f)).

Definition write_layer_json (k : string * Z * bool) (v : layer_data)
    : M unit :=
  set_fs (fun f =>
    Files (decoder_vectors_npy f) (positions_npy f) (edges_npy f)
      (labels_json f) (<[k := v]> (layer_json f)) (manifest_json f)
      (output_dirs f)).

Definition write_manifest (k : string) (v : list Z) : M unit :=
  set_fs (fun f =>
    Files (decoder_vectors_npy f) (positions_npy f) (edges_npy f)
      (labels_json f) (layer_json f) (<[k := v]> (manifest_json f))
      (output_dirs f)).

(** The files once the directory of a model exists under the output
    directory. *)
Definition with_output_dir (model_id : string) (f : files) : files :=
  Files (decoder_vectors_npy f) (positions_npy f) (edges_npy f)
    (labels_json f) (layer_json f) (manifest_json f)
    ({[ model_id ]} ∪ output_dirs f).

(** [output_dir.mkdir(parents=True, exist_ok=True)]. *)
Definition make_output_dir (model_id : string) : M unit :=
  set_fs (with_output_dir model_id).

(** ** [download_sae.py] *)

(** Rows divided by [np.maximum(norms, 1e-8)], in exact arithmetic. *)
Definition l2_normalize (decoder_vectors : list vector) : list vector :=
  map (fun v => map (fun x => x / Rmax (norm v) (1 / 10 ^ 8))%R v)
    decoder_vectors.

(** [download_decoder_vectors], with [normalize=True] as every caller has
    it.  The function has no [force] argument: a cached file is loaded and
    returned. *)
Definition download_decoder_vectors (env : environment) (model_id : string)
    (layer : Z) : M (list vector) :=
  match MODELS !! model_id with
  | None => raise ValueError
  | Some model_config =>
      (* Validate layer *)
      if ((layer <? 0) || (num_layers model_config <=? layer))%Z then
        raise ValueError
      else
        (* Check if we already have cached decoder vectors *)
        f ← get_fs ;
        match decoder_vectors_npy f !! (model_id, layer) with
        | Some cached => ret cached
        | None =>
            call_out (HfDownload model_id layer) ;;
            decoder_vectors ← lift (hf_decoder_weights env model_id layer) ;
            (* L2 normalize vectors *)
            let decoder_vectors := l2_normalize decoder_vectors in
            (* Cache for future use *)
            save_decoder_vectors (model_id, layer) decoder_vectors ;;
            ret decoder_vectors
        end
  end.

(** ** [compute_umap.py]: [compute_layer_positions] *)

Definition compute_umap_positions (env : environment) (model_id : string)
    (layer : Z) (decoder_vectors : list vector) : M (list position) :=
  call_out (UmapFit model_id layer) ;;
  lift (umap_fit_transform env decoder_vectors).

Definition compute_layer_positions (env : environment) (model_id : string)
    (layer : Z) (force_recompute : bool) : M (list position * list edge) :=
  f ← get_fs ;
  (* Check for cached positions *)
  match (if force_recompute then None else positions_npy f !! (model_id, layer)),
        edges_npy f !! (model_id, layer) with
  | Some positions, Some edges => ret (positions, edges)
  | _, _ =>
      (* Load decoder vectors *)
      match decoder_vectors_npy f !! (model_id, layer) with
      | None => raise FileNotFoundError
      | Some decoder_vectors =>
          (* Compute UMAP positions *)
          positions ←
            compute_umap_positions env model_id layer decoder_vectors ;
          (* Normalize to target range *)
          positions ←
            lift (normalize_positions positions
                    (position_range DEFAULT_OUTPUT_CONFIG)) ;
          (* Compute edges *)
          edges ← lift (compute_edges decoder_vectors None) ;
          (* Cache results *)
          save_positions (model_id, layer) positions ;;
          save_edges (model_id, layer) edges ;;
          ret (positions, edges)
      end
  end.

(** ** [fetch_labels.py]: [fetch_layer_labels] *)

(** Line 194 calls [config.validate()] on [DEFAULT_NEURONPEDIA_CONFIG].
    [NeuronpediaConfig] in [config.py] is a dataclass with the fields above
    and [__post_init__] only: it has no [validate], so the call raises
    [AttributeError] before the cache is looked at or a request is made. *)
Definition fetch_layer_labels (model_id : string) (layer : Z) (top_k : Z)
    (force_refetch : bool) : M labels :=
  raise AttributeError.

(** ** [export_layer.py] *)

Definition load_cached_data (model_id : string) (layer : Z)
    : M (list position * list edge * labels) :=
  f ← get_fs ;
  match positions_npy f !! (model_id, layer) with
  | None => raise FileNotFoundError
  | Some positions =>
      ret (positions,
           default [] (edges_npy f !! (model_id, layer)),
           default ∅ (labels_json f !! (model_id, layer)))
  end.

(** The ["position"] of a node: each coordinate through
    [round(float(...), 4)]. *)
Definition round_position (env : environment) (p : position) : position :=
  (round env p.1.1 4, round env p.1.2 4, round env p.2 4).

(** An exported edge: ["weight": round(float(edge["weight"]), 4)]. *)
Definition round_weight (env : environment) (e : edge) : edge :=
  Edge (source e) (target e) (round env (weight e) 4).

(** The labels that reach a node: [if idx in labels] for
    [idx in range(num_features)]. *)
Definition labels_of_nodes (num_features : nat) (cached : labels) : labels :=
  filter (fun entry => (0 <= entry.1 < Z.of_nat num_features)%Z) cached.

(** The nodes and edges of [build_layer_json]. *)
Definition layer_data_of (env : environment) (positions : list position)
    (edges : list edge) (cached : labels) : layer_data :=
  LayerData (map (round_position env) positions)
    (labels_of_nodes (length positions) cached)
    (map (round_weight env) edges).

(** [positions.min(axis=0)] raises [ValueError] on an empty array. *)
Definition build_layer_json (env : environment) (model_id : string)
    (layer : Z) (positions : list position) (edges : list edge)
    (labels : labels) : M layer_data :=
  match MODELS !! model_id with
  | None => raise ValueError
  | Some _ =>
      match positions with
      | [] => raise ValueError
      | _ => ret (layer_data_of env positions edges labels)
      end
  end.

Definition export_layer (env : environment) (model_id : string) (layer : Z)
    (output_config : OutputConfig) (force_reexport : bool)
    : M (string * Z * bool) :=
  (* Determine output path *)
  make_output_dir model_id ;;
  let output_path := (model_id, layer, compress output_config) in
  f ← get_fs ;
  (* Check if already exists *)
  if exists_in (layer_json f) output_path && negb force_reexport then
    ret output_path
  else
    (* Load cached data *)
    '(positions, edges, labels) ← load_cached_data model_id layer ;
    (* Build JSON structure *)
    data ← build_layer_json env model_id layer positions edges labels ;
    write_layer_json output_path data ;;
    ret output_path.

(** [sorted(layers)]. *)
Definition sorted (layers : list Z) : list Z := merge_sort Z.le layers.

(** The manifest lists, in ascending order, the given layers whose exported
    file exists.  The function creates no directory: [open(manifest_path,
    "w")] raises [FileNotFoundError] when the directory of the model is not
    there. *)
Definition export_manifest (model_id : string) (layers : list Z)
    (output_config : OutputConfig) : M unit :=
  match MODELS !! model_id with
  | None => raise ValueError
  | Some _ =>
      f ← get_fs ;
      let layer_info :=
        List.filter
          (fun layer =>
             exists_in (layer_json f) (model_id, layer, compress output_config))
          (sorted layers) in
      if bool_decide (model_id ∈ output_dirs f) then
        write_manifest model_id layer_info
      else raise FileNotFoundError
  end.

End Pipeline.

(** ** [run_pipeline.py] *)

Module Runner.
Import Umap Config Pipeline.

(** The arguments of [run_layer_pipeline] that do not change from layer to
    layer. *)
Record options : Type := {
  output_config : OutputConfig;
  top_k_labels : Z;
  skip_labels : bool;
  force : bool
}.

Section Steps.
Context (env : environment) (model_id : string) (layer : Z) (opts : options).

(** Step 1: Download decoder vectors. *)
Definition step1_download : M unit :=
  f ← get_fs ;
  if force opts || negb (exists_in (decoder_vectors_npy f) (model_id, layer))
  then download_decoder_vectors env model_id layer ;; mret tt
  else mret tt.

(** Step 2: Compute UMAP positions. *)
Definition step2_positions : M unit :=
  f ← get_fs ;
  if force opts || negb (exists_in (positions_npy f) (model_id, layer))
  then compute_layer_positions env model_id layer (force opts) ;; mret tt
  else mret tt.

(** Step 3: Fetch labels (optional). *)
Definition step3_labels : M unit :=
  if negb (skip_labels opts) then
    f ← get_fs ;
    if force opts || negb (exists_in (labels_json f) (model_id, layer))
    then
      fetch_layer_labels model_id layer (top_k_labels opts) (force opts) ;;
      mret tt
    else mret tt
  else mret tt.

(** Step 4: Export JSON. *)
Definition step4_export : M unit :=
  export_layer env model_id layer (output_config opts) (force opts) ;;
  mret tt.

Definition steps : list (M unit) :=
  [step1_download; step2_positions; step3_labels; step4_export].

(** Statements in sequence. *)
Fixpoint run_steps (l : list (M unit)) : M unit :=
  match l with
  | [] => mret tt
  | s :: l' => s ;; run_steps l'
  end.

(** [run_layer_pipeline]: the four steps inside [try], [return True] after
    them, [return False] from [except Exception]. *)
Definition run_layer_pipeline : M bool :=
  try_except (run_steps steps ;; mret true) (fun _ => mret false).

End Steps.

(** The result dictionary of [run_pipeline] ([elapsed] left out). *)
Record summary : Type := Summary {
  successful : list Z;
  failed : list Z
}.

(** The [for i, layer in enumerate(layers)] loop of [run_pipeline], from
    given [successful] and [failed] lists. *)
Fixpoint run_layers (env : environment) (model_id : string) (opts : options)
    (layers : list Z) (acc : summary) : M summary :=
  match layers with
  | [] => mret acc
  | layer :: layers' =>
      success ← run_layer_pipeline env model_id layer opts ;
      run_layers env model_id opts layers'
        (if success : bool
         then Summary (successful acc ++ [layer]) (failed acc)
         else Summary (successful acc) (failed acc ++ [layer]))
  end.

(** [run_pipeline].  The banner printed before the loop evaluates
    [min(layers)] and [max(layers)], which raise [ValueError] on an empty
    list. *)
Definition run_pipeline (env : environment) (model_id : string)
    (layers : option (list Z)) (output_dir : string) (top_k_labels : Z)
    (skip_labels force compress : bool) : M summary :=
  match MODELS !! model_id with
  | None => raise ValueError
  | Some model_config =>
      let layers :=
        default (map Z.of_nat (seq 0 (Z.to_nat (num_layers model_config))))
          layers in
      let output_config :=
        {| output_dir := output_dir;
           position_range := position_range DEFAULT_OUTPUT_CONFIG;
           compress := compress |} in
      match layers with
      | [] => raise ValueError
      | _ =>
          result ←
            run_layers env model_id
              {| Runner.output_config := output_config;
                 Runner.top_k_labels := top_k_labels;
                 Runner.skip_labels := skip_labels;
                 Runner.force := force |}
              layers (Summary [] []) ;
          (* Export manifest *)
          (match successful result with
           | [] => mret tt
           | _ => export_manifest model_id (successful result) output_config
           end) ;;
          mret result
      end
  end.

(** The parsed command line of [main]. *)
Record arguments : Type := {
  arg_model : string;
  arg_layers : option (list Z);
  arg_output : string;
  arg_top_k_labels : Z;
  arg_skip_labels : bool;
  arg_no_compress : bool;
  arg_force : bool
}.

(** [main] after argument parsing, as the exit status of the process: 1 from
    [sys.exit(1)] when [result["failed"]] is not empty, 1 when an exception
    leaves [run_pipeline], 0 otherwise. *)
Definition main (env : environment) (args : arguments) (w : world)
    : Z * world :=
  match
    run_pipeline env (arg_model args) (arg_layers args) (arg_output args)
      (arg_top_k_labels args) (arg_skip_labels args) (arg_force args)
      (negb (arg_no_compress args)) w
  with
  | (Ok result, w') =>
      match failed result with
      | [] => (0%Z, w')
      | _ => (1%Z, w')
      end
  | (Raise _, w') => (1%Z, w')
  end.

(** The options [run_pipeline] passes to every layer. *)
Definition options_of (args : arguments) : options :=
  {| output_config :=
       {| output_dir := arg_output args;
          position_range := position_range DEFAULT_OUTPUT_CONFIG;
          compress := negb (arg_no_compress args) |};
     top_k_labels := arg_top_k_labels args;
     skip_labels := arg_skip_labels args;
     force := arg_force args |}.

(** The layers [run_pipeline] works on. *)
Definition layers_of (model_config : ModelConfig) (args : arguments) : list Z :=
  default (map Z.of_nat (seq 0 (Z.to_nat (num_layers model_config))))
    (arg_layers args).

End Runner.

(** ** Worlds and collaborators used in examples *)

Module Scenario.
Import Umap Config Pipeline Runner.

(** The nearest integer, the even one of the two when [x] lies halfway. *)
Definition round_half_even (x : R) : Z :=
  let below := Int_part x in
  let rest := (x - IZR below)%R in
  if Rltb rest (1 / 2) then below
  else if Rltb (1 / 2) rest then (below + 1)%Z
  else if Z.even below then below else (below + 1)%Z.

(** A [round] for the examples: the nearest multiple of [10 ^ -ndigits],
    halfway cases to the even one. *)
Definition round_decimal (x : R) (ndigits : Z) : R :=
  (IZR (round_half_even (x * powerRZ 10 ndigits)) / powerRZ 10 ndigits)%R.

(** A hub that serves the given decoder vectors for every layer. *)
Definition hub_serving (decoder_vectors : list vector) : environment :=
  {| hf_decoder_weights := fun _ _ => Ok decoder_vectors;
     umap_fit_transform := fun _ => Raise ExternalError;
     round := round_decimal |}.

(** A hub that cannot be reached. *)
Definition hub_offline : environment :=
  {| hf_decoder_weights := fun _ _ => Raise RuntimeError;
     umap_fit_transform := fun _ => Raise ExternalError;
     round := round_decimal |}.

Definition no_files : files := Files ∅ ∅ ∅ ∅ ∅ ∅ ∅.

(** Only [decoder_vectors.npy] of layer 12 is in the cache. *)
Definition cached_vectors_world (decoder_vectors : list vector) : world :=
  World
    (Files {[ ("gemma-2-2b", 12%Z) := decoder_vectors ]} ∅ ∅ ∅ ∅ ∅ ∅) [].

Definition forced : options :=
  {| output_config := DEFAULT_OUTPUT_CONFIG; top_k_labels := 1000;
     skip_labels := true; force := true |}.

(** [--layers 12] and defaults otherwise. *)
Definition layer_12_only : arguments :=
  {| arg_model := "gemma-2-2b"; arg_layers := Some [12%Z];
     arg_output := "./output"; arg_top_k_labels := 1000;
     arg_skip_labels := false; arg_no_compress := false;
     arg_force := false |}.

End Scenario.

(** ** [fetch_labels.py]: [extract_label] *)

Module Labels.

(** A key of a JSON object as [dict.get] sees it: absent, present with the
    value [null] ([None] in Python), or present with a value. *)
Inductive json_field (A : Type) : Type :=
| Absent
| Null
| Present (a : A).
Arguments Absent {A}.
Arguments Null {A}.
Arguments Present {A} a.

(** One entry of ["explanations"]: a score that is a number and a
    description that is a string, where they are values. *)
Record explanation : Type := Explanation {
  score : json_field Q;
  description : json_field string
}.

(** One entry of ["topLogits"]. *)
Record logit : Type := Logit {
  token : json_field string
}.

(** The keys of the feature dictionary that [extract_label] reads. *)
Record feature_data : Type := FeatureData {
  explanations : json_field (list explanation);
  topLogits : json_field (list logit)
}.

(** [feature_data.get(key, [])] under [if ...:]: an absent key gives the
    empty list, and [None] is as false as the empty list. *)
Definition list_of {A : Type} (f : json_field (list A)) : list A :=
  match f with
  | Present l => l
  | _ => []
  end.

(** [x.get("score", 0)]: [None] stands for Python's [None]. *)
Definition score_key (x : explanation) : option Q :=
  match score x with
  | Absent => Some 0%Q
  | Null => None
  | Present q => Some q
  end.

(** The key as a number, where it is one. *)
Definition number_key (x : explanation) : Q := default 0%Q (score_key x).

(** Insertion into a list sorted by descending key, in front of the first
    entry whose key is not greater. *)
Fixpoint insert_by_score (x : explanation) (l : list explanation)
    : list explanation :=
  match l with
  | [] => [x]
  | y :: l' =>
      if Qle_bool (number_key y) (number_key x) then x :: l
      else y :: insert_by_score x l'
  end.

(** Whether the sort can compare its keys: a list of fewer than two entries
    is returned without a comparison; otherwise every key takes part in one,
    and comparing [None] with anything raises [TypeError]. *)
Definition comparable (l : list explanation) : bool :=
  (length l <? 2)%nat ||
  forallb (fun x => match score_key x with Some _ => true | None => false end)
    l.

(** [sorted(explanations, key=..., reverse=True)]: descending by key, and
    stable, so entries with equal keys keep their order. *)
Definition sorted_by_score (l : list explanation)
    : result (list explanation) :=
  if comparable l then Ok (fold_right insert_by_score [] l)
  else Raise TypeError.

(** Truthiness of [x.get("description")]. *)
Definition truthy (s : json_field string) : option string :=
  match s with
  | Present ""%string => None
  | Present s => Some s
  | _ => None
  end.

(** [t.get("token", "")]: [None] stands for Python's [None]. *)
Definition token_text (t : logit) : option string :=
  match token t with
  | Absent => Some ""%string
  | Null => None
  | Present s => Some s
  end.

(** [", ".join(tokens)] on strings. *)
Definition join_tokens (tokens : list string) : string :=
  String.concat ", "%string tokens.

(** The fallback of [extract_label]; [str.join] raises [TypeError] on an
    item that is [None]. *)
Definition top_tokens_label (data : feature_data)
    : result (option string) :=
  match list_of (topLogits data) with
  | [] => Ok None
  | top_logits =>
      match mapM token_text (take 5 top_logits) with
      | Some tokens => Ok (Some ("Top tokens: " ++ join_tokens tokens)%string)
      | None => Raise TypeError
      end
  end.

Definition extract_label (data : feature_data) : result (option string) :=
  (* Try explanations first *)
  match list_of (explanations data) with
  | [] => top_tokens_label data
  | explanations =>
      (* Sort by score, take best *)
      match sorted_by_score explanations with
      | Raise e => Raise e
      | Ok sorted_exp =>
          match sorted_exp with
          | best :: _ =>
              match truthy (description best) with
              | Some label => Ok (Some label)
              | None => top_tokens_label data
              end
          | [] => top_tokens_label data
          end
      end
  end.

(** [y] has a number for a score, and so has [x], and the score of [y] is
    below that of [x]: strictly, or not above it. *)
Definition scored_below (strict : bool) (x y : explanation) : Prop :=
  exists p q,
    score_key y = Some p /\ score_key x = Some q /\
    if strict then (p < q)%Q else (p <= q)%Q.

(** [x] is the first entry of [l] with the greatest score. *)
Definition first_best (x : explanation) (l : list explanation) : Prop :=
  exists before after,
    l = before ++ x :: after /\
    Forall (scored_below true x) before /\
    Forall (scored_below false x) after.

End Labels.

(** ** [download_sae.py]: [download_all_layers] *)

Module Downloads.
Import Umap Config Pipeline.

(** The [for layer in layers] loop of [download_all_layers], from a given
    [results] dict: a layer whose download raises is reported and left
    out. *)
Fixpoint download_layers (env : environment) (model_id : string)
    (layers : list Z) (results : gmap Z (string * Z))
    : M (gmap Z (string * Z)) :=
  match layers with
  | [] => mret results
  | layer :: layers' =>
      results ←
        try_except
          (download_decoder_vectors env model_id layer ;;
           mret (<[layer := (model_id, layer)]> results))
          (fun _ => mret results) ;
      download_layers env model_id layers' results
  end.

(** [download_all_layers]: the result maps a layer to the path of its
    [decoder_vectors.npy], here the key of the file. *)
Definition download_all_layers (env : environment) (model_id : string)
    (layers : option (list Z)) : M (gmap Z (string * Z)) :=
  match MODELS !! model_id with
  | None => raise ValueError
  | Some model_config =>
      let layers :=
        default (map Z.of_nat (seq 0 (Z.to_nat (num_layers model_config))))
          layers in
      download_layers env model_id layers ∅
  end.

End Downloads.

(** ** What a layer's run may write *)

Module Footprint.
Import Umap Config Pipeline Runner.

(** The options of a second, unforced run. *)
Definition unforced (opts : options) : options :=
  {| output_config := output_config opts;
     top_k_labels := top_k_labels opts;
     skip_labels := skip_labels opts;
     force := false |}.

(** Every positions file of the cache has its edges file beside it. *)
Definition edges_beside_positions (f : files) : Prop :=
  forall k, is_Some (positions_npy f !! k) -> is_Some (edges_npy f !! k).

(** A map after writes at key [k] only: it agrees with the old map at every
    other key, and no key is lost. *)
Definition written_at `{Countable K} {V : Type} (k : K) (m m' : gmap K V)
    : Prop :=
  forall k',
    (k' <> k -> m' !! k' = m !! k') /\
    (is_Some (m !! k') -> is_Some (m' !! k')).

(** What running one layer may do to the files: writes at the layer's own
    keys, none to the labels or the manifest; of the directories, it may
    create the one of its model under the output directory. *)
Definition layer_footprint (model_id : string) (layer : Z) (compress : bool)
    (f f' : files) : Prop :=
  written_at (model_id, layer) (decoder_vectors_npy f) (decoder_vectors_npy f') /\
  written_at (model_id, layer) (positions_npy f) (positions_npy f') /\
  written_at (model_id, layer) (edges_npy f) (edges_npy f') /\
  labels_json f' = labels_json f /\
  written_at (model_id, layer, compress) (layer_json f) (layer_json f') /\
  manifest_json f' = manifest_json f /\
  output_dirs f ⊆ output_dirs f' /\
  output_dirs f' ⊆ {[ model_id ]} ∪ output_dirs f.

(** A layer file for the given content of the cache: a node per position,
    in order, each coordinate passed through [round] with four digits; for
    node [idx] the label the cache has for [idx], and no label beside the
    nodes; the edges in order, endpoints kept and weights passed through
    [round] with four digits. *)
Definition exports (env : environment) (positions : list position)
    (edges : list edge) (cached : labels) (data : layer_data) : Prop :=
  nodes data =
    map (fun p => (round env p.1.1 4, round env p.1.2 4, round env p.2 4))
      positions /\
  (forall idx,
     node_labels data !! idx =
       if decide (0 <= idx < Z.of_nat (length positions))%Z
       then cached !! idx else None) /\
  Pipeline.edges data =
    map (fun e => Edge (source e) (target e) (round env (weight e) 4)) edges.

End Footprint.

(** ** Every sleep of a fetch *)

Module ClientMore.
Import Client.

(** The sleeps of one [fetch_feature] call, in order: the limiter's sleep of
    line 48, if it slept, and then the sleeps of the attempt loop. *)
Definition all_sleeps {payload : Type} (f : fetched payload) : list Q :=
  option_list (slept (limiter f)) ++ sleeps (actions f).

End ClientMore.

(** ** Further worlds and collaborators used in examples *)

Module MoreScenarios.
Import Umap Config Pipeline Runner.

(** UMAP answers with the given embedding; the hub cannot be reached. *)
Definition umap_serving (embedded : list position) : environment :=
  {| hf_decoder_weights := fun _ _ => Raise RuntimeError;
     umap_fit_transform := fun _ => Ok embedded;
     round := Scenario.round_decimal |}.

(** Layer 12 with its vectors and positions in the cache and nothing
    exported. *)
Definition positions_cached : world :=
  World
    (Files {[ ("gemma-2-2b", 12%Z) := [[1; 0]; [0; 1]]%R ]}
       {[ ("gemma-2-2b", 12%Z) := [(0, 0, 0); (1, 1, 1)]%R ]} ∅ ∅ ∅ ∅ ∅) [].

Definition unforced_skipping_labels : options :=
  {| output_config := DEFAULT_OUTPUT_CONFIG; top_k_labels := 1000;
     skip_labels := true; force := false |}.

(** A server that fails twice, with an exception and with status 503, and
    then answers. *)
Definition flaky (attempt : nat) : Client.response nat :=
  match attempt with
  | 0%nat => Client.GetRaises
  | 1%nat => Client.Response 503 Client.NoHeader None
  | _ => Client.Response 200 Client.NoHeader (Some 7%nat)
  end.

End MoreScenarios.

(** * Proofs *)

(** Linear arithmetic over [Q]; plain [lra] is the one over [R]. *)
Ltac qlra := Lqa.lra.

(** ** The rate limiter and the fetcher *)

Section ClientProofs.
Import Client.
Local Open Scope Q_scope.

Lemma Qltb_lt (x y : Q) : Qltb x y = true <-> x < y.
Proof.
  unfold Qltb. rewrite negb_true_iff, <- not_true_iff_false, Qle_bool_iff.
  split; [apply Qnot_le_lt | apply Qlt_not_le].
Qed.

Lemma Qltb_ge (x y : Q) : Qltb x y = false <-> y <= x.
Proof.
  unfold Qltb. rewrite negb_false_iff. apply Qle_bool_iff.
Qed.

(** Trimming at a later time subsumes trimming at an earlier one. *)
Lemma trim_trim (now t : Q) (l : list Q) :
  now <= t -> trim t (trim now l) = trim t l.
Proof.
  intros Hle. unfold trim. induction l as [|a l IH]; simpl; [done|].
  destruct (Qltb (now - a) 60) eqn:Ha; simpl; rewrite IH; [done|].
  apply Qltb_ge in Ha.
  assert (Hf : Qltb (t - a) 60 = false) by (apply Qltb_ge; qlra).
  by rewrite Hf.
Qed.

Lemma trim_app (t : Q) (l l' : list Q) : trim t (l ++ l') = trim t l ++ trim t l'.
Proof. apply List.filter_app. Qed.

Lemma trim_length (t : Q) (l : list Q) : (length (trim t l) <= length l)%nat.
Proof. apply filter_length_le. Qed.

Lemma trim_head_in_window (now oldest : Q) (l rest : list Q) :
  trim now l = oldest :: rest -> now - oldest < 60.
Proof.
  intros H. apply Qltb_lt.
  assert (Hin : List.In oldest (trim now l)) by (rewrite H; left; done).
  unfold trim in Hin. apply filter_In in Hin. tauto.
Qed.

Lemma recorded_snoc (s : option Q) (l : list Q) (x : Q) :
  recorded (Waited s (l ++ [x])) = x.
Proof. unfold recorded. cbn [request_times]. apply last_last. Qed.

(** One call: it returns, it has appended its admission timestamp to the
    trimmed list, and the invariant holds again at that timestamp. *)
Lemma wait_for_rate_limit_step (limit : Z) (clock now lag : Q)
    (stored past : list Q) :
  (1 <= limit)%Z -> 0 <= lag -> clock <= now ->
  limiter_inv limit clock stored past ->
  exists w,
    wait_for_rate_limit limit now lag stored = Ok w /\
    request_times w = trim now stored ++ [recorded w] /\
    now <= recorded w /\
    limiter_inv limit (recorded w) (request_times w) (past ++ [recorded w]).
Proof.
  intros Hlimit Hlag Hclock [Hsame Hcount].
  pose proof (Hcount now Hclock) as Hnow.
  assert (Hinv : forall stamp l,
    now <= stamp ->
    (forall t, stamp <= t -> (Z.of_nat (length (trim t l)) < limit)%Z) ->
    (forall t, stamp <= t -> trim t l = trim t (trim now stored)) ->
    limiter_inv limit stamp (trim now stored ++ [stamp]) (past ++ [stamp])).
  { intros stamp l Hstamp Hlt Heq. split; intros t Ht.
    - rewrite !trim_app, trim_trim by qlra. f_equal. apply Hsame. qlra.
    - rewrite trim_app, length_app, <- Heq by done.
      pose proof (Hlt t Ht). pose proof (trim_length t [stamp]).
      simpl in *. lia. }
  unfold wait_for_rate_limit.
  destruct (Z.leb_spec limit (Z.of_nat (length (trim now stored)))) as [Hfull|Hfree].
  - destruct (trim now stored) as [|oldest rest] eqn:Htrim; [simpl in Hfull; lia|].
    pose proof (trim_head_in_window _ _ _ _ Htrim) as Hwin.
    set (sleep_time := 60 - (now - oldest) + (1 # 10)).
    assert (Hpos : Qltb 0 sleep_time = true)
      by (apply Qltb_lt; unfold sleep_time; qlra).
    rewrite Hpos. eexists. split; [reflexivity|].
    rewrite recorded_snoc. cbn [request_times].
    split; [done|]. split; [unfold sleep_time; qlra|].
    apply (Hinv _ rest); [unfold sleep_time; qlra| |].
    + intros t Ht. pose proof (trim_length t rest). simpl in Hnow. lia.
    + intros t Ht. unfold trim at 2. simpl.
      assert (Hold : Qltb (t - oldest) 60 = false)
        by (apply Qltb_ge; unfold sleep_time in Ht; qlra).
      by rewrite Hold.
  - eexists. split; [reflexivity|].
    rewrite recorded_snoc. cbn [request_times].
    split; [done|]. split; [qlra|].
    apply (Hinv _ (trim now stored)); [qlra| |done].
    intros t Ht. pose proof (trim_length t (trim now stored)). lia.
Qed.

Lemma sorted_lookup_le (l : list Q) (i j : nat) (x y : Q) :
  StronglySorted Qle l -> l !! i = Some x -> l !! j = Some y -> (i <= j)%nat ->
  x <= y.
Proof.
  intros Hs. revert i j. induction Hs as [|a l Hs IH Hall]; intros i j Hi Hj Hij.
  - done.
  - destruct i as [|i], j as [|j]; simpl in *; try lia.
    + simplify_eq. apply Qle_refl.
    + simplify_eq. rewrite List.Forall_forall in Hall. apply Hall.
      apply list_elem_of_In, list_elem_of_lookup. eauto.
    + apply (IH i j); [done|done|lia].
Qed.

(** A run of calls from a state that satisfies the invariant. *)
Lemma acquire_all_inv (limit : Z) (calls : list call) :
  (1 <= limit)%Z -> Forall call_ok calls ->
  forall clock stored past,
    limiter_inv limit clock stored past ->
    exists stamps final,
      acquire_all limit clock stored calls = Ok (stamps, final) /\
      length stamps = length calls /\
      Forall (Qle clock) stamps /\
      StronglySorted Qle stamps /\
      forall n t, stamps !! n = Some t ->
        (Z.of_nat (length (trim t (past ++ take (S n) stamps))) <= limit)%Z.
Proof.
  intros Hlimit Hcalls. induction Hcalls as [|c calls [Hidle Hover] _ IH];
    intros clock stored past Hinv.
  - exists [], stored. repeat split; try done; constructor.
  - destruct (wait_for_rate_limit_step limit clock (clock + idle c) (over c)
                stored past) as (w & Hw & Hreq & Hnow & Hinv');
      [done | done | qlra | done |].
    destruct (IH _ _ _ Hinv') as (stamps & final & Hrun & Hlen & Hge & Hsorted & Hwin).
    exists (recorded w :: stamps), final. simpl. rewrite Hw, Hrun.
    split; [done|]. split; [by rewrite Hlen|].
    assert (Hclock : clock <= recorded w) by qlra.
    split; [|split].
    + constructor; [done|]. eapply List.Forall_impl; [|exact Hge].
      intros a Ha. simpl in Ha. qlra.
    + by constructor.
    + intros [|n] t Ht; simpl in Ht.
      * simplify_eq. destruct Hinv' as [Hsame Hcount]. simpl.
        rewrite take_0, Hsame by apply Qle_refl. apply Hcount, Qle_refl.
      * specialize (Hwin n t Ht).
        by rewrite <- app_assoc in Hwin.
Qed.

(** With the limit reached [limit] admissions ago, a minute has passed. *)
Lemma admissions_spaced (limit : Z) (stamps : list Q) (n : nat) (a b : Q) :
  (0 <= limit)%Z ->
  StronglySorted Qle stamps ->
  (forall m t, stamps !! m = Some t ->
     (Z.of_nat (length (trim t (take (S m) stamps))) <= limit)%Z) ->
  stamps !! n = Some a -> stamps !! (n + Z.to_nat limit)%nat = Some b ->
  a + 60 <= b.
Proof.
  intros Hlimit Hsorted Hwin Ha Hb.
  destruct (Qlt_le_dec b (a + 60)) as [Hlt|]; [exfalso|done].
  set (m := (n + Z.to_nat limit)%nat) in *.
  specialize (Hwin m b Hb).
  rewrite <- (take_drop n (take (S m) stamps)), trim_app, length_app in Hwin.
  assert (Hall : trim b (drop n (take (S m) stamps)) = drop n (take (S m) stamps)).
  { apply forallb_filter_id, forallb_forall. intros s Hs.
    apply list_elem_of_In, list_elem_of_lookup in Hs as [i Hi].
    rewrite lookup_drop in Hi. apply lookup_take_Some in Hi as [Hi _].
    assert (a <= s) by (apply (sorted_lookup_le stamps n (n + i) a s); [done..|lia]).
    apply Qltb_lt. qlra. }
  rewrite Hall, length_drop, length_take in Hwin.
  apply lookup_lt_Some in Hb. lia.
Qed.

(** The limiter never raises when the limit is positive. *)
Lemma wait_for_rate_limit_returns (limit : Z) (now lag : Q) (stored : list Q) :
  (1 <= limit)%Z -> exists w, wait_for_rate_limit limit now lag stored = Ok w.
Proof.
  intros Hlimit. unfold wait_for_rate_limit.
  destruct (Z.leb_spec limit (Z.of_nat (length (trim now stored)))); [|eauto].
  destruct (trim now stored); [simpl in *; lia|].
  destruct (Qltb _ _); eauto.
Qed.

Lemma limiter_inv_fresh (limit : Z) (clock : Q) :
  (0 <= limit)%Z -> limiter_inv limit clock [] [].
Proof. intros H. split; intros t _; simpl; [done|lia]. Qed.

(** C5.  On a fresh limiter with a positive limit, calls that take the lock
    one after the other (time never runs backwards) are all admitted, and at
    each admission the admissions recorded within the trailing 60 seconds,
    the new one included, number at most the limit.  With a limit of 5 the
    sixth admission is at least 60 seconds after the first. *)
Theorem rate_limiter_window (limit : Z) (clock : Q) (calls : list call) :
  (1 <= limit)%Z -> Forall call_ok calls ->
  exists stamps final,
    acquire_all limit clock [] calls = Ok (stamps, final) /\
    length stamps = length calls /\
    (forall n t, stamps !! n = Some t ->
       (Z.of_nat (length (trim t (take (S n) stamps))) <= limit)%Z) /\
    (limit = 5%Z -> forall first sixth,
       stamps !! 0%nat = Some first -> stamps !! 5%nat = Some sixth ->
       first + 60 <= sixth).
Proof.
  intros Hlimit Hcalls.
  destruct (acquire_all_inv limit calls Hlimit Hcalls clock [] [])
    as (stamps & final & Hrun & Hlen & _ & Hsorted & Hwin);
    [apply limiter_inv_fresh; lia|].
  exists stamps, final. repeat split; try done.
  intros -> first sixth H0 H5.
  by apply (admissions_spaced 5 stamps 0 first sixth).
Qed.

Lemma Qplus_0_r_eq (x : Q) : x + 0 = x.
Proof.
  destruct x as [a b]. unfold Qplus. simpl.
  by rewrite Z.mul_1_r, Z.add_0_r, Pos.mul_1_r.
Qed.

(** C6, as the code has it.  A call trims; with fewer than [limit]
    timestamps left it records the time without sleeping; otherwise it
    sleeps once for [60 - (now - oldest) + 0.1] seconds, under the lock, and
    records the time then, on the list as trimmed before the sleep and with
    no second check.  A retry of the check after the sleep would pass: the
    procedure of the specification admits at the same timestamp, and the two
    stored lists coincide once trimmed at any later time. *)
Theorem wait_for_rate_limit_once (limit : Z) (now lag : Q) (stored : list Q)
    (fuel : nat) :
  (1 <= limit)%Z -> 0 <= lag -> (1 <= fuel)%nat ->
  (Z.of_nat (length (trim now stored)) <= limit)%Z ->
  exists w s,
    wait_for_rate_limit limit now lag stored = Ok w /\
    acquire_spec fuel limit now lag stored = Ok s /\
    request_times w = trim now stored ++ [recorded w] /\
    match head (trim now stored) with
    | Some oldest =>
        if (Z.of_nat (length (trim now stored)) <? limit)%Z
        then slept w = None /\ recorded w = now + lag
        else slept w = Some (60 - (now - oldest) + (1 # 10)) /\
             recorded w = now + (60 - (now - oldest) + (1 # 10)) + lag
    | None => slept w = None /\ recorded w = now + lag
    end /\
    slept s = slept w /\
    recorded s = recorded w /\
    forall t, recorded w <= t ->
      trim t (request_times s) = trim t (request_times w).
Proof.
  intros Hlimit Hlag Hfuel Hcount.
  unfold wait_for_rate_limit.
  destruct fuel as [|fuel]; [lia|]. cbn [acquire_spec].
  rewrite (Z.leb_antisym (Z.of_nat _) limit).
  destruct (Z.ltb_spec (Z.of_nat (length (trim now stored))) limit) as [Hfree|Hfull];
    cbn [negb].
  - do 2 eexists. split; [reflexivity|]. split; [reflexivity|].
    rewrite recorded_snoc. cbn [request_times slept].
    repeat split; try done.
    destruct (head _); done.
  - destruct (trim now stored) as [|oldest rest] eqn:Htrim; [simpl in *; lia|].
    pose proof (trim_head_in_window _ _ _ _ Htrim) as Hwin.
    set (sleep_time := 60 - (now - oldest) + (1 # 10)).
    assert (Hpos : Qltb 0 sleep_time = true)
      by (apply Qltb_lt; unfold sleep_time; qlra).
    rewrite Hpos.
    assert (Hretry : forall t, now + sleep_time + lag <= t ->
              trim t (oldest :: rest) = trim t rest).
    { intros t Ht. unfold trim. simpl.
      assert (Hold : Qltb (t - oldest) 60 = false)
        by (apply Qltb_ge; unfold sleep_time in Ht; qlra).
      by rewrite Hold. }
    assert (Hspec : acquire_spec fuel limit (now + sleep_time + lag) 0
                      (oldest :: rest) =
                    Ok (Waited None (trim (now + sleep_time + lag) rest ++
                                       [now + sleep_time + lag]))).
    { destruct fuel; cbn [acquire_spec]; rewrite Hretry by apply Qle_refl;
        pose proof (trim_length (now + sleep_time + lag) rest);
        simpl in Hcount;
        (destruct (Z.ltb_spec (Z.of_nat (length (trim (now + sleep_time + lag) rest)))
                    limit); [|lia]);
        by rewrite Qplus_0_r_eq. }
    rewrite Hspec.
    do 2 eexists. split; [reflexivity|]. split; [reflexivity|].
    cbn [request_times slept head]. rewrite !recorded_snoc.
    repeat split; try done.
    intros t Ht. rewrite !trim_app, Hretry, trim_trim by done. done.
Qed.

(** C6, counterexample.  Limit 1, one request recorded at time 0, a call at
    time 10: the code sleeps 50.1 s and appends 60.1 to the list it trimmed
    before sleeping, so the stale 0 stays and two timestamps are stored.
    The procedure that retries the trim and the check before recording
    stores 60.1 alone. *)
Lemma wait_for_rate_limit_no_retry :
  wait_for_rate_limit 1 10 0 [0] = Ok (Waited (Some 50.1) [0; 60.1]) /\
  acquire_spec 2 1 10 0 [0] = Ok (Waited (Some 50.1) [60.1]) /\
  wait_for_rate_limit 1 10 0 [0] <> acquire_spec 2 1 10 0 [0].
Proof. vm_compute. repeat split; congruence. Qed.

(** *** [fetch_feature] *)

Section Fetch.
Context {payload : Type}.
Implicit Types (server : nat -> response payload) (cfg : config).
(** The loop against a server that always answers "rate limited": every
    iteration makes its request, sleeps, and is used up. *)
Lemma fetch_loop_rate_limited (attempts_cfg : Z) (delay : Q) server
    (wait : nat -> Z) (attempts : list nat) :
  (forall n, rate_limited (server n) = Some (wait n)) ->
  fetch_loop attempts_cfg delay server attempts =
    (None, flat_map (fun n => [Get n; Sleep (inject_Z (wait n))]) attempts).
Proof.
  intros Hserver. induction attempts as [|n rest IH]; [done|].
  cbn [fetch_loop flat_map]. rewrite IH. specialize (Hserver n).
  destruct (server n) as [status header json|]; [|done].
  unfold rate_limited in Hserver.
  destruct (Z.eqb_spec status 200) as [->|]; [done|].
  destruct (Z.eqb_spec status 404) as [->|]; [done|].
  destruct (Z.eqb_spec status 429) as [->|].
  - rewrite Hserver. done.
  - destruct status as [|p|p]; try done.
    do 9 (destruct p as [p|p|]; try done).
Qed.

Lemma requests_flat_map (f : nat -> list event) (l : list nat) :
  (forall n, requests (f n) = 1%nat) ->
  requests (flat_map f l) = length l.
Proof.
  intros Hf. unfold requests in *. induction l as [|n l IH]; [done|].
  simpl. rewrite List.filter_app, length_app, Hf, IH. done.
Qed.

(** C1, as the code has it.  A 429 answer makes the fetcher sleep for the
    [Retry-After] seconds, or 60 without the header, and go on to the next
    iteration of the attempt loop: the answer uses up an attempt.  Against a
    resource that always answers 429 the fetcher makes exactly
    [retry_attempts] requests, each followed by that sleep, and returns
    [None], the value it returns for a failed fetch. *)
Theorem fetch_feature_rate_limited cfg (now lag : Q) (stored : list Q) server
    (wait : nat -> Z) :
  (1 <= rate_limit cfg)%Z ->
  (forall n, rate_limited (server n) = Some (wait n)) ->
  exists f,
    fetch_feature cfg now lag stored server = Ok f /\
    returned f = None /\
    actions f =
      flat_map (fun n => [Get n; Sleep (inject_Z (wait n))])
        (range (retry_attempts cfg)) /\
    requests (actions f) = Z.to_nat (retry_attempts cfg).
Proof.
  intros Hlimit Hserver. unfold fetch_feature.
  destruct (wait_for_rate_limit_returns (rate_limit cfg) now lag stored Hlimit)
    as [w ->].
  rewrite (fetch_loop_rate_limited _ _ _ wait) by done.
  eexists. split; [reflexivity|]. cbn [returned actions].
  repeat split. rewrite requests_flat_map by done.
  unfold range. by rewrite length_seq.
Qed.



End Fetch.

(** C1, counterexample.  With the default configuration (three attempts) and
    a resource that answers 429 without a [Retry-After] header every time,
    the fetcher makes three requests, each followed by a 60 s sleep, and then
    returns [None]: the rate-limited answers used up the attempts. *)
Lemma fetch_feature_rate_limited_gives_up :
  fetch_feature default_config 0 0 []
    (fun _ => Response 429 NoHeader (None : option unit)) =
  Ok (Fetched None [Get 0; Sleep 60; Get 1; Sleep 60; Get 2; Sleep 60]
        (Waited None [0])).
Proof. reflexivity. Qed.

(** Witnesses. *)

Lemma wait_for_rate_limit_once_witness :
  exists w s,
    wait_for_rate_limit 1 10 0 [0] = Ok w /\
    acquire_spec 2 1 10 0 [0] = Ok s /\
    request_times w = trim 10 [0] ++ [recorded w] /\
    match head (trim 10 [0]) with
    | Some oldest =>
        if (Z.of_nat (length (trim 10%Q [0%Q])) <? 1)%Z
        then slept w = None /\ recorded w = 10 + 0
        else slept w = Some (60 - (10 - oldest) + (1 # 10)) /\
             recorded w = 10 + (60 - (10 - oldest) + (1 # 10)) + 0
    | None => slept w = None /\ recorded w = 10 + 0
    end /\
    slept s = slept w /\
    recorded s = recorded w /\
    forall t, recorded w <= t ->
      trim t (request_times s) = trim t (request_times w).
Proof.
  apply (wait_for_rate_limit_once 1 10 0 [0] 2).
  - lia.
  - discriminate.
  - lia.
  - simpl. lia.
Defined.

Lemma fetch_feature_rate_limited_witness :
  exists f,
    fetch_feature default_config 0 0 []
      (fun _ => Response 429 NoHeader (None : option unit)) = Ok f /\
    returned f = None /\
    actions f =
      flat_map (fun n => [Get n; Sleep (inject_Z 60)])
        (range (retry_attempts default_config)) /\
    requests (actions f) = Z.to_nat (retry_attempts default_config).
Proof.
  apply (fetch_feature_rate_limited default_config 0 0 []
           (fun _ => Response 429 NoHeader None) (fun _ => 60%Z)).
  - simpl. lia.
  - reflexivity.
Defined.


Lemma rate_limiter_window_witness :
  exists stamps final,
    acquire_all 5 0 []
      [Call 0 0; Call 0 0; Call 0 0; Call 0 0; Call 0 0; Call 0 0] =
      Ok (stamps, final) /\
    length stamps = 6%nat /\
    (forall n t, stamps !! n = Some t ->
       (Z.of_nat (length (trim t (take (S n) stamps))) <= 5)%Z) /\
    ((5 = 5)%Z -> forall first sixth,
       stamps !! 0%nat = Some first -> stamps !! 5%nat = Some sixth ->
       first + 60 <= sixth).
Proof.
  apply (rate_limiter_window 5 0
           [Call 0 0; Call 0 0; Call 0 0; Call 0 0; Call 0 0; Call 0 0]).
  - lia.
  - repeat constructor; simpl; discriminate.
Defined.

End ClientProofs.

(** ** Position normalisation *)

Section PositionProofs.
Import Umap.
Local Open Scope R_scope.

Lemma Rltb_lt (x y : R) : Rltb x y = true <-> x < y.
Proof. unfold Rltb. destruct (Rlt_dec x y); split; (done || lra). Qed.

Lemma Rltb_ge (x y : R) : Rltb x y = false <-> y <= x.
Proof. unfold Rltb. destruct (Rlt_dec x y); split; (done || lra). Qed.

Lemma Rleb_le (x y : R) : Rleb x y = true <-> x <= y.
Proof. unfold Rleb. destruct (Rle_dec x y); split; (done || lra). Qed.

Lemma Rleb_gt (x y : R) : Rleb x y = false <-> y < x.
Proof. unfold Rleb. destruct (Rle_dec x y); split; (done || lra). Qed.

Lemma fold_left_Rmax_ge (l : list R) (x : R) :
  x <= fold_left Rmax l x /\ forall c, c ∈ l -> c <= fold_left Rmax l x.
Proof.
  revert x. induction l as [|a l IH]; intros x; simpl.
  - split; [lra|]. intros c Hc. by apply elem_of_nil in Hc.
  - destruct (IH (Rmax x a)) as [H1 H2].
    pose proof (Rmax_l x a). pose proof (Rmax_r x a).
    split; [lra|]. intros c [->|Hc]%elem_of_cons; [lra|auto].
Qed.

Lemma fold_left_Rmax_in (l : list R) (x : R) : fold_left Rmax l x ∈ x :: l.
Proof.
  revert x. induction l as [|a l IH]; intros x; simpl.
  - apply elem_of_cons; auto.
  - specialize (IH (Rmax x a)).
    apply elem_of_cons in IH as [IH|IH].
    + rewrite IH. unfold Rmax. destruct (Rle_dec x a).
      * apply elem_of_cons; right. apply elem_of_cons; auto.
      * apply elem_of_cons; auto.
    + apply elem_of_cons; right. apply elem_of_cons; auto.
Qed.

(** [array_max] returns the greatest element. *)
Lemma array_max_spec (a : list R) (m : R) :
  array_max a = Ok m -> m ∈ a /\ forall c, c ∈ a -> c <= m.
Proof.
  destruct a as [|x a]; [done|]. intros [= <-]. split.
  - apply fold_left_Rmax_in.
  - destruct (fold_left_Rmax_ge a x) as [H1 H2].
    intros c [->|Hc]%elem_of_cons; auto.
Qed.

Lemma coordinates_scale (factor : R) (positions : list position) :
  concat (map coordinates (map (scale factor) positions)) =
  map (fun c => c * factor) (concat (map coordinates positions)).
Proof.
  induction positions as [|[[x y] z] positions IH]; [done|].
  simpl. by rewrite IH.
Qed.

Lemma sum_shift_scale (m s : R) (l : list R) :
  fold_right Rplus 0 (map (fun x => (x - m) * s) l) =
  (fold_right Rplus 0 l - INR (length l) * m) * s.
Proof.
  induction l as [|x l IH]; [simpl; lra|].
  cbn [map fold_right length]. rewrite IH, S_INR. lra.
Qed.

(** A column shifted by its mean and scaled has mean zero. *)
Lemma mean_centered (s : R) (l : list R) :
  l <> [] -> mean (map (fun x => (x - mean l) * s) l) = 0.
Proof.
  intros Hl. unfold mean at 1. rewrite sum_shift_scale, length_map.
  assert (Hn : INR (length l) <> 0).
  { apply not_0_INR. destruct l; [done|]. simpl; lia. }
  unfold mean. field. done.
Qed.

Lemma Rabs_le_between (a b : R) : Rabs a <= b -> - b <= a <= b.
Proof. unfold Rabs. destruct (Rcase_abs a); lra. Qed.

Lemma scale_1 (positions : list position) : map (scale 1) positions = positions.
Proof.
  induction positions as [|[[x y] z] positions IH]; [done|].
  simpl. rewrite IH. unfold scale. simpl. by rewrite !Rmult_1_r.
Qed.

Lemma axis_means_centered (factor : R) (positions : list position) :
  positions <> [] ->
  mean (map (fun p => p.1.1) (map (scale factor) (center positions))) = 0 /\
  mean (map (fun p => p.1.2) (map (scale factor) (center positions))) = 0 /\
  mean (map (fun p => p.2) (map (scale factor) (center positions))) = 0.
Proof.
  intros Hne. unfold center. rewrite !map_map. cbn [scale fst snd].
  assert (Hcol : forall proj : position -> R, map proj positions <> [])
    by (intros proj; destruct positions; done).
  repeat split.
  - rewrite <- (map_map (fun p : position => p.1.1)
                  (fun x => (x - mean (map (fun p : position => p.1.1) positions)) * factor)).
    by apply mean_centered.
  - rewrite <- (map_map (fun p : position => p.1.2)
                  (fun x => (x - mean (map (fun p : position => p.1.2) positions)) * factor)).
    by apply mean_centered.
  - rewrite <- (map_map (fun p : position => p.2)
                  (fun x => (x - mean (map (fun p : position => p.2) positions)) * factor)).
    by apply mean_centered.
Qed.

(** What the function is written to do, and does in exact arithmetic: on a
    non-empty array, [normalize_positions] with the configured range
    [(-50, 50)] returns the positions minus their per-axis means, all
    multiplied by one positive factor.  Every axis of the result has mean
    zero, every coordinate lies in [[-50, 50]], and unless all centred
    coordinates are zero some coordinate has absolute value 50. *)
Lemma normalize_positions_range (positions : list position) :
  positions <> [] ->
  exists normalized factor,
    normalize_positions positions (Config.position_range Config.DEFAULT_OUTPUT_CONFIG)
      = Ok normalized /\
    0 < factor /\
    normalized = map (scale factor) (center positions) /\
    (mean (map (fun p => p.1.1) normalized) = 0 /\
     mean (map (fun p => p.1.2) normalized) = 0 /\
     mean (map (fun p => p.2) normalized) = 0) /\
    (forall c, c ∈ concat (map coordinates normalized) -> -50 <= c <= 50) /\
    ((exists c, c ∈ concat (map coordinates (center positions)) /\ c <> 0) ->
     exists c, c ∈ concat (map coordinates normalized) /\ Rabs c = 50).
Proof.
  intros Hne. unfold normalize_positions.
  destruct (array_max _) as [max_abs|e] eqn:Hmax.
  2:{ destruct positions as [|[[x y] z] positions]; done. }
  apply array_max_spec in Hmax as [Hin Hle].
  apply list_elem_of_fmap in Hin as (top & Htop & Hin).
  assert (Hbound : forall c, c ∈ concat (map coordinates (center positions)) ->
                     Rabs c <= max_abs).
  { intros c Hc. apply Hle, list_elem_of_fmap. eauto. }
  cbn [Config.position_range Config.DEFAULT_OUTPUT_CONFIG snd].
  destruct (Rltb 0 max_abs) eqn:Hpos.
  - apply Rltb_lt in Hpos.
    assert (Hfactor : 0 < 50 / max_abs) by (apply Rdiv_lt_0_compat; lra).
    exists (map (scale (50 / max_abs)) (center positions)), (50 / max_abs).
    split; [done|]. split; [done|]. split; [done|].
    split; [by apply axis_means_centered|].
    rewrite coordinates_scale. split.
    + intros c' (c & -> & Hc)%list_elem_of_fmap.
      apply Hbound in Hc. apply Rabs_le_between.
      rewrite Rabs_mult, (Rabs_pos_eq (50 / max_abs)) by lra.
      pose proof (Rabs_pos c).
      replace 50 with (max_abs * (50 / max_abs)) at 2 by (field; lra).
      apply Rmult_le_compat_r; lra.
    + intros _. exists (top * (50 / max_abs)). split.
      * apply list_elem_of_fmap. eauto.
      * rewrite Rabs_mult, (Rabs_pos_eq (50 / max_abs)), <- Htop by lra.
        field. lra.
  - apply Rltb_ge in Hpos.
    assert (Hzero : forall c, c ∈ concat (map coordinates (center positions)) ->
                      c = 0).
    { intros c Hc. apply Hbound in Hc. pose proof (Rabs_pos c).
      destruct (Req_dec c 0) as [|Hc0]; [done|].
      apply Rabs_pos_lt in Hc0. lra. }
    exists (center positions), 1.
    split; [done|]. split; [lra|]. split; [by rewrite scale_1|].
    split; [rewrite <- (scale_1 (center positions)); by apply axis_means_centered|].
    split.
    + intros c Hc. rewrite (Hzero c Hc). lra.
    + intros (c & Hc & Hc0). by apply Hzero in Hc.
Qed.

Lemma normalize_positions_range_witness :
  exists normalized factor,
    normalize_positions [(1, 2, 3); (3, 2, 1)]
      (Config.position_range Config.DEFAULT_OUTPUT_CONFIG) = Ok normalized /\
    0 < factor /\
    normalized = map (scale factor) (center [(1, 2, 3); (3, 2, 1)]) /\
    (mean (map (fun p => p.1.1) normalized) = 0 /\
     mean (map (fun p => p.1.2) normalized) = 0 /\
     mean (map (fun p => p.2) normalized) = 0) /\
    (forall c, c ∈ concat (map coordinates normalized) -> -50 <= c <= 50) /\
    ((exists c, c ∈ concat (map coordinates (center [(1, 2, 3); (3, 2, 1)])) /\
                c <> 0) ->
     exists c, c ∈ concat (map coordinates normalized) /\ Rabs c = 50).
Proof. apply (normalize_positions_range [(1, 2, 3); (3, 2, 1)]). discriminate. Defined.

End PositionProofs.

(** *** The same function on floats *)

Section PositionFloats.
Import Stdlib.Floats.Floats Binary64.
Local Open Scope float_scope.

(** C10.  On the [float64] array [[0,0,0], [1,0,0], [17,0,0]] the function
    does not keep its range.  The x column has mean 6, the centred values
    are -6, -5 and 11, and [max_abs] is 11, all of them exact.  The factor
    [50 / 11] is rounded up to [4.5454545454545459], and [11] times this
    factor is rounded to [0x1.9000000000001p+5], the float next above 50,
    which prints as [50.00000000000001]: the third point leaves
    [[-50, 50]], and the greatest absolute coordinate is not 50. *)
Theorem normalize_positions_overshoots :
  normalize_positions three_on_a_line position_range =
    Ok [(-0x1.b45d1745d1746p+4, 0, 0); (-0x1.6ba2e8ba2e8bbp+4, 0, 0);
        (0x1.9000000000001p+5, 0, 0)] /\
  PrimFloat.ltb 50 0x1.9000000000001p+5 = true /\
  PrimFloat.leb 0x1.9000000000001p+5 50 = false /\
  0x1.9000000000001p+5 = PrimFloat.next_up 50.
Proof. repeat split; vm_compute; reflexivity. Qed.

End PositionFloats.

(** ** The edge builder *)

Section GraphProofs.
Import Umap.
Local Open Scope R_scope.

(** A property kept by the body is kept by the loop. *)
Lemma for_each_inv {A S : Type} (P : S -> Prop) (body : A -> S -> result S)
    (l : list A) (st st' : S) :
  (forall a s s', P s -> body a s = Ok s' -> P s') ->
  P st -> for_each body l st = Ok st' -> P st'.
Proof.
  intros Hbody. revert st. induction l as [|a l IH]; intros st Hst Hrun.
  - by simplify_eq/=.
  - simpl in Hrun. destruct (body a st) as [s|] eqn:Ha; [|done].
    eapply IH; [|done]. eauto.
Qed.

(** A body that returns on every element makes a loop that returns. *)
Lemma for_each_returns {A S : Type} (body : A -> S -> result S) (l : list A)
    (st : S) :
  (forall a s, a ∈ l -> exists s', body a s = Ok s') ->
  exists st', for_each body l st = Ok st'.
Proof.
  revert st. induction l as [|a l IH]; intros st Hbody; [by eexists|].
  simpl. destruct (Hbody a st) as [s ->]; [apply elem_of_cons; auto|].
  apply IH. intros b s' Hb. apply Hbody, elem_of_cons; auto.
Qed.

Lemma visit_inv (params : EdgeParams) (indices : list (list nat))
    (similarities : list (list R)) (i j_idx : nat) (st st' : builder) :
  builder_inv params st ->
  visit params indices similarities i j_idx st = Ok st' ->
  builder_inv params st'.
Proof.
  intros [Hweight Hdedupe]. unfold visit.
  destruct (indices !! i ≫= _) as [j|]; [|done].
  destruct (similarities !! i ≫= _) as [similarity|]; [|done].
  destruct (Rltb similarity (min_similarity params)) eqn:Hlow;
    [intros [= <-]; by split|].
  apply Rltb_ge in Hlow.
  assert (Hweight' :
    Forall (fun e => min_similarity params <= weight e)
      (st.1 ++ [Edge i j similarity])).
  { apply Forall_app. split; [done|]. by apply Forall_singleton. }
  destruct (deduplicate params) eqn:Hdd.
  - destruct (decide _) as [|Hnew]; intros [= <-];
      [split; [done|]; intros _; by apply Hdedupe|].
    split; [done|]. intros _. destruct (Hdedupe eq_refl) as [Hnodup Hseen].
    cbn [fst snd]. split.
    + rewrite map_app. apply NoDup_app. split; [done|]. split.
      * intros pair Hpair [->|[]%elem_of_nil]%elem_of_cons.
        apply list_elem_of_fmap in Hpair as (e & He & Hin).
        apply Hnew. unfold unordered in He at 1. cbn [source target] in He.
        rewrite He. by apply Hseen.
      * apply NoDup_singleton.
    + intros e [He|He]%elem_of_app.
      * apply elem_of_union_r. by apply Hseen.
      * apply list_elem_of_singleton in He as ->.
        apply elem_of_union_l, elem_of_singleton. reflexivity.
  - intros [= <-]. split; [done|]. cbn [fst snd]. congruence.
Qed.

Lemma build_edges_inv (params : EdgeParams) (num_features : nat)
    (indices : list (list nat)) (similarities : list (list R)) (st : builder) :
  build_edges params num_features indices similarities = Ok st ->
  builder_inv params st.
Proof.
  unfold build_edges. apply for_each_inv.
  - intros i s s' Hs. apply for_each_inv; [|done].
    intros j_idx. apply visit_inv.
  - split; [constructor|]. intros _. split; [constructor|].
    intros e He. by apply elem_of_nil in He.
Qed.

Lemma NoDup_fmap_elem_inj {A B : Type} (f : A -> B) (l : list A) (x y : A) :
  NoDup (map f l) -> x ∈ l -> y ∈ l -> f x = f y -> x = y.
Proof.
  induction l as [|a l IH]; intros Hnd Hx Hy Hf.
  - by apply elem_of_nil in Hx.
  - simpl in Hnd. apply NoDup_cons in Hnd as [Ha Hnd].
    apply elem_of_cons in Hx as [->|Hx]; apply elem_of_cons in Hy as [->|Hy].
    + done.
    + exfalso. apply Ha. rewrite Hf. apply list_elem_of_fmap. eauto.
    + exfalso. apply Ha. rewrite <- Hf. apply list_elem_of_fmap. eauto.
    + auto.
Qed.

(** C3.  Every edge [compute_edges] returns has a weight of at least
    [min_similarity]; with [deduplicate] set, no two returned edges have the
    same unordered index pair, so an edge and its reverse never both
    appear. *)
Theorem compute_edges_threshold_dedupe (decoder_vectors : list vector)
    (params : option EdgeParams) (edges : list edge) :
  compute_edges decoder_vectors params = Ok edges ->
  let params := default DEFAULT_EDGE_PARAMS params in
  Forall (fun e => min_similarity params <= weight e) edges /\
  (deduplicate params = true ->
   NoDup (map unordered edges) /\
   forall e1 e2, e1 ∈ edges -> e2 ∈ edges ->
     source e1 = target e2 -> target e1 = source e2 -> e1 = e2).
Proof.
  unfold compute_edges. intros Hrun.
  destruct (kneighbors _ _ _) as [[distances indices]|]; [|done].
  destruct (build_edges _ _ _ _) as [[edges' seen]|] eqn:Hbuild; [|done].
  simplify_eq. apply build_edges_inv in Hbuild as [Hweight Hdedupe].
  split; [done|]. intros Hdd. destruct (Hdedupe Hdd) as [Hnodup _].
  split; [done|]. intros e1 e2 H1 H2 Hst Hts.
  apply (NoDup_fmap_elem_inj unordered edges); try done.
  unfold unordered. rewrite Hst, Hts. f_equal; lia.
Qed.

Lemma insert_nearest_length (p : R * nat) (l : list (R * nat)) :
  length (insert_nearest p l) = S (length l).
Proof.
  induction l as [|q l IH]; [done|]. simpl.
  destruct (Rleb _ _); simpl; by rewrite ?IH.
Qed.

Lemma sort_nearest_length (l : list (R * nat)) :
  length (sort_nearest l) = length l.
Proof.
  induction l as [|p l IH]; [done|].
  simpl. by rewrite insert_nearest_length, IH.
Qed.

Lemma kneighbors_row_length (n : nat) (fit : list vector) (x : vector) :
  (n <= length fit)%nat -> length (kneighbors_row n fit x) = n.
Proof.
  intros Hn. unfold kneighbors_row.
  rewrite length_take, sort_nearest_length, length_imap. lia.
Qed.

(** [compute_edges] returns whenever the neighbour search accepts
    [top_k + 1]. *)
Lemma compute_edges_returns (decoder_vectors : list vector)
    (params : option EdgeParams) :
  let top_k := top_k (default DEFAULT_EDGE_PARAMS params) in
  (0 <= top_k)%Z -> (top_k + 1 <= Z.of_nat (length decoder_vectors))%Z ->
  exists edges, compute_edges decoder_vectors params = Ok edges.
Proof.
  intros k Hk Hn. unfold compute_edges, kneighbors. fold k.
  destruct (Z.leb_spec (k + 1) 0) as [|_]; [lia|].
  destruct (Z.ltb_spec (Z.of_nat (length decoder_vectors)) (k + 1)) as [|_]; [lia|].
  set (rows := map _ decoder_vectors).
  assert (Hrows : forall i j_idx, (i < length decoder_vectors)%nat ->
            (j_idx <= Z.to_nat k)%nat ->
            exists p, rows !! i = Some p /\ is_Some (p !! j_idx)).
  { intros i j_idx Hi Hj.
    destruct (lookup_lt_is_Some_2 decoder_vectors i Hi) as [x Hx].
    exists (kneighbors_row (Z.to_nat (k + 1)) decoder_vectors x). split.
    - unfold rows. by rewrite list_lookup_fmap, Hx.
    - apply lookup_lt_is_Some_2. rewrite kneighbors_row_length; lia. }
  match goal with
  | |- context [build_edges ?p ?n ?ix ?sim] =>
      assert (Hbuild : exists st, build_edges p n ix sim = Ok st)
  end.
  { unfold build_edges. apply for_each_returns. intros i st Hi.
    apply elem_of_seq in Hi. apply for_each_returns. intros j_idx st' Hj.
    apply elem_of_seq in Hj.
    destruct (Hrows i j_idx) as (row & Hrow & [p Hp]); [lia|fold k; lia|].
    unfold visit. rewrite !list_lookup_fmap, Hrow. cbn [fmap option_fmap option_map mbind option_bind].
    rewrite !list_lookup_fmap, Hp. cbn [fmap option_fmap option_map].
    destruct (Rltb _ _); [eauto|].
    destruct (deduplicate _); [|eauto].
    destruct (decide _); eauto. }
  destruct Hbuild as [[edges seen] ->]. eauto.
Qed.

Lemma compute_edges_threshold_dedupe_witness :
  exists edges,
    compute_edges [[1; 0]; [0; 1]]
      (Some {| top_k := 1; min_similarity := 0; deduplicate := true |}) =
      Ok edges /\
    Forall (fun e => 0 <= weight e) edges /\
    (true = true ->
     NoDup (map unordered edges) /\
     forall e1 e2, e1 ∈ edges -> e2 ∈ edges ->
       source e1 = target e2 -> target e1 = source e2 -> e1 = e2).
Proof.
  destruct (compute_edges_returns [[1; 0]; [0; 1]]
              (Some {| top_k := 1; min_similarity := 0; deduplicate := true |}))
    as [edges Hedges]; [simpl; lia..|].
  exists edges. split; [exact Hedges|].
  exact (compute_edges_threshold_dedupe _ _ _ Hedges).
Defined.

(** *** Evaluation on given vectors *)

Lemma cosine_distance_unit (u v : vector) :
  dot u u = 1 -> dot v v = 1 -> cosine_distance u v = 1 - dot u v.
Proof.
  intros Hu Hv. unfold cosine_distance, norm. rewrite Hu, Hv, sqrt_1.
  f_equal. field.
Qed.

Ltac eval_sort :=
  unfold kneighbors_row, sort_nearest;
  cbn [imap fold_right insert_nearest fst snd take Z.to_nat Pos.to_nat
       Pos.iter_op Nat.add Z.add Pos.add Pos.succ];
  repeat (first [ rewrite (proj2 (Rleb_le _ _)) by lra
                | rewrite (proj2 (Rleb_gt _ _)) by lra ];
          cbn [insert_nearest fst snd]).

(** The three ways through the body of the inner loop. *)
Lemma visit_below (params : EdgeParams) (indices : list (list nat))
    (similarities : list (list R)) (i j_idx j : nat) (similarity : R)
    (st : builder) :
  indices !! i ≫= (.!! j_idx) = Some j ->
  similarities !! i ≫= (.!! j_idx) = Some similarity ->
  similarity < min_similarity params ->
  visit params indices similarities i j_idx st = Ok st.
Proof.
  intros Hj Hs Hlow. unfold visit. rewrite Hj, Hs.
  by rewrite (proj2 (Rltb_lt _ _) Hlow).
Qed.

Lemma visit_seen (params : EdgeParams) (indices : list (list nat))
    (similarities : list (list R)) (i j_idx j : nat) (similarity : R)
    (st : builder) :
  indices !! i ≫= (.!! j_idx) = Some j ->
  similarities !! i ≫= (.!! j_idx) = Some similarity ->
  deduplicate params = true ->
  (Nat.min i j, Nat.max i j) ∈ st.2 ->
  visit params indices similarities i j_idx st = Ok st.
Proof.
  intros Hj Hs Hdd Hseen. unfold visit. rewrite Hj, Hs, Hdd.
  destruct (Rltb _ _); [done|]. by rewrite decide_True.
Qed.

Lemma visit_new (params : EdgeParams) (indices : list (list nat))
    (similarities : list (list R)) (i j_idx j : nat) (similarity : R)
    (st : builder) :
  indices !! i ≫= (.!! j_idx) = Some j ->
  similarities !! i ≫= (.!! j_idx) = Some similarity ->
  min_similarity params <= similarity ->
  deduplicate params = true ->
  (Nat.min i j, Nat.max i j) ∉ st.2 ->
  visit params indices similarities i j_idx st =
    Ok (st.1 ++ [Edge i j similarity], {[(Nat.min i j, Nat.max i j)]} ∪ st.2).
Proof.
  intros Hj Hs Hhigh Hdd Hnew. unfold visit. rewrite Hj, Hs, Hdd.
  rewrite (proj2 (Rltb_ge _ _) Hhigh). by rewrite decide_False.
Qed.

(** [compute_edges] once the rows of the neighbour search are known. *)
Lemma compute_edges_rows (decoder_vectors : list vector)
    (params : EdgeParams) (rows : list (list (R * nat))) :
  (0 <= top_k params)%Z ->
  (top_k params + 1 <= Z.of_nat (length decoder_vectors))%Z ->
  map (kneighbors_row (Z.to_nat (top_k params + 1)) decoder_vectors)
    decoder_vectors = rows ->
  compute_edges decoder_vectors (Some params) =
    match
      build_edges params (length decoder_vectors) (map (map snd) rows)
        (map (map (fun d => 1 - d)) (map (map fst) rows))
    with
    | Ok (edges, _) => Ok edges
    | Raise e => Raise e
    end.
Proof.
  intros Hk Hn <-. unfold compute_edges, kneighbors.
  change (default DEFAULT_EDGE_PARAMS (Some params)) with params.
  destruct (Z.leb_spec (top_k params + 1) 0) as [|_]; [lia|].
  destruct (Z.ltb_spec (Z.of_nat (length decoder_vectors)) (top_k params + 1))
    as [|_]; [lia|].
  reflexivity.
Qed.

(** C4, at the failing input.  Two identical unit vectors, one neighbour
    each, default threshold, deduplication on: the second vector's
    nearest neighbours are vector 0 and itself, at distance 0 both; vector 0
    comes first, the "self" slot that is skipped holds vector 0, and the
    edge built from the next slot joins vector 1 to itself. *)
Lemma compute_edges_two_equal_vectors :
  compute_edges [[1; 0]; [1; 0]]
    (Some {| top_k := 1; min_similarity := 25 / 100; deduplicate := true |}) =
  Ok [Edge 0 1 1; Edge 1 1 1].
Proof.
  assert (D : cosine_distance [1; 0] [1; 0] = 0).
  { rewrite cosine_distance_unit; unfold dot; simpl; lra. }
  assert (Hrow : kneighbors_row 2 [[1; 0]; [1; 0]] [1; 0] =
                 [(0, 0%nat); (0, 1%nat)]).
  { unfold kneighbors_row. cbv [imap compose]. rewrite !D. eval_sort.
    reflexivity. }
  rewrite (compute_edges_rows _ _ [[(0, 0%nat); (0, 1%nat)];
                                    [(0, 0%nat); (0, 1%nat)]]);
    [|simpl; lia|simpl; lia|
     cbn [map top_k]; change (Z.to_nat (1 + 1)) with 2%nat; by rewrite Hrow].
  unfold build_edges.
  cbn [map fst snd seq Z.to_nat Pos.to_nat Pos.iter_op Nat.add top_k for_each
       length].
  replace (1 - 0) with 1 by lra.
  change (Z.to_nat 1) with 1%nat. cbn [seq for_each].
  rewrite (visit_new _ _ _ 0 1 1 1);
    [|done|done|simpl; lra|done|apply not_elem_of_empty].
  rewrite (visit_new _ _ _ 1 1 1 1); [|done|done|simpl; lra|done|].
  - reflexivity.
  - cbn. rewrite elem_of_union, elem_of_singleton, elem_of_empty.
    intros [[=]|[]].
Qed.

Lemma cosine_distance_deg (x y : R) :
  cosine_distance (unit_vector_deg x) (unit_vector_deg y) =
  1 - (cos (x * PI / 180) * cos (y * PI / 180) +
       sin (x * PI / 180) * sin (y * PI / 180)).
Proof.
  assert (Hunit : forall a, dot (unit_vector_deg a) (unit_vector_deg a) = 1).
  { intros a. unfold dot, unit_vector_deg. simpl.
    pose proof (sin2_cos2 (a * PI / 180)) as H. unfold Rsqr in H. lra. }
  rewrite cosine_distance_unit by done.
  unfold dot, unit_vector_deg. simpl. lra.
Qed.

(** [PI] to two decimals, from the series for
    [PI / 4 = 2 * atan (1 / 3) + atan (1 / 7)]. *)
Lemma PI_bounds : 3135 / 1000 < PI < 3143 / 1000.
Proof.
  destruct (PI_2_3_7_ineq 1) as [Hlo Hhi].
  unfold tg_alt, PI_2_3_7_tg, Ratan_seq in Hlo, Hhi. simpl in Hlo, Hhi.
  lra.
Qed.

(** Bounds on the cosine and the sine of ten degrees. *)
Lemma cos_sin_10_degrees :
  let c := cos (10 * PI / 180) in
  let s := sin (10 * PI / 180) in
  9847 / 10000 < c < 9849 / 10000 /\ 0 < s < 1 / 2 /\ c * c + s * s = 1.
Proof.
  intros c s. pose proof PI_bounds as [Hpi1 Hpi2].
  split; [|split].
  - destruct (cos_bound (10 * PI / 180) 0) as [Hlo Hhi]; [lra..|].
    unfold cos_approx, cos_term in Hlo, Hhi. simpl in Hlo, Hhi.
    fold c in Hlo, Hhi.
    set (a := 10 * PI / 180) in *.
    assert (Ha : 17416 / 100000 < a < 17462 / 100000) by (unfold a; lra).
    assert (Ha2 : 3033 / 100000 < a * a < 3050 / 100000) by nra.
    assert (Ha4 : a * a * (a * a) < 1 / 1000) by nra.
    split; lra.
  - split.
    + apply sin_gt_0; lra.
    + rewrite <- sin_PI6. apply sin_increasing_1; lra.
  - pose proof (sin2_cos2 (10 * PI / 180)) as Hsq. unfold Rsqr in Hsq.
    unfold c, s. lra.
Qed.

Lemma trig_values :
  cos (0 * PI / 180) = 1 /\ sin (0 * PI / 180) = 0 /\
  cos (90 * PI / 180) = 0 /\ sin (90 * PI / 180) = 1 /\
  cos (180 * PI / 180) = -1 /\ sin (180 * PI / 180) = 0.
Proof.
  replace (0 * PI / 180) with 0 by lra.
  replace (90 * PI / 180) with (PI / 2) by lra.
  replace (180 * PI / 180) with PI by lra.
  rewrite cos_0, sin_0, cos_PI2, sin_PI2, cos_PI, sin_PI. done.
Qed.

(** The neighbour search on the four vectors, two neighbours per row. *)
Lemma kneighbors_rows_four_angles :
  let c := cos (10 * PI / 180) in
  let s := sin (10 * PI / 180) in
  map (kneighbors_row 2 four_angles) four_angles =
  [ [(0, 0%nat); (1 - c, 1%nat)];
    [(0, 1%nat); (1 - c, 0%nat)];
    [(0, 2%nat); (1 - s, 1%nat)];
    [(0, 3%nat); (1, 2%nat)] ].
Proof.
  intros c s.
  destruct cos_sin_10_degrees as ((Hc1 & Hc2) & (Hs1 & Hs2) & Hsq).
  destruct trig_values as (C0 & S0 & C90 & S90 & C180 & S180).
  fold c s in Hc1, Hc2, Hs1, Hs2, Hsq.
  unfold four_angles. cbn [map]. unfold kneighbors_row.
  cbv [imap compose]. rewrite !cosine_distance_deg.
  rewrite ?C0, ?S0, ?C90, ?S90, ?C180, ?S180. fold c s.
  eval_sort. cbn [take].
  repeat match goal with
         | |- _ :: _ = _ :: _ => f_equal
         | |- (_, _) = (_, _) => f_equal
         | |- @eq R _ _ => lra
         end.
Qed.

(** C9.  Four unit vectors in the plane at 0, 10, 90 and 180 degrees, one
    neighbour per vector, threshold 0.5, deduplication on: the builder
    returns exactly one edge, from vector 0 to vector 1, and its weight is
    the cosine of ten degrees, within 0.0005 of 0.985.  No edge touches
    vectors 2 and 3. *)
Theorem compute_edges_four_angles :
  compute_edges four_angles
    (Some {| top_k := 1; min_similarity := 1 / 2; deduplicate := true |}) =
    Ok [Edge 0 1 (cos (10 * PI / 180))] /\
  Rabs (cos (10 * PI / 180) - 985 / 1000) < 5 / 10000.
Proof.
  destruct cos_sin_10_degrees as ((Hc1 & Hc2) & (Hs1 & Hs2) & Hsq).
  split; [|apply Rabs_def1; lra].
  erewrite compute_edges_rows;
    [|simpl; lia|simpl; lia|apply kneighbors_rows_four_angles].
  unfold build_edges.
  cbn [map fst snd top_k length four_angles].
  change (Z.to_nat 1) with 1%nat. cbn [seq for_each].
  rewrite (visit_new _ _ _ 0 1 1 (1 - (1 - cos (10 * PI / 180))));
    [|done|done|simpl; lra|done|apply not_elem_of_empty].
  rewrite (visit_seen _ _ _ 1 1 0 (1 - (1 - cos (10 * PI / 180))));
    [|done|done|done|apply elem_of_union_l, elem_of_singleton; reflexivity].
  rewrite (visit_below _ _ _ 2 1 1 (1 - (1 - sin (10 * PI / 180))));
    [|done|done|simpl; lra].
  rewrite (visit_below _ _ _ 3 1 2 (1 - 1)); [|done|done|simpl; lra].
  cbn [fst app]. do 3 f_equal. lra.
Qed.

End GraphProofs.

(** ** The pipeline *)

Section PipelineProofs.
Import Umap Config Pipeline Runner Scenario.

Lemma bind_ok {A B : Type} (m : M A) (k : A -> M B) (w w' : world) (a : A) :
  m w = (Ok a, w') -> (m ≫= k) w = k a w'.
Proof. intros H. unfold mbind, M_bind, bind. by rewrite H. Qed.

Lemma bind_raise {A B : Type} (m : M A) (k : A -> M B) (w w' : world)
    (e : exn) :
  m w = (Raise e, w') -> (m ≫= k) w = (Raise e, w').
Proof. intros H. unfold mbind, M_bind, bind. by rewrite H. Qed.

(** [download_decoder_vectors] with the file in the cache: the file is
    loaded, nothing is fetched and nothing is written. *)
Lemma download_decoder_vectors_cached (env : environment) (model_id : string)
    (layer : Z) (model_config : ModelConfig) (cached : list vector)
    (w : world) :
  MODELS !! model_id = Some model_config ->
  (0 <= layer < num_layers model_config)%Z ->
  decoder_vectors_npy (fs w) !! (model_id, layer) = Some cached ->
  download_decoder_vectors env model_id layer w = (Ok cached, w).
Proof.
  intros Hmodel Hlayer Hcached. unfold download_decoder_vectors.
  rewrite Hmodel.
  destruct (Z.ltb_spec layer 0); [lia|].
  destruct (Z.leb_spec (num_layers model_config) layer); [lia|].
  cbn [orb]. rewrite (bind_ok _ _ w w (fs w)) by done.
  by rewrite Hcached.
Qed.

(** Step 1 under [force] with the file in the cache changes nothing. *)
Lemma step1_download_forced_cached (env : environment) (model_id : string)
    (layer : Z) (opts : options) (model_config : ModelConfig)
    (cached : list vector) (w : world) :
  MODELS !! model_id = Some model_config ->
  (0 <= layer < num_layers model_config)%Z ->
  decoder_vectors_npy (fs w) !! (model_id, layer) = Some cached ->
  force opts = true ->
  step1_download env model_id layer opts w = (Ok tt, w).
Proof.
  intros Hmodel Hlayer Hcached Hforce. unfold step1_download.
  rewrite (bind_ok _ _ w w (fs w)) by done.
  rewrite Hforce. cbn [orb].
  by rewrite (bind_ok _ _ w w cached)
    by by eapply download_decoder_vectors_cached.
Qed.

(** The sibling step: [compute_layer_positions] under [force_recompute]
    recomputes and overwrites its two files. *)
Lemma compute_layer_positions_forced (env : environment) (model_id : string)
    (layer : Z) (w : world) (decoder_vectors : list vector)
    (embedded positions : list position) (edges : list edge) :
  decoder_vectors_npy (fs w) !! (model_id, layer) = Some decoder_vectors ->
  umap_fit_transform env decoder_vectors = Ok embedded ->
  normalize_positions embedded (position_range DEFAULT_OUTPUT_CONFIG) =
    Ok positions ->
  compute_edges decoder_vectors None = Ok edges ->
  exists w',
    compute_layer_positions env model_id layer true w =
      (Ok (positions, edges), w') /\
    positions_npy (fs w') !! (model_id, layer) = Some positions /\
    edges_npy (fs w') !! (model_id, layer) = Some edges /\
    calls w' = calls w ++ [UmapFit model_id layer].
Proof.
  intros Hvec Humap Hnorm Hedges. unfold compute_layer_positions.
  rewrite (bind_ok _ _ w w (fs w)) by done. rewrite Hvec.
  unfold compute_umap_positions, call_out, lift, save_positions, save_edges,
    set_fs, mbind, M_bind, bind, mret, M_ret, ret.
  rewrite Humap, Hnorm, Hedges. cbn.
  eexists. split; [reflexivity|]. cbn.
  by rewrite !lookup_insert_eq.
Qed.

(** *** A forced run over a cached download *)

(** C2, at the failing input.  The cache of layer 12 holds the vectors
    [[1, 0]]; the hub now serves [[0, 1]]; the run is forced.  Step 1 calls
    [download_decoder_vectors], which finds the cached file and returns it:
    no download is made and the file keeps its old content, although the
    download path, taken when the file is absent, would store the
    normalised new vectors. *)
Theorem forced_run_keeps_cached_vectors :
  let env := hub_serving [[0; 1]]%R in
  let w := cached_vectors_world [[1; 0]]%R in
  step1_download env "gemma-2-2b" 12 forced w = (Ok tt, w) /\
  decoder_vectors_npy (fs w) !! ("gemma-2-2b", 12%Z) = Some [[1; 0]]%R /\
  calls w = [] /\
  step1_download env "gemma-2-2b" 12 forced (World no_files []) =
    (Ok tt,
     World (fs (cached_vectors_world (l2_normalize [[0; 1]]%R)))
       [HfDownload "gemma-2-2b" 12]) /\
  l2_normalize [[0; 1]]%R <> [[1; 0]]%R.
Proof.
  intros env w. split; [|split; [|split; [|split]]].
  - eapply step1_download_forced_cached; [reflexivity|simpl; lia| |done].
    apply lookup_singleton_eq.
  - apply lookup_singleton_eq.
  - done.
  - reflexivity.
  - unfold l2_normalize. cbn [map]. intros [= H _].
    unfold Rdiv in H. rewrite Rmult_0_l in H. lra.
Qed.

(** Step 3, unless skipped or satisfied from the cache, raises: the call of
    the missing [validate] is the first thing [fetch_layer_labels] does. *)
Lemma step3_labels_raises (model_id : string) (layer : Z) (opts : options)
    (w : world) :
  skip_labels opts = false ->
  force opts || negb (exists_in (labels_json (fs w)) (model_id, layer)) = true ->
  step3_labels model_id layer opts w = (Raise AttributeError, w).
Proof.
  intros Hskip Hrun. unfold step3_labels. rewrite Hskip. cbn [negb].
  rewrite (bind_ok _ _ w w (fs w)) by done. by rewrite Hrun.
Qed.

(** *** Failures stay inside their layer *)

Lemma run_layer_pipeline_outcome (env : environment) (model_id : string)
    (layer : Z) (opts : options) (w : world) :
  run_layer_pipeline env model_id layer opts w =
    match run_steps (steps env model_id layer opts) w with
    | (Ok _, w') => (Ok true, w')
    | (Raise _, w') => (Ok false, w')
    end.
Proof.
  unfold run_layer_pipeline, try_except, mbind, M_bind, bind.
  destruct (run_steps _ w) as [[[]|e] w']; done.
Qed.

(** A step that raises ends the sequence in the world it left. *)
Lemma run_steps_raise (done rest : list (M unit)) (failing : M unit)
    (e : exn) (w w1 w2 : world) :
  run_steps done w = (Ok tt, w1) ->
  failing w1 = (Raise e, w2) ->
  run_steps (done ++ failing :: rest) w = (Raise e, w2).
Proof.
  revert w. induction done as [|s done IH]; intros w Hdone Hfail.
  - cbn [run_steps] in Hdone. unfold mret, M_ret, ret in Hdone. simplify_eq.
    cbn [app run_steps]. unfold mbind, M_bind, bind. by rewrite Hfail.
  - cbn [app run_steps] in *. unfold mbind, M_bind, bind in *.
    destruct (s w) as [[[]|e'] w'] eqn:Hs; [|done]. by apply IH.
Qed.

(** The loop never raises; it puts every layer in one of the two lists, and
    what it adds to the lists does not depend on what they held. *)
Lemma run_layers_classifies (env : environment) (model_id : string)
    (opts : options) (layers : list Z) (w : world) :
  exists s f w',
    (forall acc,
       run_layers env model_id opts layers acc w =
         (Ok (Summary (successful acc ++ s) (failed acc ++ f)), w')) /\
    s ++ f ≡ₚ layers.
Proof.
  revert w. induction layers as [|layer layers IH]; intros w.
  - exists [], [], w. split; [|done]. intros [s f]. simpl. by rewrite !app_nil_r.
  - cbn [run_layers]. unfold mbind, M_bind, bind.
    rewrite run_layer_pipeline_outcome.
    destruct (run_steps _ w) as [[[]|e] w1];
      destruct (IH w1) as (s & f & w' & Hrun & Hperm).
    + exists (layer :: s), f, w'. split.
      * intros acc. rewrite Hrun. cbn [successful failed].
        by rewrite <- app_assoc.
      * simpl. by rewrite Hperm.
    + exists s, (layer :: f), w'. split.
      * intros acc. rewrite Hrun. cbn [successful failed].
        by rewrite <- app_assoc.
      * rewrite <- Hperm. symmetry. apply Permutation_middle.
Qed.

Lemma run_layers_app (env : environment) (model_id : string) (opts : options)
    (before after : list Z) (acc acc1 : summary) (w w1 : world) :
  run_layers env model_id opts before acc w = (Ok acc1, w1) ->
  run_layers env model_id opts (before ++ after) acc w =
    run_layers env model_id opts after acc1 w1.
Proof.
  revert acc w. induction before as [|layer before IH]; intros acc w Hrun.
  - simpl in *. unfold mret, M_ret, ret in Hrun. by simplify_eq.
  - cbn [app run_layers] in *. unfold mbind, M_bind, bind in *.
    destruct (run_layer_pipeline _ _ _ _ w) as [[b|e] w']; [|done].
    by apply IH.
Qed.

End PipelineProofs.

(** ** More on the client: bounded requests, recovery, the wait *)

(** ** More on the fetcher and the limiter *)

Section ClientMoreProofs.
Import Client ClientMore.
Local Open Scope Q_scope.
Context {payload : Type}.
Implicit Types (server : nat -> response payload) (cfg : config).

(** The loop over the attempts [first, first + count): it makes at most
    [count] requests, never sleeps more often than it requests, and data it
    returns is the body of the 200 answer to its last request. *)
Lemma fetch_loop_bounded (attempts_cfg : Z) (delay : Q) server
    (count first : nat) :
  let '(data, trace) :=
    fetch_loop attempts_cfg delay server (seq first count) in
  (requests trace <= count)%nat /\
  (length (sleeps trace) <= requests trace)%nat /\
  forall d, data = Some d ->
    exists n header,
      (first <= n < first + count)%nat /\
      server n = Response 200 header (Some d) /\
      requests trace = S (n - first).
Proof.
  revert first. induction count as [|count IH]; intros first.
  - unfold requests, sleeps. simpl. repeat split; [lia..|]. intros d [=].
  - cbn [seq fetch_loop]. specialize (IH (S first)).
    destruct (fetch_loop attempts_cfg delay server (seq (S first) count))
      as [data trace].
    destruct IH as (Hreq & Hsleep & Hdata).
    assert (Hnext : (requests (Get first :: Sleep (backoff delay first) :: trace)
                     <= S count)%nat /\
                    (length (sleeps (Get first :: Sleep (backoff delay first) :: trace))
                     <= requests (Get first :: Sleep (backoff delay first) :: trace))%nat /\
                    forall d, data = Some d ->
                      exists n header,
                        (first <= n < first + S count)%nat /\
                        server n = Response 200 header (Some d) /\
                        requests (Get first :: Sleep (backoff delay first) :: trace)
                          = S (n - first)).
    { unfold requests, sleeps in *. cbn. repeat split; [lia..|].
      intros d Hd. destruct (Hdata d Hd) as (n & header & Hn & Hserver & Hcount).
      exists n, header. repeat split; [lia..|done|]. rewrite Hcount. lia. }
    assert (Hstop : forall in_except : bool,
      (requests (Get first :: (if in_except then [Print] else [])) <= S count)%nat /\
      (length (sleeps (Get first :: (if in_except then [Print] else [])))
       <= requests (Get first :: (if in_except then [Print] else [])))%nat /\
      forall d, @None payload = Some d ->
        exists n header,
          (first <= n < first + S count)%nat /\
          server n = Response 200 header (Some d) /\
          requests (Get first :: (if in_except then [Print] else [])) = S (n - first)).
    { intros []; unfold requests, sleeps; cbn; repeat split; try lia; intros d [=]. }
    assert (Herror : forall in_except : bool,
      let '(data', trace') :=
        if (Z.of_nat first =? attempts_cfg - 1)%Z
        then (@None payload, Get first :: (if in_except then [Print] else []))
        else (data, Get first :: Sleep (backoff delay first) :: trace) in
      (requests trace' <= S count)%nat /\
      (length (sleeps trace') <= requests trace')%nat /\
      forall d, data' = Some d ->
        exists n header,
          (first <= n < first + S count)%nat /\
          server n = Response 200 header (Some d) /\
          requests trace' = S (n - first)).
    { intros b. destruct (_ =? _)%Z; [apply Hstop|apply Hnext]. }
    destruct (server first) as [status header json|] eqn:Hfirst.
    + destruct (Z.eqb_spec status 200) as [->|Hnot200].
      * destruct json as [d|].
        -- unfold requests, sleeps. cbn. repeat split; [lia..|].
           intros d' [= <-]. exists first, header.
           repeat split; [lia..|done|f_equal; lia].
        -- apply (Herror true).
      * destruct (status =? 404)%Z.
        -- unfold requests, sleeps. cbn. repeat split; [lia..|]. intros d [=].
        -- destruct (status =? 429)%Z; [|apply (Herror false)].
           destruct (int_of_retry_after header) as [seconds|]; [|apply (Herror true)].
           cbn [fst snd]. unfold requests, sleeps in *. cbn.
           repeat split; [lia..|].
           intros d Hd. destruct (Hdata d Hd) as (m & h & Hm & Hserver & Hcount).
           exists m, h. repeat split; [lia..|done|]. rewrite Hcount. lia.
    + apply (Herror true).
Qed.


(** X1.  Whatever the server answers, a fetch that returns has made at most
    [retry_attempts] requests.  The attempt loop sleeps at most once per
    request; the limiter may sleep once more, before the first request, so
    the call sleeps at most once more often than it requests.  Data it
    returns is the body of a 200 answer, the answer to its last request. *)
Theorem fetch_feature_bounded cfg (now lag : Q) (stored : list Q) server
    (f : fetched payload) :
  fetch_feature cfg now lag stored server = Ok f ->
  (requests (actions f) <= Z.to_nat (retry_attempts cfg))%nat /\
  (length (sleeps (actions f)) <= requests (actions f))%nat /\
  (length (all_sleeps f) <= S (requests (actions f)))%nat /\
  (slept (limiter f) = None -> all_sleeps f = sleeps (actions f)) /\
  forall d, returned f = Some d ->
    exists n header,
      (n < Z.to_nat (retry_attempts cfg))%nat /\
      server n = Response 200 header (Some d) /\
      requests (actions f) = S n.
Proof.
  unfold fetch_feature. destruct (wait_for_rate_limit _ _ _ _) as [w|]; [|done].
  pose proof (fetch_loop_bounded (retry_attempts cfg) (retry_delay cfg) server
                (Z.to_nat (retry_attempts cfg)) 0) as H.
  unfold range. destruct (fetch_loop _ _ _ _) as [data trace].
  intros [= <-]. unfold all_sleeps. cbn [actions returned limiter].
  destruct H as (Hreq & Hsleep & Hdata).
  split; [done|]. split; [done|]. split; [|split].
  - rewrite length_app. destruct (slept w); simpl; lia.
  - by intros ->.
  - intros d Hd. destruct (Hdata d Hd) as (n & header & Hn & Hserver & Hcount).
    exists n, header. repeat split; [lia|done|]. rewrite Hcount. f_equal. lia.
Qed.


(** X3.  A client whose limit is zero or negative cannot make its first
    request: with no timestamp from the last minute the limiter indexes an
    empty list, and [fetch_feature], which calls the limiter outside its
    [try], raises [IndexError] instead of returning [None]. *)
Theorem fetch_feature_nonpositive_limit cfg (now lag : Q) (stored : list Q)
    server :
  (rate_limit cfg <= 0)%Z ->
  Forall (fun t => 60 <= now - t) stored ->
  fetch_feature cfg now lag stored server = Raise IndexError.
Proof.
  intros Hlimit Hold. unfold fetch_feature, wait_for_rate_limit.
  assert (Htrim : trim now stored = []).
  { unfold trim. induction Hold as [|t l Ht _ IH]; [done|].
    simpl. by rewrite (proj2 (Qltb_ge _ _) Ht). }
  rewrite Htrim. cbn [length].
  destruct (Z.leb_spec (rate_limit cfg) (Z.of_nat 0)); [done|lia].
Qed.

End ClientMoreProofs.

Section ClientMoreWitness.
Import Client ClientMore MoreScenarios.
Local Open Scope Q_scope.

Lemma fetch_feature_bounded_witness :
  exists f,
    fetch_feature (Config 1 3 1) 10 0 [0]
      (fun _ => Response 429 NoHeader (None : option unit)) = Ok f /\
    requests (actions f) = 3%nat /\
    length (sleeps (actions f)) = 3%nat /\
    length (all_sleeps f) = 4%nat /\
    (length (all_sleeps f) <= S (requests (actions f)))%nat.
Proof.
  eexists. split; [reflexivity|]. split; [reflexivity|].
  split; [reflexivity|]. split; [reflexivity|].
  apply (fetch_feature_bounded (Config 1 3 1) 10 0 [0]
           (fun _ => Response 429 NoHeader (None : option unit))).
  reflexivity.
Defined.


Lemma fetch_feature_nonpositive_limit_witness :
  fetch_feature (Config 0 3 1) 100 0 [10; 20] flaky = Raise IndexError.
Proof.
  apply (fetch_feature_nonpositive_limit (Config 0 3 1) 100 0 [10; 20] flaky).
  - simpl. lia.
  - repeat constructor; discriminate.
Defined.

End ClientMoreWitness.

Section LimiterMore.
Import Client.
Local Open Scope Q_scope.

(** How long one call can take: the recorded time is the entry time plus the
    latency plus a sleep of at most 60.1 seconds, provided no stored
    timestamp lies in the future. *)
Lemma wait_for_rate_limit_bounds (limit : Z) (now lag : Q) (stored : list Q)
    (w : waited) :
  Forall (fun t => t <= now) stored ->
  wait_for_rate_limit limit now lag stored = Ok w ->
  now + lag <= recorded w /\ recorded w <= now + lag + (601 # 10).
Proof.
  intros Hpast. unfold wait_for_rate_limit.
  destruct (_ <=? _)%Z.
  - destruct (trim now stored) as [|oldest rest] eqn:Htrim; [done|].
    assert (Hold : oldest <= now).
    { rewrite List.Forall_forall in Hpast. apply Hpast.
      assert (Hin : List.In oldest (trim now stored)) by (rewrite Htrim; by left).
      unfold trim in Hin. apply filter_In in Hin. tauto. }
    pose proof (trim_head_in_window _ _ _ _ Htrim) as Hwin.
    destruct (Qltb _ _); intros [= <-]; unfold recorded; cbn [request_times];
      rewrite ?app_comm_cons, last_last; split; qlra.
  - intros [= <-]. rewrite recorded_snoc. split; qlra.
Qed.

Lemma trim_Forall (P : Q -> Prop) (now : Q) (l : list Q) :
  Forall P l -> Forall P (trim now l).
Proof.
  intros H. unfold trim. induction H as [|t l Ht _ IH]; [constructor|].
  simpl. destruct (Qltb _ _); [by constructor|done].
Qed.

Lemma acquire_all_bounded (limit : Z) (calls : list call) :
  (1 <= limit)%Z -> Forall call_ok calls ->
  forall clock stored past,
    limiter_inv limit clock stored past ->
    Forall (fun t => t <= clock) stored ->
    (length stored <= Z.to_nat limit + 1)%nat ->
    exists stamps final,
      acquire_all limit clock stored calls = Ok (stamps, final) /\
      (length final <= Z.to_nat limit + 1)%nat /\
      forall n c t prev,
        calls !! n = Some c -> stamps !! n = Some t ->
        (clock :: stamps) !! n = Some prev ->
        prev + idle c + over c <= t /\
        t <= prev + idle c + over c + (601 # 10).
Proof.
  intros Hlimit Hcalls. induction Hcalls as [|c calls [Hidle Hover] _ IH];
    intros clock stored past Hinv Hpast Hlen.
  - exists [], stored. split; [done|]. split; [done|]. intros n c t prev Hc. by rewrite lookup_nil in Hc.
  - destruct (wait_for_rate_limit_step limit clock (clock + idle c) (over c)
                stored past) as (w & Hw & Hreq & Hnow & Hinv');
      [done | done | qlra | done |].
    assert (Hpast_now : Forall (fun t => t <= clock + idle c) stored).
    { eapply List.Forall_impl; [|exact Hpast]. intros t Ht. simpl in Ht. qlra. }
    destruct (wait_for_rate_limit_bounds _ _ _ _ _ Hpast_now Hw) as [Hlo Hhi].
    assert (Hpast' : Forall (fun t => t <= recorded w) (request_times w)).
    { rewrite Hreq. apply Forall_app. split.
      - apply trim_Forall. eapply List.Forall_impl; [|exact Hpast_now].
        intros t Ht. simpl in Ht. qlra.
      - apply Forall_singleton. apply Qle_refl. }
    assert (Hlen' : (length (request_times w) <= Z.to_nat limit + 1)%nat).
    { rewrite Hreq, length_app. simpl.
      destruct Hinv as [_ Hcount].
      specialize (Hcount (clock + idle c)). 
      assert (clock <= clock + idle c) as Hle by qlra.
      specialize (Hcount Hle). lia. }
    destruct (IH _ _ _ Hinv' Hpast' Hlen') as (stamps & final & Hrun & Hfinal & Hwait).
    exists (recorded w :: stamps), final. simpl. rewrite Hw, Hrun.
    split; [done|]. split; [done|].
    intros [|n] c' t prev Hc Ht Hprev; simpl in *.
    + simplify_eq. split; qlra.
    + by apply (Hwait n).
Qed.

(** X4.  On a fresh limiter with a positive limit no call waits long: each
    admission falls between the moment its call took the lock plus the
    latency and 60.1 seconds after that; and after the calls the stored
    list holds at most [limit + 1] timestamps. *)
Theorem rate_limiter_bounded_wait (limit : Z) (clock : Q) (calls : list call) :
  (1 <= limit)%Z -> Forall call_ok calls ->
  exists stamps final,
    acquire_all limit clock [] calls = Ok (stamps, final) /\
    (length final <= Z.to_nat limit + 1)%nat /\
    forall n c t prev,
      calls !! n = Some c -> stamps !! n = Some t ->
      (clock :: stamps) !! n = Some prev ->
      prev + idle c + over c <= t /\
      t <= prev + idle c + over c + (601 # 10).
Proof.
  intros Hlimit Hcalls.
  apply (acquire_all_bounded limit calls Hlimit Hcalls clock [] []).
  - apply limiter_inv_fresh. lia.
  - constructor.
  - simpl. lia.
Qed.

Lemma rate_limiter_bounded_wait_witness :
  exists stamps final,
    acquire_all 1 0 [] [Call 0 0; Call 5 (1 # 2)] = Ok (stamps, final) /\
    (length final <= Z.to_nat 1 + 1)%nat /\
    forall n c t prev,
      [Call 0 0; Call 5 (1 # 2)] !! n = Some c -> stamps !! n = Some t ->
      (0 :: stamps) !! n = Some prev ->
      prev + idle c + over c <= t /\
      t <= prev + idle c + over c + (601 # 10).
Proof.
  apply (rate_limiter_bounded_wait 1 0 [Call 0 0; Call 5 (1 # 2)]).
  - lia.
  - repeat constructor; simpl; discriminate.
Defined.

End LimiterMore.

(** ** Labels *)

Section LabelProofs.
Import Labels.

Lemma insert_by_score_head (x : explanation) (l : list explanation) :
  head (insert_by_score x l) =
    match head l with
    | Some y =>
        if Qle_bool (number_key y) (number_key x) then Some x else Some y
    | None => Some x
    end.
Proof. destruct l as [|y l]; simpl; [done|]. by destruct (Qle_bool _ _). Qed.

Lemma insertion_head_in (l : list explanation) (z : explanation) :
  head (fold_right insert_by_score [] l) = Some z -> z ∈ l.
Proof.
  revert z. induction l as [|a l IH]; intros z Hz; [done|].
  cbn [fold_right] in Hz. rewrite insert_by_score_head in Hz.
  destruct (head (fold_right insert_by_score [] l)) as [b|].
  - destruct (Qle_bool _ _); simplify_eq; [by left|right; by apply IH].
  - simplify_eq. by left.
Qed.

Lemma scored_below_number (strict : bool) (x y : explanation) :
  scored_below strict x y ->
  if strict then (number_key y < number_key x)%Q
  else (number_key y <= number_key x)%Q.
Proof.
  intros (p & q & Hy & Hx & H). unfold number_key. by rewrite Hy, Hx.
Qed.

(** The head of the sorted list is the first entry with the greatest
    score. *)
Lemma insertion_sorted_head (l : list explanation) (x : explanation) :
  first_best x l -> head (fold_right insert_by_score [] l) = Some x.
Proof.
  intros (before & after & -> & Hbefore & Hafter).
  induction Hbefore as [|y before Hy _ IH].
  - cbn [app fold_right]. rewrite insert_by_score_head.
    destruct (head (fold_right insert_by_score [] after)) as [z|] eqn:Hz;
      [|done].
    apply insertion_head_in in Hz.
    rewrite Forall_forall in Hafter.
    apply Hafter, (scored_below_number false) in Hz.
    by rewrite (proj2 (Qle_bool_iff _ _) Hz).
  - cbn [app fold_right]. rewrite insert_by_score_head.
    rewrite IH. apply (scored_below_number true) in Hy.
    destruct (Qle_bool (number_key x) (number_key y)) eqn:Hle; [|done].
    apply Qle_bool_iff in Hle. qlra.
Qed.

(** A list with a best entry can be sorted: the sort raises on no key. *)
Lemma first_best_comparable (l : list explanation) (x : explanation) :
  first_best x l -> comparable l = true.
Proof.
  intros (before & after & -> & Hbefore & Hafter). unfold comparable.
  destruct before as [|y before], after as [|z after]; [done|..];
    apply orb_true_iff; right; apply forallb_forall; intros a Ha;
    apply list_elem_of_In in Ha.
  - inversion Hafter as [|? ? (p & q & Hz & Hx & _) Hrest]; subst.
    apply elem_of_cons in Ha as [->|Ha]; [by rewrite Hx|].
    apply elem_of_cons in Ha as [->|Ha]; [by rewrite Hz|].
    rewrite Forall_forall in Hrest.
    destruct (Hrest a Ha) as (p' & q' & -> & _). done.
  - inversion Hbefore as [|? ? (p & q & Hy & Hx & _) Hrest]; subst.
    apply elem_of_app in Ha as [Ha|Ha].
    + apply elem_of_cons in Ha as [->|Ha]; [by rewrite Hy|].
      rewrite Forall_forall in Hrest.
      destruct (Hrest a Ha) as (p' & q' & -> & _). done.
    + apply list_elem_of_singleton in Ha as ->. by rewrite Hx.
  - inversion Hbefore as [|? ? (p & q & Hy & Hx & _) Hrest]; subst.
    apply elem_of_app in Ha as [Ha|Ha].
    + apply elem_of_cons in Ha as [->|Ha]; [by rewrite Hy|].
      rewrite Forall_forall in Hrest.
      destruct (Hrest a Ha) as (p' & q' & -> & _). done.
    + apply elem_of_cons in Ha as [->|Ha]; [by rewrite Hx|].
      rewrite Forall_forall in Hafter.
      destruct (Hafter a Ha) as (p' & q' & -> & _). done.
Qed.

Lemma sorted_by_score_best (l : list explanation) (x : explanation) :
  first_best x l ->
  exists rest, sorted_by_score l = Ok (x :: rest).
Proof.
  intros Hbest. unfold sorted_by_score.
  rewrite (first_best_comparable l x Hbest).
  apply insertion_sorted_head in Hbest.
  destruct (fold_right insert_by_score [] l) as [|best rest]; [done|].
  cbn [head] in Hbest. simplify_eq. by exists rest.
Qed.

Lemma first_best_nonempty (l : list explanation) (x : explanation) :
  first_best x l -> exists y l', l = y :: l'.
Proof. intros ([|y before] & after & -> & _); by eexists _, _. Qed.

(** X5.  The label is the description of the best explanation: the one
    with the greatest score, the earliest of them on a tie, provided its
    description is present and not empty. *)
Theorem extract_label_best_explanation (data : feature_data)
    (l : list explanation) (x : explanation) (d : string) :
  explanations data = Present l ->
  first_best x l ->
  description x = Present d -> d <> ""%string ->
  extract_label data = Ok (Some d).
Proof.
  intros Hl Hbest Hd Hne. unfold extract_label. rewrite Hl. cbn [list_of].
  destruct (first_best_nonempty l x Hbest) as (y & l' & ->).
  destruct (sorted_by_score_best _ x Hbest) as [rest ->].
  rewrite Hd. by destruct d.
Qed.

(** X6.  Only the best explanation is looked at: when its description is
    absent, [null] or empty, the descriptions of all other explanations are
    ignored and the label is the one the feature would get without
    explanations. *)
Theorem extract_label_best_without_description (data : feature_data)
    (l : list explanation) (x : explanation) :
  explanations data = Present l ->
  first_best x l ->
  description x = Absent \/ description x = Null \/
    description x = Present ""%string ->
  extract_label data = extract_label (FeatureData Absent (topLogits data)).
Proof.
  intros Hl Hbest Hd. unfold extract_label. rewrite Hl.
  cbn [list_of explanations].
  destruct (first_best_nonempty l x Hbest) as (y & l' & ->).
  destruct (sorted_by_score_best _ x Hbest) as [rest ->].
  by destruct Hd as [-> | [-> | ->]].
Qed.

Lemma top_tokens_label_cases (data : feature_data) :
  match top_tokens_label data with
  | Ok (Some label) =>
      label <> ""%string /\ list_of (topLogits data) <> [] /\
      Forall (fun t => token t <> Null) (take 5 (list_of (topLogits data)))
  | Ok None => list_of (topLogits data) = []
  | Raise e =>
      e = TypeError /\
      Exists (fun t => token t = Null) (take 5 (list_of (topLogits data)))
  end.
Proof.
  unfold top_tokens_label.
  destruct (list_of (topLogits data)) as [|t logits]; [done|].
  generalize (take 5 (t :: logits)). intros tokens.
  destruct (mapM token_text tokens) as [texts|] eqn:Htexts.
  - split; [done|]. split; [done|].
    apply mapM_Some in Htexts. induction Htexts as [|a b ? ? Hab _ IH];
      constructor; [|done].
    unfold token_text in Hab. by destruct (token a).
  - split; [done|]. apply mapM_None in Htexts.
    induction tokens as [|a tokens IH]; [by inversion Htexts|].
    inversion Htexts as [? ? Ha|? ? Hrest]; subst.
    + left. unfold token_text in Ha. by destruct (token a).
    + right. by apply IH.
Qed.

(** X7.  [extract_label] raises nothing but [TypeError], and raises it in
    two cases only: the sort compares a score that is [null] (there are at
    least two explanations and one of them has such a score), or the
    fallback joins a token that is [null] (one of the first five top
    logits).  A label it returns is never the empty string.  When neither
    case applies and there is a top logit, it returns a label. *)
Theorem extract_label_nonempty (data : feature_data) :
  (forall label, extract_label data = Ok (Some label) -> label <> ""%string) /\
  (forall e, extract_label data = Raise e ->
     e = TypeError /\
     (comparable (list_of (explanations data)) = false \/
      Exists (fun t => token t = Null)
        (take 5 (list_of (topLogits data))))) /\
  (comparable (list_of (explanations data)) = true ->
   Forall (fun t => token t <> Null) (take 5 (list_of (topLogits data))) ->
   list_of (topLogits data) <> [] ->
   exists label, extract_label data = Ok (Some label)).
Proof.
  pose proof (top_tokens_label_cases data) as Hfallback.
  unfold extract_label, sorted_by_score.
  destruct (list_of (explanations data)) as [|y l].
  { destruct (top_tokens_label data) as [[label|]|e].
    - destruct Hfallback as (Hne & _). split; [by intros ? [= <-]|].
      split; [done|]. by eexists.
    - split; [done|]. split; [done|]. by intros _ _ [].
    - destruct Hfallback as [-> Hnull]. split; [done|]. split.
      + intros e [= <-]. split; [done|by right].
      + intros _ Hall _. exfalso. clear -Hall Hnull.
        induction Hnull as [t ? Ht|t ? _ IH];
          inversion Hall; subst; [done|by apply IH]. }
  destruct (comparable (y :: l)).
  2: { split; [done|]. split; [|done]. intros e [= <-]. split; [done|by left]. }
  destruct (fold_right insert_by_score [] (y :: l)) as [|best rest].
  - destruct (top_tokens_label data) as [[label|]|e].
    + destruct Hfallback as (Hne & _). split; [by intros ? [= <-]|].
      split; [done|]. by eexists.
    + split; [done|]. split; [done|]. by intros _ _ [].
    + destruct Hfallback as [-> Hnull]. split; [done|]. split.
      * intros e [= <-]. split; [done|by right].
      * intros _ Hall _. exfalso. clear -Hall Hnull.
        induction Hnull as [t ? Ht|t ? _ IH];
          inversion Hall; subst; [done|by apply IH].
  - destruct (description best) as [| |[|c d]]; cbn [truthy].
    4: { split; [by intros ? [= <-]|]. split; [done|]. by eexists. }
    all: destruct (top_tokens_label data) as [[label|]|e];
      [ destruct Hfallback as (Hne & _); split; [by intros ? [= <-]|];
        split; [done|]; by eexists
      | split; [done|]; split; [done|]; by intros _ _ []
      | destruct Hfallback as [-> Hnull]; split; [done|]; split;
        [ intros e [= <-]; split; [done|by right]
        | intros _ Hall _; exfalso; clear -Hall Hnull;
          induction Hnull as [t ? Ht|t ? _ IH];
            inversion Hall; subst; [done|by apply IH] ] ].
Qed.

Lemma extract_label_best_explanation_witness :
  extract_label
    (FeatureData
       (Present [Explanation (Present 0.2%Q) (Present "weak"%string);
                 Explanation (Present 0.9%Q) (Present "cats"%string);
                 Explanation (Present 0.9%Q) (Present "felines"%string)])
       Absent) = Ok (Some "cats"%string).
Proof.
  apply (extract_label_best_explanation _
           [Explanation (Present 0.2%Q) (Present "weak"%string);
            Explanation (Present 0.9%Q) (Present "cats"%string);
            Explanation (Present 0.9%Q) (Present "felines"%string)]
           (Explanation (Present 0.9%Q) (Present "cats"%string))
           "cats"%string).
  - reflexivity.
  - exists [Explanation (Present 0.2%Q) (Present "weak"%string)],
      [Explanation (Present 0.9%Q) (Present "felines"%string)].
    split; [reflexivity|].
    split; (constructor; [|constructor]); eexists _, _;
      (split; [reflexivity|]); (split; [reflexivity|]);
      first [reflexivity|discriminate].
  - reflexivity.
  - discriminate.
Defined.

Lemma extract_label_best_without_description_witness :
  extract_label
    (FeatureData
       (Present [Explanation (Present 0.9%Q) Null;
                 Explanation (Present 0.5%Q) (Present "dogs"%string)])
       (Present [Logit (Present "a"%string); Logit Absent])) =
  extract_label
    (FeatureData Absent (Present [Logit (Present "a"%string); Logit Absent])).
Proof.
  apply (extract_label_best_without_description
           (FeatureData
              (Present [Explanation (Present 0.9%Q) Null;
                        Explanation (Present 0.5%Q) (Present "dogs"%string)])
              (Present [Logit (Present "a"%string); Logit Absent]))
           [Explanation (Present 0.9%Q) Null;
            Explanation (Present 0.5%Q) (Present "dogs"%string)]
           (Explanation (Present 0.9%Q) Null)).
  - reflexivity.
  - exists [], [Explanation (Present 0.5%Q) (Present "dogs"%string)].
    split; [reflexivity|]. split; [constructor|].
    constructor; [|constructor]. eexists _, _.
    split; [reflexivity|]. split; [reflexivity|]. discriminate.
  - right. by left.
Defined.

(** The two ways to a [TypeError]: a [null] token in the fallback, and a
    [null] score among two explanations. *)
Lemma extract_label_null_token :
  extract_label (FeatureData Absent (Present [Logit Null])) = Raise TypeError.
Proof. reflexivity. Qed.

Lemma extract_label_null_score :
  extract_label
    (FeatureData
       (Present [Explanation Null (Present "cats"%string);
                 Explanation (Present 0.5%Q) (Present "dogs"%string)])
       Absent) = Raise TypeError.
Proof. reflexivity. Qed.

End LabelProofs.

(** ** More on the edges *)

Section GraphMore.
Import Umap.
Local Open Scope R_scope.

Lemma elem_of_insert_nearest (p q : R * nat) (l : list (R * nat)) :
  p ∈ insert_nearest q l -> p = q \/ p ∈ l.
Proof.
  induction l as [|a l IH]; simpl.
  - intros ->%list_elem_of_singleton. by left.
  - destruct (Rleb _ _).
    + intros [->|H]%elem_of_cons; [by left|by right].
    + intros [->|H]%elem_of_cons; [right; by left|].
      destruct (IH H) as [->|]; [by left|right; by right].
Qed.

Lemma elem_of_sort_nearest (p : R * nat) (l : list (R * nat)) :
  p ∈ sort_nearest l -> p ∈ l.
Proof.
  induction l as [|a l IH]; [done|]. cbn [sort_nearest fold_right].
  intros [->|H]%elem_of_insert_nearest; [by left|right; by apply IH].
Qed.

(** Every entry of a row of the neighbour search names a fitted vector and
    carries its cosine distance to the query. *)
Lemma kneighbors_row_entry (n : nat) (fit : list vector) (x : vector)
    (d : R) (j : nat) :
  (d, j) ∈ kneighbors_row n fit x ->
  exists y, fit !! j = Some y /\ d = cosine_distance x y.
Proof.
  unfold kneighbors_row. intros (i & Hi & _)%elem_of_take.
  apply list_elem_of_lookup_2, elem_of_sort_nearest in Hi.
  apply elem_of_lookup_imap_1 in Hi as (j' & y & [= -> ->] & Hy). eauto.
Qed.

(** What the two arrays of the neighbour search hold at one place. *)
Lemma kneighbors_lookup (n : nat) (decoder_vectors : list vector)
    (i j_idx j : nat) (similarity : R) :
  let rows := map (kneighbors_row n decoder_vectors) decoder_vectors in
  map (map snd) rows !! i ≫= (.!! j_idx) = Some j ->
  map (map (fun d => 1 - d)) (map (map fst) rows) !! i ≫= (.!! j_idx)
    = Some similarity ->
  exists u v,
    decoder_vectors !! i = Some u /\ decoder_vectors !! j = Some v /\
    similarity = 1 - cosine_distance u v.
Proof.
  intros rows. unfold rows. rewrite !list_lookup_fmap.
  destruct (decoder_vectors !! i) as [u|] eqn:Hu; [|done].
  cbn [fmap option_fmap option_map mbind option_bind].
  rewrite !list_lookup_fmap.
  destruct (kneighbors_row n decoder_vectors u !! j_idx) as [[d j']|] eqn:Hrow;
    [|done].
  cbn [fmap option_fmap option_map fst snd]. intros [= <-] [= <-].
  apply list_elem_of_lookup_2, kneighbors_row_entry in Hrow as (v & Hv & ->).
  eauto.
Qed.

(** The edges one row adds: appended after the ones already there, all from
    the row's own index, at most one per slot looked at. *)
Lemma row_edges (params : EdgeParams) (indices : list (list nat))
    (similarities : list (list R)) (i : nat) (slots : list nat)
    (st st' : builder) :
  for_each (visit params indices similarities i) slots st = Ok st' ->
  exists new,
    st'.1 = st.1 ++ new /\
    Forall (fun e => source e = i) new /\
    (length new <= length slots)%nat.
Proof.
  revert st. induction slots as [|j_idx slots IH]; intros st Hrun.
  - simpl in Hrun. simplify_eq. exists []. by rewrite app_nil_r.
  - cbn [for_each] in Hrun.
    destruct (visit params indices similarities i j_idx st) as [st1|] eqn:Hvisit;
      [|done].
    destruct (IH _ Hrun) as (new & Heq & Hsrc & Hlen).
    assert (Hstep : st1.1 = st.1 \/
                    exists j s, st1.1 = st.1 ++ [Edge i j s]).
    { unfold visit in Hvisit.
      destruct (indices !! i ≫= _) as [j|]; [|done].
      destruct (similarities !! i ≫= _) as [s|]; [|done].
      destruct (Rltb _ _); [simplify_eq; by left|].
      destruct (deduplicate params).
      - destruct (decide _); simplify_eq; [by left|right; eauto].
      - simplify_eq. right; eauto. }
    destruct Hstep as [Hsame|(j & s & Hadd)].
    + exists new. rewrite Heq, Hsame. split; [done|]. split; [done|]. simpl. lia.
    + exists (Edge i j s :: new). rewrite Heq, Hadd, <- app_assoc.
      split; [done|]. split; [by constructor|]. simpl. lia.
Qed.

(** A loop over [seq start n] with an invariant that follows the index. *)
Lemma for_each_seq_inv {S : Type} (P : nat -> S -> Prop)
    (body : nat -> S -> result S) (n start : nat) (st st' : S) :
  (forall i s s', (start <= i < start + n)%nat -> P i s -> body i s = Ok s' ->
     P (Datatypes.S i) s') ->
  P start st ->
  for_each body (seq start n) st = Ok st' ->
  P (start + n)%nat st'.
Proof.
  revert start st. induction n as [|n IH]; intros start st Hbody Hst Hrun.
  - simpl in Hrun. simplify_eq. by rewrite Nat.add_0_r.
  - cbn [seq for_each] in Hrun.
    destruct (body start st) as [s|] eqn:Hs; [|done].
    rewrite <- Nat.add_succ_comm. apply (IH (Datatypes.S start) s); [| |done].
    + intros i s1 s2 Hi. apply Hbody. lia.
    + apply (Hbody start st); [lia|done|done].
Qed.

(** Two loops over the same list, related step by step. *)
Lemma for_each_rel {A S1 S2 : Type} (R : S1 -> S2 -> Prop)
    (body1 : A -> S1 -> result S1) (body2 : A -> S2 -> result S2)
    (l : list A) (s1 s1' : S1) (s2 s2' : S2) :
  (forall a t1 t2 t1' t2', R t1 t2 -> body1 a t1 = Ok t1' ->
     body2 a t2 = Ok t2' -> R t1' t2') ->
  R s1 s2 ->
  for_each body1 l s1 = Ok s1' -> for_each body2 l s2 = Ok s2' ->
  R s1' s2'.
Proof.
  intros Hbody. revert s1 s2. induction l as [|a l IH]; intros s1 s2 HR H1 H2.
  - simpl in *. by simplify_eq.
  - simpl in *.
    destruct (body1 a s1) as [t1|] eqn:E1; [|done].
    destruct (body2 a s2) as [t2|] eqn:E2; [|done].
    eapply IH; [|done|done]. eauto.
Qed.

(** [compute_edges] in terms of [build_edges], when it returns. *)
Lemma compute_edges_inv (decoder_vectors : list vector)
    (params : option EdgeParams) (edges : list edge) :
  compute_edges decoder_vectors params = Ok edges ->
  let params := default DEFAULT_EDGE_PARAMS params in
  let rows :=
    map (kneighbors_row (Z.to_nat (top_k params + 1)) decoder_vectors)
      decoder_vectors in
  exists seen,
    build_edges params (length decoder_vectors) (map (map snd) rows)
      (map (map (fun d => 1 - d)) (map (map fst) rows)) = Ok (edges, seen).
Proof.
  unfold compute_edges, kneighbors. intros Hrun.
  destruct (_ <=? 0)%Z; [done|]. destruct (_ <? _)%Z; [done|].
  destruct (build_edges _ _ _ _) as [[edges' seen]|]; [|done].
  simplify_eq. by exists seen.
Qed.

(** X11.  Every edge joins two vectors of the input and weighs their cosine
    similarity (one minus their cosine distance). *)
Theorem compute_edges_weights (decoder_vectors : list vector)
    (params : option EdgeParams) (edges : list edge) :
  compute_edges decoder_vectors params = Ok edges ->
  Forall
    (fun e =>
       exists u v,
         decoder_vectors !! source e = Some u /\
         decoder_vectors !! target e = Some v /\
         weight e = 1 - cosine_distance u v)
    edges.
Proof.
  intros Hrun. apply compute_edges_inv in Hrun as [seen Hbuild].
  unfold build_edges in Hbuild.
  set (P := fun st : builder =>
    Forall
      (fun e => exists u v,
         decoder_vectors !! source e = Some u /\
         decoder_vectors !! target e = Some v /\
         weight e = 1 - cosine_distance u v)
      st.1).
  change (P (edges, seen)).
  revert Hbuild. apply (for_each_inv P); [|constructor].
  intros i s s' Hs. apply (for_each_inv P); [|done].
  intros j_idx t t' Ht. unfold P, visit.
  destruct (_ !! i ≫= _) as [j|] eqn:Hj; [|done].
  destruct (_ !! i ≫= _) as [similarity|] eqn:Hsim in |- *; [|done].
  pose proof (kneighbors_lookup _ _ _ _ _ _ Hj Hsim) as Hedge.
  assert (Hadd : Forall
            (fun e => exists u v,
               decoder_vectors !! source e = Some u /\
               decoder_vectors !! target e = Some v /\
               weight e = 1 - cosine_distance u v)
            (t.1 ++ [Edge i j similarity])).
  { apply Forall_app. split; [done|]. by apply Forall_singleton. }
  destruct (Rltb _ _); [by intros [= <-]|].
  destruct (deduplicate _); [destruct (decide _)|]; by intros [= <-].
Qed.

(** X12.  The edges come out grouped by source in ascending order, every
    source is an index of the input, and for [N] input vectors there are at
    most [N * top_k] edges in all. *)
Theorem compute_edges_shape (decoder_vectors : list vector)
    (params : option EdgeParams) (edges : list edge) :
  compute_edges decoder_vectors params = Ok edges ->
  let k := Z.to_nat (top_k (default DEFAULT_EDGE_PARAMS params)) in
  (length edges <= length decoder_vectors * k)%nat /\
  Forall (fun e => (source e < length decoder_vectors)%nat) edges /\
  StronglySorted (fun e1 e2 => (source e1 <= source e2)%nat) edges.
Proof.
  intros Hrun k. apply compute_edges_inv in Hrun as [seen Hbuild].
  unfold build_edges in Hbuild. fold k in Hbuild.
  set (P := fun (i : nat) (st : builder) =>
    (length st.1 <= i * k)%nat /\
    Forall (fun e => (source e < i)%nat) st.1 /\
    StronglySorted (fun e1 e2 => (source e1 <= source e2)%nat) st.1).
  change (P (0 + length decoder_vectors)%nat (edges, seen)).
  revert Hbuild. apply (for_each_seq_inv P); unfold P.
  - intros i s s' _ (Hlen & Hsrc & Hsorted) Hrow.
    apply row_edges in Hrow as (new & -> & Hnew & Hcount).
    rewrite length_seq in Hcount. split; [|split].
    + rewrite length_app. lia.
    + apply Forall_app. split.
      * eapply List.Forall_impl; [|exact Hsrc]. intros e He. simpl in He. lia.
      * eapply List.Forall_impl; [|exact Hnew]. intros e He. simpl in He. lia.
    + apply StronglySorted_app_2; [|done|].
      * intros e1 e2 H1 H2. rewrite List.Forall_forall in Hsrc, Hnew.
        apply list_elem_of_In, Hsrc in H1. apply list_elem_of_In, Hnew in H2. lia.
      * clear -Hnew. induction Hnew as [|e new He Hrest IH]; constructor; [done|].
        eapply List.Forall_impl; [|exact Hrest]. intros e' He'. simpl in He'. lia.
  - simpl. repeat split; [lia|constructor|constructor].
Qed.

(** X13.  Deduplication only drops edges: with the same [top_k] and
    threshold, the deduplicated edges are a sublist of the edges built
    without deduplication, and every edge built without it has its
    unordered pair among the deduplicated ones. *)
Theorem compute_edges_dedupe_sublist (decoder_vectors : list vector)
    (k : Z) (threshold : R) (deduped all : list edge) :
  compute_edges decoder_vectors
    (Some {| top_k := k; min_similarity := threshold; deduplicate := true |})
    = Ok deduped ->
  compute_edges decoder_vectors
    (Some {| top_k := k; min_similarity := threshold; deduplicate := false |})
    = Ok all ->
  deduped `sublist_of` all /\
  forall e, e ∈ all -> exists e', e' ∈ deduped /\ unordered e' = unordered e.
Proof.
  intros Hd Hn.
  apply compute_edges_inv in Hd as [seen_d Hd].
  apply compute_edges_inv in Hn as [seen_n Hn].
  cbn [default from_option id top_k] in Hd, Hn.
  change (Datatypes.id ?x) with x in Hd, Hn. cbn [top_k] in Hd, Hn.
  unfold build_edges in Hd, Hn. cbn [top_k] in Hd, Hn.
  set (R := fun st_d st_n : builder =>
    st_d.1 `sublist_of` st_n.1 /\
    (forall e, e ∈ st_n.1 -> unordered e ∈ st_d.2) /\
    (forall pair, pair ∈ st_d.2 -> exists e', e' ∈ st_d.1 /\ unordered e' = pair)).
  assert (HR : R (deduped, seen_d) (all, seen_n)).
  { revert Hd Hn. apply for_each_rel.
    - intros i s1 s2 s1' s2' Hs. apply for_each_rel; [|done].
      intros j_idx t1 t2 t1' t2' (Hsub & Hseen & Hrep). unfold visit.
      destruct (_ !! i ≫= _) as [j|]; [|done].
      destruct (_ !! i ≫= _) as [similarity|]; [|done].
      cbn [min_similarity deduplicate].
      destruct (Rltb _ _); [intros [= <-] [= <-]; by split|].
      destruct (decide _) as [Hold|Hnew]; intros [= <-] [= <-];
        unfold R; cbn [fst snd].
      + split; [by apply sublist_inserts_r|]. split; [|done].
        intros e [He|He%list_elem_of_singleton]%elem_of_app; [auto|by subst].
      + split; [by apply sublist_app|]. split.
        * intros e [He|He%list_elem_of_singleton]%elem_of_app.
          -- apply elem_of_union_r. auto.
          -- subst. apply elem_of_union_l, elem_of_singleton. reflexivity.
        * intros pair [Hpair%elem_of_singleton|Hpair]%elem_of_union.
          -- subst. exists (Edge i j similarity). split; [|reflexivity].
             apply elem_of_app. right. by apply list_elem_of_singleton.
          -- destruct (Hrep pair Hpair) as (e' & He' & Hpair').
             exists e'. split; [|done]. apply elem_of_app. by left.
    - split; [done|]. split; [intros e He; by apply elem_of_nil in He|].
      intros pair Hpair. by apply elem_of_empty in Hpair. }
  destruct HR as (Hsub & Hseen & Hrep). split; [done|].
  intros e He. apply Hrep, Hseen, He.
Qed.

Lemma compute_edges_weights_witness :
  exists edges,
    compute_edges [[1; 0]; [0; 1]]
      (Some {| top_k := 1; min_similarity := 0; deduplicate := true |}) =
      Ok edges /\
    Forall
      (fun e =>
         exists u v,
           [[1; 0]; [0; 1]] !! source e = Some u /\
           [[1; 0]; [0; 1]] !! target e = Some v /\
           weight e = 1 - cosine_distance u v)
      edges.
Proof.
  destruct (compute_edges_returns [[1; 0]; [0; 1]]
              (Some {| top_k := 1; min_similarity := 0; deduplicate := true |}))
    as [edges Hedges]; [simpl; lia..|].
  exists edges. split; [exact Hedges|].
  exact (compute_edges_weights _ _ _ Hedges).
Defined.

Lemma compute_edges_shape_witness :
  exists edges,
    compute_edges [[1; 0]; [0; 1]; [1; 1]]
      (Some {| top_k := 2; min_similarity := 0; deduplicate := false |}) =
      Ok edges /\
    (length edges <= 3 * 2)%nat /\
    Forall (fun e => (source e < 3)%nat) edges /\
    StronglySorted (fun e1 e2 => (source e1 <= source e2)%nat) edges.
Proof.
  destruct (compute_edges_returns [[1; 0]; [0; 1]; [1; 1]]
              (Some {| top_k := 2; min_similarity := 0; deduplicate := false |}))
    as [edges Hedges]; [simpl; lia..|].
  exists edges. split; [exact Hedges|].
  exact (compute_edges_shape _ _ _ Hedges).
Defined.

Lemma compute_edges_dedupe_sublist_witness :
  exists deduped all,
    compute_edges [[1; 0]; [0; 1]]
      (Some {| top_k := 1; min_similarity := 0; deduplicate := true |}) =
      Ok deduped /\
    compute_edges [[1; 0]; [0; 1]]
      (Some {| top_k := 1; min_similarity := 0; deduplicate := false |}) =
      Ok all /\
    deduped `sublist_of` all /\
    forall e, e ∈ all -> exists e', e' ∈ deduped /\ unordered e' = unordered e.
Proof.
  destruct (compute_edges_returns [[1; 0]; [0; 1]]
              (Some {| top_k := 1; min_similarity := 0; deduplicate := true |}))
    as [deduped Hd]; [simpl; lia..|].
  destruct (compute_edges_returns [[1; 0]; [0; 1]]
              (Some {| top_k := 1; min_similarity := 0; deduplicate := false |}))
    as [all Hn]; [simpl; lia..|].
  exists deduped, all. split; [exact Hd|]. split; [exact Hn|].
  exact (compute_edges_dedupe_sublist _ _ _ _ _ Hd Hn).
Defined.

End GraphMore.

(** ** More on the pipeline: caches, exports, reruns *)

Section StepProofs.
Import Umap Config Pipeline Runner Scenario Footprint Downloads MoreScenarios.

Ltac unfold_M :=
  unfold compute_umap_positions, save_decoder_vectors, save_positions,
    save_edges, write_layer_json, write_manifest, call_out, lift, get_fs,
    set_fs, raise, mbind, M_bind, bind, mret, M_ret, ret in *.

Lemma exists_in_is_Some `{Countable K} {V : Type} (m : gmap K V) (k : K) :
  exists_in m k = true <-> is_Some (m !! k).
Proof. unfold exists_in. apply bool_decide_eq_true. Qed.

Lemma exists_in_None `{Countable K} {V : Type} (m : gmap K V) (k : K) :
  exists_in m k = false <-> m !! k = None.
Proof.
  unfold exists_in. rewrite bool_decide_eq_false, eq_None_not_Some. done.
Qed.

(** *** [download_decoder_vectors] *)

Lemma download_decoder_vectors_ok (env : environment) (model_id : string)
    (layer : Z) (w w' : world) (v : list vector) :
  download_decoder_vectors env model_id layer w = (Ok v, w') ->
  (exists model_config,
     MODELS !! model_id = Some model_config /\
     (0 <= layer < num_layers model_config)%Z) /\
  decoder_vectors_npy (fs w') !! (model_id, layer) = Some v /\
  (w' = w \/
   decoder_vectors_npy (fs w) !! (model_id, layer) = None /\
   exists raw,
     hf_decoder_weights env model_id layer = Ok raw /\
     v = l2_normalize raw /\
     w' =
       World
         (Files (<[(model_id, layer) := v]> (decoder_vectors_npy (fs w)))
            (positions_npy (fs w)) (edges_npy (fs w)) (labels_json (fs w))
            (layer_json (fs w)) (manifest_json (fs w))
            (output_dirs (fs w)))
         (calls w ++ [HfDownload model_id layer])).
Proof.
  unfold download_decoder_vectors.
  destruct (MODELS !! model_id) as [model_config|] eqn:Hmodel; [|done].
  destruct (Z.ltb_spec layer 0); [done|].
  destruct (Z.leb_spec (num_layers model_config) layer); [done|].
  cbn [orb]. unfold_M.
  destruct (decoder_vectors_npy (fs w) !! (model_id, layer)) as [cached|]
    eqn:Hcached.
  - intros [= <- <-]. split; [exists model_config; split; [done|lia]|].
    split; [done|]. by left.
  - cbn [fs calls].
    destruct (hf_decoder_weights env model_id layer) as [raw|e]; [|done].
    intros [= <- <-]. split; [exists model_config; split; [done|lia]|].
    cbn [fs decoder_vectors_npy]. split; [by rewrite lookup_insert_eq|].
    right. split; [done|]. by exists raw.
Qed.

Lemma download_decoder_vectors_raise (env : environment) (model_id : string)
    (layer : Z) (w w' : world) (e : exn) :
  download_decoder_vectors env model_id layer w = (Raise e, w') ->
  fs w' = fs w /\
  (calls w' = calls w \/ calls w' = calls w ++ [HfDownload model_id layer]).
Proof.
  unfold download_decoder_vectors.
  destruct (MODELS !! model_id) as [model_config|];
    [|unfold_M; intros [= <- <-]; split; [done|by left]].
  destruct (_ || _); [unfold_M; intros [= <- <-]; split; [done|by left]|].
  unfold_M.
  destruct (decoder_vectors_npy (fs w) !! (model_id, layer)); [done|].
  cbn [fs calls].
  destruct (hf_decoder_weights env model_id layer) as [raw|e']; [done|].
  intros [= <- <-]. split; [done|by right].
Qed.

(** *** [compute_layer_positions] *)

Lemma compute_layer_positions_ok (env : environment) (model_id : string)
    (layer : Z) (force_recompute : bool) (w w' : world)
    (positions : list position) (edges : list edge) :
  compute_layer_positions env model_id layer force_recompute w =
    (Ok (positions, edges), w') ->
  positions_npy (fs w') !! (model_id, layer) = Some positions /\
  edges_npy (fs w') !! (model_id, layer) = Some edges /\
  (w' = w /\ force_recompute = false \/
   exists decoder_vectors embedded,
     decoder_vectors_npy (fs w) !! (model_id, layer) = Some decoder_vectors /\
     umap_fit_transform env decoder_vectors = Ok embedded /\
     normalize_positions embedded (position_range DEFAULT_OUTPUT_CONFIG) =
       Ok positions /\
     compute_edges decoder_vectors None = Ok edges /\
     w' =
       World
         (Files (decoder_vectors_npy (fs w))
            (<[(model_id, layer) := positions]> (positions_npy (fs w)))
            (<[(model_id, layer) := edges]> (edges_npy (fs w)))
            (labels_json (fs w)) (layer_json (fs w)) (manifest_json (fs w))
            (output_dirs (fs w)))
         (calls w ++ [UmapFit model_id layer])).
Proof.
  unfold compute_layer_positions. unfold_M.
  destruct force_recompute;
    destruct (positions_npy (fs w) !! (model_id, layer)) as [cached|] eqn:Hp;
    destruct (edges_npy (fs w) !! (model_id, layer)) as [cached_edges|] eqn:He;
    try (intros [= <- <- <-]; split; [done|]; split; [done|]; by left);
    (destruct (decoder_vectors_npy (fs w) !! (model_id, layer))
       as [decoder_vectors|] eqn:Hv; [|done]);
    cbn [fs calls];
    (destruct (umap_fit_transform env decoder_vectors) as [embedded|] eqn:Hu;
       [|done]);
    (destruct (normalize_positions embedded _) as [normalized|] eqn:Hn;
       [|done]);
    (destruct (compute_edges decoder_vectors None) as [computed|] eqn:Hc;
       [|done]);
    intros [= <- <- <-]; cbn; rewrite !lookup_insert_eq;
    (split; [done|]); (split; [done|]); right;
    exists decoder_vectors, embedded; done.
Qed.

Lemma compute_layer_positions_raise (env : environment) (model_id : string)
    (layer : Z) (force_recompute : bool) (w w' : world) (e : exn) :
  compute_layer_positions env model_id layer force_recompute w =
    (Raise e, w') ->
  fs w' = fs w /\
  (calls w' = calls w \/ calls w' = calls w ++ [UmapFit model_id layer]).
Proof.
  unfold compute_layer_positions. unfold_M.
  destruct force_recompute;
    destruct (positions_npy (fs w) !! (model_id, layer)) as [cached|];
    destruct (edges_npy (fs w) !! (model_id, layer)) as [cached_edges|];
    try done;
    (destruct (decoder_vectors_npy (fs w) !! (model_id, layer))
       as [decoder_vectors|];
       [|intros [= <- <-]; split; [done|by left]]);
    cbn [fs calls];
    (destruct (umap_fit_transform env decoder_vectors) as [embedded|];
       [|intros [= <- <-]; split; [done|by right]]);
    (destruct (normalize_positions embedded _) as [normalized|];
       [|intros [= <- <-]; split; [done|by right]]);
    (destruct (compute_edges decoder_vectors None) as [computed|];
       [|intros [= <- <-]; split; [done|by right]]);
    done.
Qed.

(** *** [export_layer] and [export_manifest] *)

Lemma with_output_dir_exists (model_id : string) (f : files) :
  model_id ∈ output_dirs f -> with_output_dir model_id f = f.
Proof.
  intros Hin. destruct f as [a b c d e g dirs]. unfold with_output_dir.
  cbn in *. f_equal. apply leibniz_equiv. intros x.
  rewrite elem_of_union, elem_of_singleton. split; [|by right].
  intros [->|]; done.
Qed.

Lemma export_layer_ok (env : environment) (model_id : string) (layer : Z)
    (output_config : OutputConfig) (force_reexport : bool) (w w' : world)
    (path : string * Z * bool) :
  export_layer env model_id layer output_config force_reexport w =
    (Ok path, w') ->
  path = (model_id, layer, compress output_config) /\
  (w' = World (with_output_dir model_id (fs w)) (calls w) /\
   is_Some (layer_json (fs w) !! path) /\ force_reexport = false \/
   exists positions,
     positions_npy (fs w) !! (model_id, layer) = Some positions /\
     positions <> [] /\
     is_Some (MODELS !! model_id) /\
     (force_reexport = true \/ layer_json (fs w) !! path = None) /\
     w' =
       World
         (Files (decoder_vectors_npy (fs w)) (positions_npy (fs w))
            (edges_npy (fs w)) (labels_json (fs w))
            (<[path :=
                 layer_data_of env positions
                   (default [] (edges_npy (fs w) !! (model_id, layer)))
                   (default ∅ (labels_json (fs w) !! (model_id, layer)))]>
               (layer_json (fs w)))
            (manifest_json (fs w))
            ({[ model_id ]} ∪ output_dirs (fs w)))
         (calls w)).
Proof.
  unfold export_layer, make_output_dir, load_cached_data, build_layer_json.
  unfold_M. cbn [fs calls with_output_dir layer_json positions_npy edges_npy
    labels_json decoder_vectors_npy manifest_json output_dirs].
  destruct (exists_in _ _) eqn:Hexists; destruct force_reexport;
    cbn [negb andb fs calls with_output_dir layer_json positions_npy edges_npy
      labels_json decoder_vectors_npy manifest_json output_dirs].
  2: { intros [= <- <-]. split; [done|]. left.
       apply exists_in_is_Some in Hexists. split; [done|]. split; done. }
  all: destruct (positions_npy (fs w) !! (model_id, layer))
         as [positions|] eqn:Hp; [|done];
       destruct (MODELS !! model_id) eqn:Hmodel; [|done];
       destruct positions as [|p positions]; [done|];
       cbn [fs calls]; intros [= <- <-]; split; [done|]; right;
       eexists; split; [done|]; split; [done|]; split; [done|];
       split; [|done].
  - by left.
  - by left.
  - right. by apply exists_in_None in Hexists.
Qed.

Lemma export_layer_raise (env : environment) (model_id : string) (layer : Z)
    (output_config : OutputConfig) (force_reexport : bool) (w w' : world)
    (e : exn) :
  export_layer env model_id layer output_config force_reexport w =
    (Raise e, w') ->
  w' = World (with_output_dir model_id (fs w)) (calls w) /\
  (positions_npy (fs w) !! (model_id, layer) = None /\ e = FileNotFoundError \/
   e = ValueError).
Proof.
  unfold export_layer, make_output_dir, load_cached_data, build_layer_json.
  unfold_M. cbn [fs calls with_output_dir layer_json positions_npy edges_npy
    labels_json decoder_vectors_npy manifest_json output_dirs].
  destruct (_ && _); [done|].
  cbn [fs calls with_output_dir layer_json positions_npy edges_npy
    labels_json decoder_vectors_npy manifest_json output_dirs].
  destruct (positions_npy (fs w) !! (model_id, layer)) as [positions|];
    [|intros [= <- <-]; split; [done|by left]].
  destruct (MODELS !! model_id); [|intros [= <- <-]; split; [done|by right]].
  destruct positions; [intros [= <- <-]; split; [done|by right]|done].
Qed.

(** *** The four steps of [run_layer_pipeline] *)

Section StepFrames.
Context (env : environment) (model_id : string) (layer : Z) (opts : options).

Lemma step1_download_frame (w w' : world) (r : result unit) :
  step1_download env model_id layer opts w = (r, w') ->
  (w' = w \/
   (exists v,
      w' =
        World
          (Files (<[(model_id, layer) := v]> (decoder_vectors_npy (fs w)))
             (positions_npy (fs w)) (edges_npy (fs w)) (labels_json (fs w))
             (layer_json (fs w)) (manifest_json (fs w))
            (output_dirs (fs w)))
          (calls w ++ [HfDownload model_id layer])) \/
   fs w' = fs w /\ calls w' = calls w ++ [HfDownload model_id layer]) /\
  (r = Ok tt -> is_Some (decoder_vectors_npy (fs w') !! (model_id, layer))).
Proof.
  unfold step1_download. unfold_M.
  destruct (force opts || negb (exists_in _ _)) eqn:Hrun.
  - destruct (download_decoder_vectors env model_id layer w) as [[v|e] w1]
      eqn:Hdownload.
    + intros [= <- <-].
      destruct (download_decoder_vectors_ok _ _ _ _ _ _ Hdownload)
        as (_ & Hstored & [->|(_ & raw & _ & _ & ->)]).
      * split; [by left|]. by rewrite Hstored.
      * split; [right; left; by eexists|]. by rewrite Hstored.
    + intros [= <- <-].
      destruct (download_decoder_vectors_raise _ _ _ _ _ _ Hdownload)
        as [Hfs [Hcalls|Hcalls]].
      * split; [left|done]. destruct w, w1. cbn in *. by subst.
      * split; [right; right; done|done].
  - intros [= <- <-]. split; [by left|]. intros _.
    apply orb_false_iff in Hrun as [_ Hrun].
    apply negb_false_iff in Hrun. by apply exists_in_is_Some.
Qed.

Lemma step2_positions_frame (w w' : world) (r : result unit) :
  step2_positions env model_id layer opts w = (r, w') ->
  (w' = w \/
   (exists positions edges,
      w' =
        World
          (Files (decoder_vectors_npy (fs w))
             (<[(model_id, layer) := positions]> (positions_npy (fs w)))
             (<[(model_id, layer) := edges]> (edges_npy (fs w)))
             (labels_json (fs w)) (layer_json (fs w)) (manifest_json (fs w))
            (output_dirs (fs w)))
          (calls w ++ [UmapFit model_id layer])) \/
   fs w' = fs w /\ calls w' = calls w ++ [UmapFit model_id layer]) /\
  (r = Ok tt -> is_Some (positions_npy (fs w') !! (model_id, layer))).
Proof.
  unfold step2_positions. unfold_M.
  destruct (force opts || negb (exists_in _ _)) eqn:Hrun.
  - destruct (compute_layer_positions env model_id layer (force opts) w)
      as [[[positions edges]|e] w1] eqn:Hcompute.
    + intros [= <- <-].
      destruct (compute_layer_positions_ok _ _ _ _ _ _ _ _ Hcompute)
        as (Hstored & _ & [[-> _]|(vs & embedded & _ & _ & _ & _ & ->)]).
      * split; [by left|]. by rewrite Hstored.
      * split; [right; left; by do 2 eexists|]. by rewrite Hstored.
    + intros [= <- <-].
      destruct (compute_layer_positions_raise _ _ _ _ _ _ _ Hcompute)
        as [Hfs [Hcalls|Hcalls]].
      * split; [left|done]. destruct w, w1. cbn in *. by subst.
      * split; [right; right; done|done].
  - intros [= <- <-]. split; [by left|]. intros _.
    apply orb_false_iff in Hrun as [_ Hrun].
    apply negb_false_iff in Hrun. by apply exists_in_is_Some.
Qed.

Lemma step3_labels_frame (w w' : world) (r : result unit) :
  step3_labels model_id layer opts w = (r, w') ->
  w' = w /\
  (r = Ok tt ->
   skip_labels opts = true \/
   force opts = false /\ is_Some (labels_json (fs w) !! (model_id, layer))).
Proof.
  unfold step3_labels, fetch_layer_labels. unfold_M.
  destruct (skip_labels opts); cbn [negb].
  - intros [= <- <-]. split; [done|]. by left.
  - destruct (force opts); cbn [orb]; [by intros [= <- <-]|].
    destruct (exists_in _ _) eqn:Hexists; cbn [negb];
      [|by intros [= <- <-]].
    intros [= <- <-]. split; [done|]. intros _. right. split; [done|].
    by apply exists_in_is_Some.
Qed.

Lemma step4_export_frame (w w' : world) (r : result unit) :
  step4_export env model_id layer opts w = (r, w') ->
  (w' = World (with_output_dir model_id (fs w)) (calls w) \/
   exists data,
     w' =
       World
         (Files (decoder_vectors_npy (fs w)) (positions_npy (fs w))
            (edges_npy (fs w)) (labels_json (fs w))
            (<[(model_id, layer, compress (output_config opts)) := data]>
               (layer_json (fs w)))
            (manifest_json (fs w))
            ({[ model_id ]} ∪ output_dirs (fs w)))
         (calls w)) /\
  (r = Ok tt ->
   is_Some
     (layer_json (fs w') !! (model_id, layer, compress (output_config opts))) /\
   model_id ∈ output_dirs (fs w')).
Proof.
  unfold step4_export. unfold mbind, M_bind, bind, mret, M_ret, ret.
  destruct (export_layer env model_id layer (output_config opts) (force opts) w)
    as [[path|e] w1] eqn:Hexport.
  - intros [= <- <-].
    destruct (export_layer_ok _ _ _ _ _ _ _ _ Hexport)
      as (-> & [(-> & Hsome & _)|(positions & _ & _ & _ & _ & ->)]).
    + split; [by left|]. intros _. cbn. split; [done|].
      apply elem_of_union_l. by apply elem_of_singleton.
    + split; [right; by eexists|]. intros _. cbn.
      split; [by rewrite lookup_insert_eq|].
      apply elem_of_union_l. by apply elem_of_singleton.
  - intros [= <- <-]. apply export_layer_raise in Hexport as [-> _].
    split; [by left|done].
Qed.

Lemma run_steps_ok (w w' : world) :
  run_steps (steps env model_id layer opts) w = (Ok tt, w') ->
  exists w1 w2 w3,
    step1_download env model_id layer opts w = (Ok tt, w1) /\
    step2_positions env model_id layer opts w1 = (Ok tt, w2) /\
    step3_labels model_id layer opts w2 = (Ok tt, w3) /\
    step4_export env model_id layer opts w3 = (Ok tt, w').
Proof.
  unfold steps. cbn [run_steps]. unfold mbind, M_bind, bind, mret, M_ret, ret.
  destruct (step1_download _ _ _ _ w) as [[[]|] w1] eqn:H1; [|done].
  destruct (step2_positions _ _ _ _ w1) as [[[]|] w2] eqn:H2; [|done].
  destruct (step3_labels _ _ _ w2) as [[[]|] w3] eqn:H3; [|done].
  destruct (step4_export _ _ _ _ w3) as [[[]|] w4] eqn:H4; [|done].
  intros [= <-]. by exists w1, w2, w3.
Qed.

End StepFrames.

Lemma StronglySorted_List_filter {A : Type} (R : relation A) (p : A -> bool)
    (l : list A) :
  StronglySorted R l -> StronglySorted R (List.filter p l).
Proof.
  induction 1 as [|x l Hl IH Hx]; cbn [List.filter]; [constructor|].
  destruct (p x); [|done]. constructor; [done|].
  apply Forall_forall. intros y Hy%list_elem_of_In%filter_In.
  rewrite Forall_forall in Hx. apply Hx, list_elem_of_In. tauto.
Qed.

(** *** Round trips through the cache *)


(** X17.  [compute_layer_positions] either returns positions and edges that
    are then in the two cache files, after which an unforced call returns
    the same pair without calling UMAP and changes nothing; or it raises and
    has written neither file. *)
Theorem compute_layer_positions_round_trip (env env' : environment)
    (model_id : string) (layer : Z) (force_recompute : bool) (w : world) :
  match compute_layer_positions env model_id layer force_recompute w with
  | (Ok (positions, edges), w') =>
      positions_npy (fs w') !! (model_id, layer) = Some positions /\
      edges_npy (fs w') !! (model_id, layer) = Some edges /\
      compute_layer_positions env' model_id layer false w' =
        (Ok (positions, edges), w')
  | (Raise _, w') => fs w' = fs w
  end.
Proof.
  destruct (compute_layer_positions env model_id layer force_recompute w)
    as [[[positions edges]|e] w'] eqn:Hrun.
  - destruct (compute_layer_positions_ok _ _ _ _ _ _ _ _ Hrun)
      as (Hp & He & _).
    split; [done|]. split; [done|].
    unfold compute_layer_positions. unfold_M. by rewrite Hp, He.
  - by apply compute_layer_positions_raise in Hrun as [? _].
Qed.

(** *** What a layer file holds *)

Lemma labels_of_nodes_lookup (num_features : nat) (cached : labels) (idx : Z) :
  labels_of_nodes num_features cached !! idx =
    if decide (0 <= idx < Z.of_nat num_features)%Z
    then cached !! idx else None.
Proof.
  unfold labels_of_nodes.
  destruct (decide (0 <= idx < Z.of_nat num_features)%Z) as [Hin|Hout].
  - destruct (cached !! idx) as [label|] eqn:Hlabel.
    + by apply map_lookup_filter_Some.
    + apply map_lookup_filter_None. by left.
  - apply map_lookup_filter_None. right. by intros label _.
Qed.

Lemma layer_data_of_exports (env : environment) (positions : list position)
    (edges : list edge) (cached : labels) :
  exports env positions edges cached
    (layer_data_of env positions edges cached).
Proof.
  unfold exports, layer_data_of. cbn [nodes node_labels Pipeline.edges].
  split; [done|]. split; [apply labels_of_nodes_lookup|done].
Qed.

(** X18.  [export_layer] first creates the directory of the model under the
    output directory, and the directory stays when the function raises.  It
    returns the path of the layer file, which then exists.  If the file
    existed and the export is not forced, the file is kept as it was.
    Otherwise the file written has a node per cached position, in order,
    each coordinate rounded by [round] to four digits; node [idx] has the
    label that [labels.json] gives [idx], and a label for an index that is
    no node is not exported; the edges are those of [edges.npy], none if the
    file is missing, with their weights rounded by [round] to four digits.
    It raises
    [FileNotFoundError] when [positions.npy] is missing and otherwise
    [ValueError], and then no file has changed. *)
Theorem export_layer_snapshot (env : environment) (model_id : string)
    (layer : Z) (output_config : OutputConfig) (force_reexport : bool)
    (w : world) :
  let path := (model_id, layer, compress output_config) in
  match export_layer env model_id layer output_config force_reexport w with
  | (Ok returned, w') =>
      returned = path /\
      calls w' = calls w /\
      output_dirs (fs w') = {[ model_id ]} ∪ output_dirs (fs w) /\
      exists data,
        layer_json (fs w') !! path = Some data /\
        (force_reexport = false ->
         is_Some (layer_json (fs w) !! path) ->
         fs w' = with_output_dir model_id (fs w)) /\
        (force_reexport = true \/ layer_json (fs w) !! path = None ->
         exists positions,
           positions_npy (fs w) !! (model_id, layer) = Some positions /\
           positions <> [] /\
           exports env positions
             (default [] (edges_npy (fs w) !! (model_id, layer)))
             (default ∅ (labels_json (fs w) !! (model_id, layer)))
             data /\
           fs w' =
             Files (decoder_vectors_npy (fs w)) (positions_npy (fs w))
               (edges_npy (fs w)) (labels_json (fs w))
               (<[path := data]> (layer_json (fs w)))
               (manifest_json (fs w))
               ({[ model_id ]} ∪ output_dirs (fs w)))
  | (Raise e, w') =>
      w' = World (with_output_dir model_id (fs w)) (calls w) /\
      (e = FileNotFoundError /\
         positions_npy (fs w) !! (model_id, layer) = None \/
       e = ValueError)
  end.
Proof.
  intros path.
  destruct (export_layer env model_id layer output_config force_reexport w)
    as [[returned|e] w'] eqn:Hrun.
  - destruct (export_layer_ok _ _ _ _ _ _ _ _ Hrun)
      as (-> & [(-> & [data Hdata] & ->)|(positions & Hp & Hne & _ & Hwhy & ->)]).
    + split; [done|]. split; [done|]. split; [done|].
      exists data. split; [done|]. split; [done|].
      intros [|Hnone]; [done|]. unfold path in *. congruence.
    + split; [done|]. split; [done|]. split; [done|].
      eexists. cbn [fs layer_json].
      split; [by rewrite lookup_insert_eq|]. split.
      * intros -> [old Hold]. destruct Hwhy as [|Hnone]; [done|].
        unfold path in *. congruence.
      * intros _. exists positions. split; [done|]. split; [done|].
        split; [apply layer_data_of_exports|done].
  - destruct (export_layer_raise _ _ _ _ _ _ _ _ Hrun) as [-> [[Hp ->]| ->]].
    + split; [done|]. by left.
    + split; [done|]. by right.
Qed.

(** X19.  For a known model, and when the directory of the model exists
    under the output directory, [export_manifest] writes the manifest and
    nothing else; the manifest lists, in ascending order, exactly the given
    layers whose layer file exists.  The function does not create the
    directory: when it is missing, [export_manifest] raises
    [FileNotFoundError] and changes nothing. *)
Theorem export_manifest_lists (model_id : string) (layers : list Z)
    (output_config : OutputConfig) (w : world) :
  is_Some (MODELS !! model_id) ->
  (model_id ∈ output_dirs (fs w) ->
   exists listed,
     export_manifest model_id layers output_config w =
       (Ok tt,
        World
          (Files (decoder_vectors_npy (fs w)) (positions_npy (fs w))
             (edges_npy (fs w)) (labels_json (fs w)) (layer_json (fs w))
             (<[model_id := listed]> (manifest_json (fs w)))
             (output_dirs (fs w)))
          (calls w)) /\
     Sorted Z.le listed /\
     forall layer,
       layer ∈ listed <->
       layer ∈ layers /\
       is_Some
         (layer_json (fs w) !! (model_id, layer, compress output_config))) /\
  (model_id ∉ output_dirs (fs w) ->
   export_manifest model_id layers output_config w =
     (Raise FileNotFoundError, w)).
Proof.
  intros [model_config Hmodel]. unfold export_manifest. rewrite Hmodel.
  unfold_M. split.
  - intros Hdir. rewrite bool_decide_eq_true_2 by done.
    eexists. split; [reflexivity|]. split.
    + apply StronglySorted_Sorted, StronglySorted_List_filter.
      apply StronglySorted_merge_sort; [intros x y z; lia|intros x y; lia].
    + intros layer. rewrite list_elem_of_In, filter_In, <- list_elem_of_In.
      unfold sorted. rewrite merge_sort_Permutation.
      by rewrite exists_in_is_Some.
  - intros Hdir. by rewrite bool_decide_eq_false_2 by done.
Qed.

Lemma export_manifest_lists_witness :
  (exists listed,
     export_manifest "gemma-2-2b" [3%Z; 1%Z; 2%Z] DEFAULT_OUTPUT_CONFIG
       (World
          (Files ∅ ∅ ∅ ∅
             {[ ("gemma-2-2b", 3%Z, true) := LayerData [(0, 0, 0)%R] ∅ [];
                ("gemma-2-2b", 1%Z, true) := LayerData [(0, 0, 0)%R] ∅ [] ]}
             ∅ {[ "gemma-2-2b"%string ]}) []) =
       (Ok tt,
        World
          (Files ∅ ∅ ∅ ∅
             {[ ("gemma-2-2b", 3%Z, true) := LayerData [(0, 0, 0)%R] ∅ [];
                ("gemma-2-2b", 1%Z, true) := LayerData [(0, 0, 0)%R] ∅ [] ]}
             (<["gemma-2-2b" := listed]> ∅) {[ "gemma-2-2b"%string ]}) []) /\
     Sorted Z.le listed) /\
  export_manifest "gemma-2-2b" [3%Z; 1%Z; 2%Z] DEFAULT_OUTPUT_CONFIG
    (World no_files []) = (Raise FileNotFoundError, World no_files []).
Proof.
  split.
  - destruct (export_manifest_lists "gemma-2-2b" [3%Z; 1%Z; 2%Z]
                DEFAULT_OUTPUT_CONFIG
                (World
                   (Files ∅ ∅ ∅ ∅
                      {[ ("gemma-2-2b", 3%Z, true) :=
                           LayerData [(0, 0, 0)%R] ∅ [];
                         ("gemma-2-2b", 1%Z, true) :=
                           LayerData [(0, 0, 0)%R] ∅ [] ]}
                      ∅ {[ "gemma-2-2b"%string ]}) []))
      as [Hlists _]; [by eexists|].
    destruct Hlists as (listed & Hrun & Hsorted & _);
      [cbn [fs output_dirs]; by apply elem_of_singleton|].
    exists listed. split; [exact Hrun|exact Hsorted].
  - destruct (export_manifest_lists "gemma-2-2b" [3%Z; 1%Z; 2%Z]
                DEFAULT_OUTPUT_CONFIG (World no_files []))
      as [_ Hmissing]; [by eexists|].
    apply Hmissing. cbn [fs output_dirs no_files]. apply not_elem_of_empty.
Defined.

(** *** What one layer touches *)

Lemma written_at_refl `{Countable K} {V : Type} (k : K) (m : gmap K V) :
  written_at k m m.
Proof. by intros k'. Qed.

Lemma written_at_insert `{Countable K} {V : Type} (k : K) (v : V)
    (m : gmap K V) :
  written_at k m (<[k := v]> m).
Proof.
  intros k'. split.
  - intros Hk. by rewrite lookup_insert_ne.
  - intros Hsome. destruct (decide (k = k')) as [->|Hk].
    + by rewrite lookup_insert_eq.
    + by rewrite lookup_insert_ne.
Qed.

Lemma written_at_trans `{Countable K} {V : Type} (k : K)
    (m1 m2 m3 : gmap K V) :
  written_at k m1 m2 -> written_at k m2 m3 -> written_at k m1 m3.
Proof.
  intros H12 H23 k'. destruct (H12 k') as [Ha Hb], (H23 k') as [Hc Hd].
  split; [|by auto]. intros Hk. by rewrite Hc, Ha.
Qed.

Lemma layer_footprint_refl (model_id : string) (layer : Z) (compress : bool)
    (f : files) :
  layer_footprint model_id layer compress f f.
Proof.
  unfold layer_footprint.
  repeat split; try done; try apply written_at_refl.
  apply union_subseteq_r.
Qed.

(** A footprint between two explicit values of the files. *)
Ltac footprint :=
  unfold layer_footprint, with_output_dir;
  cbn [fs decoder_vectors_npy positions_npy edges_npy labels_json layer_json
       manifest_json output_dirs];
  repeat split;
  first [ done | apply written_at_refl | apply written_at_insert
        | apply union_subseteq_r ].

Lemma layer_footprint_trans (model_id : string) (layer : Z) (compress : bool)
    (f1 f2 f3 : files) :
  layer_footprint model_id layer compress f1 f2 ->
  layer_footprint model_id layer compress f2 f3 ->
  layer_footprint model_id layer compress f1 f3.
Proof.
  intros (A1 & A2 & A3 & A4 & A5 & A6 & A7 & A8)
    (B1 & B2 & B3 & B4 & B5 & B6 & B7 & B8).
  unfold layer_footprint.
  repeat split; try (by eapply written_at_trans); try congruence.
  - by etrans.
  - etrans; [exact B8|]. apply union_least; [apply union_subseteq_l|done].
Qed.

Section Frames.
Context (env : environment) (model_id : string) (layer : Z) (opts : options).

(** Whatever the outcome of the steps, the world went through the frames of
    step 1, step 2 and step 4; a step that was not reached left the world
    as it was. *)
Lemma run_steps_frames (w w' : world) (r : result unit) :
  run_steps (steps env model_id layer opts) w = (r, w') ->
  exists w1 w2 made1 made2,
    layer_footprint model_id layer (compress (output_config opts))
      (fs w) (fs w1) /\
    calls w1 = calls w ++ made1 /\
    made1 `sublist_of` [HfDownload model_id layer] /\
    (edges_npy (fs w1) = edges_npy (fs w) /\
     positions_npy (fs w1) = positions_npy (fs w)) /\
    layer_footprint model_id layer (compress (output_config opts))
      (fs w1) (fs w2) /\
    calls w2 = calls w1 ++ made2 /\
    made2 `sublist_of` [UmapFit model_id layer] /\
    (edges_beside_positions (fs w1) -> edges_beside_positions (fs w2)) /\
    layer_footprint model_id layer (compress (output_config opts))
      (fs w2) (fs w') /\
    calls w' = calls w2 /\
    (edges_npy (fs w') = edges_npy (fs w2) /\
     positions_npy (fs w') = positions_npy (fs w2)).
Proof.
  intros Hrun.
  assert (H1 : forall w w' r,
    step1_download env model_id layer opts w = (r, w') ->
    exists made,
      layer_footprint model_id layer (compress (output_config opts))
        (fs w) (fs w') /\
      calls w' = calls w ++ made /\
      made `sublist_of` [HfDownload model_id layer] /\
      edges_npy (fs w') = edges_npy (fs w) /\
      positions_npy (fs w') = positions_npy (fs w)).
  { intros wa wb ra Hstep.
    destruct (step1_download_frame _ _ _ _ _ _ _ Hstep)
      as [[->|[[v ->]|[Hfs Hcalls]]] _].
    - exists []. rewrite app_nil_r. split; [apply layer_footprint_refl|].
      split; [done|]. split; [apply sublist_nil_l|done].
    - exists [HfDownload model_id layer]. cbn [fs calls].
      split; [|done]. footprint.
    - exists [HfDownload model_id layer]. rewrite Hfs.
      split; [apply layer_footprint_refl|done]. }
  assert (H2 : forall w w' r,
    step2_positions env model_id layer opts w = (r, w') ->
    exists made,
      layer_footprint model_id layer (compress (output_config opts))
        (fs w) (fs w') /\
      calls w' = calls w ++ made /\
      made `sublist_of` [UmapFit model_id layer] /\
      (edges_beside_positions (fs w) -> edges_beside_positions (fs w'))).
  { intros wa wb ra Hstep.
    destruct (step2_positions_frame _ _ _ _ _ _ _ Hstep)
      as [[->|[(positions & edges & ->)|[Hfs Hcalls]]] _].
    - exists []. rewrite app_nil_r. split; [apply layer_footprint_refl|].
      split; [done|]. split; [apply sublist_nil_l|done].
    - exists [UmapFit model_id layer]. cbn [fs calls].
      split; [|split; [done|split; [done|]]].
      + footprint.
      + intros Hbeside k. cbn [positions_npy edges_npy].
        destruct (decide ((model_id, layer) = k)) as [<-|Hk].
        * by rewrite !lookup_insert_eq.
        * rewrite !lookup_insert_ne by done. apply Hbeside.
    - exists [UmapFit model_id layer]. rewrite Hfs.
      split; [apply layer_footprint_refl|done]. }
  assert (H4 : forall w w' r,
    step4_export env model_id layer opts w = (r, w') ->
    layer_footprint model_id layer (compress (output_config opts))
      (fs w) (fs w') /\
    calls w' = calls w /\
    edges_npy (fs w') = edges_npy (fs w) /\
    positions_npy (fs w') = positions_npy (fs w)).
  { intros wa wb ra Hstep.
    destruct (step4_export_frame _ _ _ _ _ _ _ Hstep) as [[->|[data ->]] _].
    - cbn [fs calls]. split; [|done]. footprint.
    - cbn [fs calls]. split; [|done]. footprint. }
  assert (Hstay : forall w : world,
    layer_footprint model_id layer (compress (output_config opts))
      (fs w) (fs w) /\
    calls w = calls w ++ [] /\
    [] `sublist_of` [UmapFit model_id layer] /\
    (edges_beside_positions (fs w) -> edges_beside_positions (fs w))).
  { intros wa. rewrite app_nil_r. split; [apply layer_footprint_refl|].
    split; [done|]. split; [apply sublist_nil_l|done]. }
  assert (Hend : forall w : world,
    layer_footprint model_id layer (compress (output_config opts))
      (fs w) (fs w) /\
    calls w = calls w /\
    edges_npy (fs w) = edges_npy (fs w) /\
    positions_npy (fs w) = positions_npy (fs w)).
  { intros wa. split; [apply layer_footprint_refl|done]. }
  revert Hrun. unfold steps. cbn [run_steps].
  unfold mbind, M_bind, bind, mret, M_ret, ret.
  destruct (step1_download _ _ _ _ w) as [[[]|e1] w1] eqn:E1;
    destruct (H1 _ _ _ E1) as (made1 & F1 & C1 & S1 & K1).
  2: { intros [= <- <-]. exists w1, w1, made1, [].
       split; [done|]. split; [done|]. split; [done|]. split; [done|].
       destruct (Hstay w1) as (? & ? & ? & ?), (Hend w1) as (? & ? & ?).
       done. }
  destruct (step2_positions _ _ _ _ w1) as [[[]|e2] w2] eqn:E2;
    destruct (H2 _ _ _ E2) as (made2 & F2 & C2 & S2 & K2).
  2: { intros [= <- <-]. exists w1, w2, made1, made2.
       destruct (Hend w2) as (? & ? & ?). done. }
  destruct (step3_labels _ _ _ w2) as [[[]|e3] w3] eqn:E3;
    apply step3_labels_frame in E3 as [-> _].
  2: { intros [= <- <-]. exists w1, w2, made1, made2.
       destruct (Hend w2) as (? & ? & ?). done. }
  destruct (step4_export _ _ _ _ w2) as [[[]|e4] w4] eqn:E4;
    destruct (H4 _ _ _ E4) as (F4 & C4 & K4);
    intros [= <- <-]; exists w1, w2, made1, made2; done.
Qed.

End Frames.


(** *** A second, unforced run *)

Section Skipped.
Context (env : environment) (model_id : string) (layer : Z) (opts : options).
Hypothesis unforced_run : force opts = false.

Lemma step1_download_skipped (w : world) :
  is_Some (decoder_vectors_npy (fs w) !! (model_id, layer)) ->
  step1_download env model_id layer opts w = (Ok tt, w).
Proof.
  intros Hsome%exists_in_is_Some. unfold step1_download. unfold_M.
  by rewrite unforced_run, Hsome.
Qed.

Lemma step2_positions_skipped (w : world) :
  is_Some (positions_npy (fs w) !! (model_id, layer)) ->
  step2_positions env model_id layer opts w = (Ok tt, w).
Proof.
  intros Hsome%exists_in_is_Some. unfold step2_positions. unfold_M.
  by rewrite unforced_run, Hsome.
Qed.

Lemma step3_labels_skipped (w : world) :
  skip_labels opts = true \/
  is_Some (labels_json (fs w) !! (model_id, layer)) ->
  step3_labels model_id layer opts w = (Ok tt, w).
Proof.
  intros Hwhy. unfold step3_labels. unfold_M.
  destruct (skip_labels opts); [done|]. cbn [negb].
  destruct Hwhy as [|Hsome%exists_in_is_Some]; [done|].
  by rewrite unforced_run, Hsome.
Qed.

Lemma step4_export_skipped (w : world) :
  is_Some
    (layer_json (fs w) !! (model_id, layer, compress (output_config opts))) ->
  model_id ∈ output_dirs (fs w) ->
  step4_export env model_id layer opts w = (Ok tt, w).
Proof.
  intros Hsome%exists_in_is_Some Hdir.
  unfold step4_export, export_layer, make_output_dir.
  unfold_M. rewrite (with_output_dir_exists _ _ Hdir). cbn [fs calls].
  rewrite unforced_run, Hsome. by destruct w.
Qed.

End Skipped.

(** X21.  After a run of a layer that returned [True], an unforced run of
    the same layer returns [True] again and changes nothing: no file is
    written, the hub and UMAP are not called, whatever they would now
    answer. *)
Theorem run_layer_pipeline_resume (env env' : environment) (model_id : string)
    (layer : Z) (opts : options) (w w' : world) :
  run_layer_pipeline env model_id layer opts w = (Ok true, w') ->
  run_layer_pipeline env' model_id layer (unforced opts) w' = (Ok true, w').
Proof.
  rewrite !run_layer_pipeline_outcome.
  destruct (run_steps _ w) as [[[]|e] w0] eqn:Hrun; [|done]. intros [= ->].
  destruct (run_steps_ok _ _ _ _ _ _ Hrun) as (w1 & w2 & w3 & H1 & H2 & H3 & H4).
  destruct (step1_download_frame _ _ _ _ _ _ _ H1) as [_ Hdv].
  destruct (step2_positions_frame _ _ _ _ _ _ _ H2) as [F2 Hpos].
  destruct (step3_labels_frame _ _ _ _ _ _ H3) as [-> Hlab].
  destruct (step4_export_frame _ _ _ _ _ _ _ H4) as [F4 Hout].
  specialize (Hdv eq_refl). specialize (Hpos eq_refl).
  specialize (Hlab eq_refl). destruct (Hout eq_refl) as [Hfile Hdir].
  assert (Hdv2 : is_Some (decoder_vectors_npy (fs w2) !! (model_id, layer))).
  { destruct F2 as [->|[(positions & edges & ->)|[-> _]]]; done. }
  assert (Hfinal :
    is_Some (decoder_vectors_npy (fs w') !! (model_id, layer)) /\
    is_Some (positions_npy (fs w') !! (model_id, layer)) /\
    (skip_labels opts = true \/
     is_Some (labels_json (fs w') !! (model_id, layer)))).
  { destruct F4 as [->|[data ->]]; cbn [fs decoder_vectors_npy positions_npy
      labels_json]; (split; [done|]); (split; [done|]);
      destruct Hlab as [|[_ ?]]; auto. }
  destruct Hfinal as (Ha & Hb & Hc).
  unfold steps. cbn [run_steps]. unfold mbind, M_bind, bind, mret, M_ret, ret.
  rewrite (step1_download_skipped env' model_id layer (unforced opts) eq_refl)
    by done.
  rewrite (step2_positions_skipped env' model_id layer (unforced opts) eq_refl)
    by done.
  rewrite (step3_labels_skipped model_id layer (unforced opts) eq_refl)
    by done.
  by rewrite (step4_export_skipped env' model_id layer (unforced opts) eq_refl)
    by done.
Qed.

(** *** What a run leaves behind *)

Lemma run_layer_pipeline_files (env : environment) (model_id : string)
    (layer : Z) (opts : options) (w w' : world) (success : bool) :
  run_layer_pipeline env model_id layer opts w = (Ok success, w') ->
  layer_footprint model_id layer (compress (output_config opts))
    (fs w) (fs w') /\
  (success = true ->
   is_Some
     (layer_json (fs w') !! (model_id, layer, compress (output_config opts))) /\
   model_id ∈ output_dirs (fs w')).
Proof.
  rewrite run_layer_pipeline_outcome.
  destruct (run_steps _ w) as [r w0] eqn:Hrun. intros Hout.
  assert (w0 = w') as -> by (destruct r; congruence).
  split.
  - destruct (run_steps_frames _ _ _ _ _ _ _ Hrun)
      as (w1 & w2 & made1 & made2 & F1 & _ & _ & _ & F2 & _ & _ & _ & F4 & _).
    eapply layer_footprint_trans; [|exact F4].
    eapply layer_footprint_trans; [exact F1|exact F2].
  - intros ->. destruct r as [[]|e]; [|done].
    destruct (run_steps_ok _ _ _ _ _ _ Hrun) as (w1 & w2 & w3 & _ & _ & _ & H4).
    destruct (step4_export_frame _ _ _ _ _ _ _ H4) as [_ Hsome]. by apply Hsome.
Qed.

(** Through the loop over the layers: the layer file of every successful
    layer exists, the directory of the model exists once a layer has
    succeeded, and the manifest is not touched. *)
Lemma run_layers_outputs (env : environment) (model_id : string)
    (opts : options) (layers : list Z) (acc result : summary) (w w' : world) :
  (forall layer, layer ∈ successful acc ->
     is_Some
       (layer_json (fs w) !! (model_id, layer, compress (output_config opts)))) ->
  (successful acc <> [] -> model_id ∈ output_dirs (fs w)) ->
  run_layers env model_id opts layers acc w = (Ok result, w') ->
  (forall layer, layer ∈ successful result ->
     is_Some
       (layer_json (fs w') !! (model_id, layer, compress (output_config opts)))) /\
  (successful result <> [] -> model_id ∈ output_dirs (fs w')) /\
  manifest_json (fs w') = manifest_json (fs w).
Proof.
  revert acc w. induction layers as [|layer layers IH]; intros acc w Hacc Hdir.
  - cbn [run_layers]. unfold mret, M_ret, ret. by intros [= <- <-].
  - cbn [run_layers]. unfold mbind, M_bind, bind.
    destruct (run_layer_pipeline env model_id layer opts w)
      as [[success|e] w1] eqn:Hlayer; [|done].
    destruct (run_layer_pipeline_files _ _ _ _ _ _ _ Hlayer)
      as [(_ & _ & _ & _ & Hjson & Hmanifest & Hkeep & _) Hsuccess].
    intros Hrest. apply IH in Hrest as (Hall & Hdirs & Hm).
    + split; [done|]. split; [done|]. congruence.
    + intros l Hl. destruct success; cbn [successful] in Hl.
      * apply elem_of_app in Hl as [Hl|Hl%list_elem_of_singleton].
        -- by apply Hjson, Hacc.
        -- subst l. by apply Hsuccess.
      * by apply Hjson, Hacc.
    + destruct success; cbn [successful].
      * intros _. by apply Hsuccess.
      * intros Hne. by apply Hkeep, Hdir.
Qed.

(** *** Failures stay inside their layer, continued *)

Lemma export_manifest_returns (model_id : string) (layers : list Z)
    (output_config : OutputConfig) (w : world) :
  is_Some (MODELS !! model_id) ->
  model_id ∈ output_dirs (fs w) ->
  exists w', export_manifest model_id layers output_config w = (Ok tt, w').
Proof.
  intros [model_config Hmodel] Hdir. unfold export_manifest. rewrite Hmodel.
  unfold mbind, M_bind, bind, get_fs.
  rewrite bool_decide_eq_true_2 by done. by eexists.
Qed.

(** [run_pipeline] on a known model and a non-empty list of layers; the
    manifest is written where a layer has succeeded, and there the directory
    of the model exists. *)
Lemma run_pipeline_outcome (env : environment) (args : arguments)
    (model_config : ModelConfig) (w : world) :
  MODELS !! arg_model args = Some model_config ->
  layers_of model_config args <> [] ->
  forall result w1,
    run_layers env (arg_model args) (options_of args)
      (layers_of model_config args) (Summary [] []) w = (Ok result, w1) ->
    (successful result <> [] -> arg_model args ∈ output_dirs (fs w1)) ->
    exists w',
      run_pipeline env (arg_model args) (arg_layers args) (arg_output args)
        (arg_top_k_labels args) (arg_skip_labels args) (arg_force args)
        (negb (arg_no_compress args)) w = (Ok result, w') /\
      main env args w = ((if failed result is [] then 0 else 1)%Z, w').
Proof.
  intros Hmodel Hlayers result w1 Hrun Hdir.
  unfold main, run_pipeline. rewrite Hmodel.
  fold (layers_of model_config args).
  destruct (layers_of model_config args) as [|l ls] eqn:El; [done|].
  unfold mbind, M_bind, bind. 
  change (run_layers env (arg_model args) _ (l :: ls) (Summary [] []) w)
    with (run_layers env (arg_model args) (options_of args) (l :: ls)
            (Summary [] []) w).
  rewrite Hrun.
  destruct (successful result) as [|x xs].
  - unfold mret, M_ret, ret. eexists. split; [reflexivity|].
    by destruct (failed result).
  - destruct (export_manifest_returns (arg_model args) (x :: xs)
                (output_config (options_of args)) w1) as [w' Hw'];
      [by eexists|by apply Hdir|].
    cbn [output_config options_of] in Hw'. rewrite Hw'.
    unfold mret, M_ret, ret. eexists. split; [reflexivity|].
    by destruct (failed result).
Qed.

(** C8.  For a known model and a non-empty list of layers, [run_pipeline]
    returns its summary without raising; every layer is in exactly one of
    [successful] and [failed]; the exit status of [main] is non-zero exactly
    when [failed] is not empty.  And when, at some layer of the list, a step
    raises after the steps before it succeeded: [run_layer_pipeline] returns
    [False] instead of raising, in the very world the raising step left (the
    remaining steps are not run); the layers after it are all processed, from
    that world; the layer is in [failed]. *)
Theorem failed_layer_is_isolated (env : environment) (args : arguments)
    (model_config : ModelConfig) (w : world) :
  MODELS !! arg_model args = Some model_config ->
  layers_of model_config args <> [] ->
  let model_id := arg_model args in
  let opts := options_of args in
  exists result w',
    run_pipeline env model_id (arg_layers args) (arg_output args)
      (arg_top_k_labels args) (arg_skip_labels args) (arg_force args)
      (negb (arg_no_compress args)) w = (Ok result, w') /\
    successful result ++ failed result ≡ₚ layers_of model_config args /\
    ((main env args w).1 <> 0%Z <-> failed result <> []) /\
    forall (before after : list Z) (layer : Z) (done rest : list (M unit))
           (failing : M unit) (e : exn) (acc1 : summary) (w1 w1' w2 : world),
      layers_of model_config args = before ++ layer :: after ->
      run_layers env model_id opts before (Summary [] []) w = (Ok acc1, w1) ->
      steps env model_id layer opts = done ++ failing :: rest ->
      run_steps done w1 = (Ok tt, w1') ->
      failing w1' = (Raise e, w2) ->
      run_layer_pipeline env model_id layer opts w1 = (Ok false, w2) /\
      exists acc2 w3,
        run_layers env model_id opts after (Summary [] []) w2 = (Ok acc2, w3) /\
        successful acc2 ++ failed acc2 ≡ₚ after /\
        result =
          Summary (successful acc1 ++ successful acc2)
            (failed acc1 ++ layer :: failed acc2).
Proof.
  intros Hmodel Hlayers model_id opts.
  destruct (run_layers_classifies env model_id opts
              (layers_of model_config args) w) as (s & f & w1 & Hrun & Hperm).
  pose proof (Hrun (Summary [] [])) as Hrun0. cbn [successful failed app] in Hrun0.
  assert (Hdir : successful (Summary s f) <> [] ->
                 model_id ∈ output_dirs (fs w1)).
  { eapply (run_layers_outputs env model_id opts (layers_of model_config args)
              (Summary [] [])); [|done|exact Hrun0].
    intros l Hl. by apply elem_of_nil in Hl. }
  destruct (run_pipeline_outcome env args model_config w Hmodel Hlayers _ _ Hrun0
              Hdir)
    as (w' & Hpipeline & Hmain).
  exists (Summary s f), w'. split; [done|]. split; [done|]. split.
  - rewrite Hmain. cbn [fst failed]. destruct f; split; done.
  - intros before after layer done rest failing e acc1 wa wa' wb
      Hsplit Hbefore Hsteps Hdone Hfail.
    assert (Hlayer : run_layer_pipeline env model_id layer opts wa = (Ok false, wb)).
    { rewrite run_layer_pipeline_outcome, Hsteps.
      by rewrite (run_steps_raise done rest failing e wa wa' wb). }
    split; [done|].
    destruct (run_layers_classifies env model_id opts after wb)
      as (s2 & f2 & w3 & Hafter & Hperm2).
    exists (Summary s2 f2), w3. split; [apply (Hafter (Summary [] []))|].
    split; [done|].
    rewrite Hsplit in Hrun0.
    rewrite (run_layers_app _ _ _ _ _ _ _ _ _ Hbefore) in Hrun0.
    cbn [run_layers] in Hrun0. unfold mbind, M_bind, bind in Hrun0.
    rewrite Hlayer, Hafter in Hrun0. cbn [successful failed] in Hrun0.
    rewrite <- app_assoc in Hrun0. by simplify_eq.
Qed.

(** The empty list of layers is another matter: the banner fails on
    [min(layers)] before any layer is tried, and the process ends with a
    non-zero status. *)
Lemma main_without_layers (env : environment) (args : arguments)
    (model_config : ModelConfig) (w : world) :
  MODELS !! arg_model args = Some model_config ->
  arg_layers args = Some [] ->
  main env args w = (1%Z, w).
Proof.
  intros Hmodel Hlayers. unfold main, run_pipeline.
  by rewrite Hmodel, Hlayers.
Qed.

(** *** Runs that ask for labels *)

(** A layer whose labels are asked for and are not served from the cache
    fails at step 3, before anything is exported. *)
Lemma run_layer_pipeline_labels_gate (env : environment) (model_id : string)
    (layer : Z) (opts : options) (w : world) :
  skip_labels opts = false ->
  force opts = true \/ labels_json (fs w) !! (model_id, layer) = None ->
  exists w',
    run_layer_pipeline env model_id layer opts w = (Ok false, w') /\
    labels_json (fs w') = labels_json (fs w) /\
    layer_json (fs w') = layer_json (fs w) /\
    manifest_json (fs w') = manifest_json (fs w).
Proof.
  intros Hskip Hwhy. rewrite run_layer_pipeline_outcome.
  unfold steps. cbn [run_steps]. unfold mbind, M_bind, bind, mret, M_ret, ret.
  destruct (step1_download _ _ _ _ w) as [r1 w1] eqn:H1.
  destruct (step1_download_frame _ _ _ _ _ _ _ H1) as [F1 _].
  assert (K1 : labels_json (fs w1) = labels_json (fs w) /\
               layer_json (fs w1) = layer_json (fs w) /\
               manifest_json (fs w1) = manifest_json (fs w)).
  { destruct F1 as [->|[[v ->]|[-> _]]]; done. }
  destruct K1 as (L1 & J1 & M1).
  destruct r1 as [[]|e1]; [|exists w1; done].
  destruct (step2_positions _ _ _ _ w1) as [r2 w2] eqn:H2.
  destruct (step2_positions_frame _ _ _ _ _ _ _ H2) as [F2 _].
  assert (K2 : labels_json (fs w2) = labels_json (fs w1) /\
               layer_json (fs w2) = layer_json (fs w1) /\
               manifest_json (fs w2) = manifest_json (fs w1)).
  { destruct F2 as [->|[(positions & edges & ->)|[-> _]]]; done. }
  destruct K2 as (L2 & J2 & M2).
  destruct r2 as [[]|e2];
    [|exists w2; split; [done|]; split; [|split]; congruence].
  rewrite (step3_labels_raises model_id layer opts w2 Hskip).
  - exists w2. split; [done|]. split; [|split]; congruence.
  - destruct Hwhy as [->|Hnone]; [done|].
    apply orb_true_iff. right. apply negb_true_iff, exists_in_None.
    congruence.
Qed.

Lemma run_layers_labels_gate (env : environment) (model_id : string)
    (opts : options) (layers : list Z) (acc : summary) (w : world) :
  skip_labels opts = false ->
  force opts = true \/
    (forall layer, layer ∈ layers ->
       labels_json (fs w) !! (model_id, layer) = None) ->
  exists w',
    run_layers env model_id opts layers acc w =
      (Ok (Summary (successful acc) (failed acc ++ layers)), w') /\
    layer_json (fs w') = layer_json (fs w) /\
    manifest_json (fs w') = manifest_json (fs w).
Proof.
  intros Hskip. revert acc w.
  induction layers as [|layer layers IH]; intros acc w Hwhy.
  - exists w. rewrite app_nil_r. by destruct acc.
  - cbn [run_layers]. unfold mbind, M_bind, bind.
    destruct (run_layer_pipeline_labels_gate env model_id layer opts w Hskip)
      as (w1 & -> & L1 & J1 & M1).
    { destruct Hwhy as [|Hnone]; [by left|]. right. apply Hnone. by left. }
    destruct (IH (Summary (successful acc) (failed acc ++ [layer])) w1)
      as (w' & -> & J & M).
    { destruct Hwhy as [|Hnone]; [by left|]. right. intros l Hl.
      rewrite L1. apply Hnone. by right. }
    exists w'. cbn [successful failed]. rewrite <- app_assoc.
    split; [done|]. split; congruence.
Qed.

(** X22.  A run that asks for labels ([--skip-labels] not given) gets them
    from [labels.json] only: [fetch_layer_labels] raises on its call of
    [config.validate], which [NeuronpediaConfig] does not have.  So when the
    run is forced, or no layer of the run has a cached [labels.json], every
    layer fails: [successful] is empty, [failed] lists the layers in order,
    no layer file and no manifest is written, and the exit status is 1. *)
Theorem run_pipeline_without_cached_labels (env : environment)
    (args : arguments) (model_config : ModelConfig) (w : world) :
  MODELS !! arg_model args = Some model_config ->
  layers_of model_config args <> [] ->
  arg_skip_labels args = false ->
  arg_force args = true \/
    (forall layer, layer ∈ layers_of model_config args ->
       labels_json (fs w) !! (arg_model args, layer) = None) ->
  exists w',
    run_pipeline env (arg_model args) (arg_layers args) (arg_output args)
      (arg_top_k_labels args) (arg_skip_labels args) (arg_force args)
      (negb (arg_no_compress args)) w =
      (Ok (Summary [] (layers_of model_config args)), w') /\
    main env args w = (1%Z, w') /\
    layer_json (fs w') = layer_json (fs w) /\
    manifest_json (fs w') = manifest_json (fs w).
Proof.
  intros Hmodel Hlayers Hskip Hwhy.
  destruct (run_layers_labels_gate env (arg_model args) (options_of args)
              (layers_of model_config args) (Summary [] []) w Hskip Hwhy)
    as (w1 & Hrun & J & M).
  cbn [successful failed app] in Hrun.
  assert (Hdir : successful (Summary [] (layers_of model_config args)) <> [] ->
                 arg_model args ∈ output_dirs (fs w1)) by done.
  destruct (run_pipeline_outcome env args model_config w Hmodel Hlayers _ _
              Hrun Hdir) as (w' & Hpipeline & Hmain).
  assert (w' = w1) as ->.
  { revert Hpipeline. unfold run_pipeline. rewrite Hmodel.
    fold (layers_of model_config args).
    destruct (layers_of model_config args) as [|l ls] eqn:El; [done|].
    unfold mbind, M_bind, bind.
    change (run_layers env (arg_model args) _ (l :: ls) (Summary [] []) w)
      with (run_layers env (arg_model args) (options_of args) (l :: ls)
              (Summary [] []) w).
    rewrite Hrun. cbn [successful]. unfold mret, M_ret, ret. congruence. }
  exists w1. split; [done|]. split; [|done].
  rewrite Hmain. cbn [failed]. by destruct (layers_of model_config args).
Qed.

(** *** The manifest of a run *)

Lemma List_filter_all {A : Type} (p : A -> bool) (l : list A) :
  (forall x, x ∈ l -> p x = true) -> List.filter p l = l.
Proof.
  induction l as [|x l IH]; intros Hall; [done|]. cbn [List.filter].
  rewrite (Hall x) by by left. f_equal. apply IH. intros y Hy.
  apply Hall. by right.
Qed.

(** X23.  When [run_pipeline] returns, the layer file of every layer in
    [successful] exists.  If no layer succeeded no manifest is written;
    otherwise the manifest of the model lists exactly the successful layers
    in ascending order: the existence test of [export_manifest] drops
    none. *)
Theorem run_pipeline_manifest (env : environment) (model_id : string)
    (layers : option (list Z)) (output_dir : string) (top_k_labels : Z)
    (skip_labels force compress : bool) (w w' : world) (result : summary) :
  run_pipeline env model_id layers output_dir top_k_labels skip_labels force
    compress w = (Ok result, w') ->
  (forall layer, layer ∈ successful result ->
     is_Some (layer_json (fs w') !! (model_id, layer, compress))) /\
  match successful result with
  | [] => manifest_json (fs w') = manifest_json (fs w)
  | _ =>
      manifest_json (fs w') =
        <[model_id := sorted (successful result)]> (manifest_json (fs w))
  end.
Proof.
  unfold run_pipeline.
  destruct (MODELS !! model_id) as [model_config|] eqn:Hmodel; [|done].
  destruct (default _ layers) as [|l ls]; [done|].
  unfold mbind, M_bind, bind.
  destruct (run_layers _ _ _ _ _ w) as [[result1|e] w1] eqn:Hrun; [|done].
  apply run_layers_outputs in Hrun as (Hall & Hdir & Hm);
    [|intros layer Hl; by apply elem_of_nil in Hl|done].
  cbn [output_config Config.compress] in Hall.
  destruct (successful result1) as [|s ss] eqn:Hs.
  - unfold mret, M_ret, ret. intros [= <- <-]. rewrite Hs. split; [|done].
    intros layer Hl. by apply elem_of_nil in Hl.
  - unfold export_manifest. rewrite Hmodel. unfold_M.
    rewrite bool_decide_eq_true_2 by by apply Hdir.
    intros [= <- <-]. rewrite Hs. cbn [fs layer_json manifest_json].
    split; [done|]. rewrite Hm. f_equal.
    apply List_filter_all. intros layer Hl. apply exists_in_is_Some.
    cbn [Config.compress]. apply Hall.
    unfold sorted in Hl. by rewrite merge_sort_Permutation in Hl.
Qed.

(** *** A forced run from cached vectors *)

Lemma normalize_positions_returns (positions : list position)
    (range : R * R) :
  positions <> [] ->
  exists normalized,
    normalize_positions positions range = Ok normalized /\
    length normalized = length positions.
Proof.
  destruct positions as [|p positions]; [done|]. intros _.
  unfold normalize_positions.
  destruct (array_max _) as [max_abs|e] eqn:Hmax.
  - destruct (Rltb 0 max_abs); eexists; (split; [reflexivity|]);
      unfold center; by rewrite ?length_map.
  - unfold center in Hmax.
    cbn [map coordinates concat app array_max] in Hmax. done.
Qed.

(** The edges of the default parameters: none below the threshold 0.25, no
    pair of features twice. *)
Lemma compute_edges_default (decoder_vectors : list vector)
    (edges : list edge) :
  compute_edges decoder_vectors None = Ok edges ->
  Forall (fun e => (25 / 100 <= weight e)%R) edges /\
  NoDup (map unordered edges).
Proof.
  intros Hrun. destruct (compute_edges_inv _ _ _ Hrun) as [seen Hbuild].
  apply build_edges_inv in Hbuild as [Hweights Hpairs].
  split; [exact Hweights|]. by apply Hpairs.
Qed.

(** X24.  A forced run with [--skip-labels] of a valid layer whose decoder
    vectors are cached, at least 26 of them, and for which UMAP returns an
    embedding that is not empty: the run returns [True] after one UMAP call
    and no download.  It writes [positions.npy], with as many positions as
    the embedding has rows, and [edges.npy], whose edges all reach the
    threshold 0.25 and join no pair of features twice; it creates the
    directory of the model and writes the layer file, which holds these
    positions and edges, rounded by [round] to four digits, with the labels
    the cache has for the nodes.  Nothing else is written. *)
Theorem forced_run_exports_fresh (env : environment) (model_id : string)
    (layer : Z) (opts : options) (model_config : ModelConfig) (w : world)
    (decoder_vectors : list vector) (embedded : list position) :
  MODELS !! model_id = Some model_config ->
  (0 <= layer < num_layers model_config)%Z ->
  force opts = true ->
  skip_labels opts = true ->
  decoder_vectors_npy (fs w) !! (model_id, layer) = Some decoder_vectors ->
  umap_fit_transform env decoder_vectors = Ok embedded ->
  embedded <> [] ->
  (26 <= length decoder_vectors)%nat ->
  exists positions edges data,
    length positions = length embedded /\
    Forall (fun e => (25 / 100 <= weight e)%R) edges /\
    NoDup (map unordered edges) /\
    exports env positions edges
      (default ∅ (labels_json (fs w) !! (model_id, layer))) data /\
    run_layer_pipeline env model_id layer opts w =
      (Ok true,
       World
         (Files (decoder_vectors_npy (fs w))
            (<[(model_id, layer) := positions]> (positions_npy (fs w)))
            (<[(model_id, layer) := edges]> (edges_npy (fs w)))
            (labels_json (fs w))
            (<[(model_id, layer, compress (output_config opts)) := data]>
               (layer_json (fs w)))
            (manifest_json (fs w))
            ({[ model_id ]} ∪ output_dirs (fs w)))
         (calls w ++ [UmapFit model_id layer])).
Proof.
  intros Hmodel Hlayer Hforce Hskip Hvectors Humap Hembedded Hmany.
  destruct (normalize_positions_returns embedded
              (position_range DEFAULT_OUTPUT_CONFIG) Hembedded)
    as (positions & Hnorm & Hlength).
  destruct (compute_edges_returns decoder_vectors None) as [edges Hedges];
    [simpl; lia..|].
  destruct (compute_edges_default _ _ Hedges) as [Hweights Hpairs].
  set (cached := default ∅ (labels_json (fs w) !! (model_id, layer))).
  exists positions, edges, (layer_data_of env positions edges cached).
  split; [done|]. split; [done|]. split; [done|].
  split; [apply layer_data_of_exports|].
  set (w2 :=
    World
      (Files (decoder_vectors_npy (fs w))
         (<[(model_id, layer) := positions]> (positions_npy (fs w)))
         (<[(model_id, layer) := edges]> (edges_npy (fs w)))
         (labels_json (fs w)) (layer_json (fs w)) (manifest_json (fs w))
         (output_dirs (fs w)))
      (calls w ++ [UmapFit model_id layer])).
  assert (H2 : step2_positions env model_id layer opts w = (Ok tt, w2)).
  { unfold step2_positions. rewrite (bind_ok _ _ w w (fs w)) by done.
    rewrite Hforce. cbn [orb].
    rewrite (bind_ok _ _ w w2 (positions, edges)); [done|].
    unfold compute_layer_positions.
    rewrite (bind_ok _ _ w w (fs w)) by done. rewrite Hvectors.
    unfold_M. rewrite Humap, Hnorm, Hedges. reflexivity. }
  assert (H3 : step3_labels model_id layer opts w2 = (Ok tt, w2)).
  { unfold step3_labels. by rewrite Hskip. }
  set (w3 := World (with_output_dir model_id (fs w2)) (calls w2)).
  set (w4 :=
    World
      (Files (decoder_vectors_npy (fs w))
         (<[(model_id, layer) := positions]> (positions_npy (fs w)))
         (<[(model_id, layer) := edges]> (edges_npy (fs w)))
         (labels_json (fs w))
         (<[(model_id, layer, compress (output_config opts)) :=
              layer_data_of env positions edges cached]>
            (layer_json (fs w)))
         (manifest_json (fs w))
         ({[ model_id ]} ∪ output_dirs (fs w)))
      (calls w ++ [UmapFit model_id layer])).
  assert (H4 : step4_export env model_id layer opts w2 = (Ok tt, w4)).
  { unfold step4_export.
    rewrite (bind_ok _ _ w2 w4
               (model_id, layer, compress (output_config opts))); [done|].
    unfold export_layer.
    rewrite (bind_ok _ _ w2 w3 tt) by done.
    rewrite (bind_ok _ _ w3 w3 (fs w3)) by done.
    rewrite Hforce. cbn [negb]. rewrite andb_false_r.
    rewrite (bind_ok _ _ w3 w3 (positions, edges, cached)).
    2: { unfold load_cached_data. rewrite (bind_ok _ _ w3 w3 (fs w3)) by done.
         unfold w3, w2, with_output_dir.
         cbn [fs positions_npy edges_npy labels_json].
         by rewrite !lookup_insert_eq. }
    rewrite (bind_ok _ _ w3 w3 (layer_data_of env positions edges cached)).
    2: { unfold build_layer_json. rewrite Hmodel.
         destruct positions; [|done]. by destruct embedded. }
    reflexivity. }
  rewrite run_layer_pipeline_outcome. unfold steps. cbn [run_steps].
  rewrite (bind_ok _ _ w w tt)
    by (by eapply step1_download_forced_cached).
  rewrite (bind_ok _ _ w w2 tt) by done.
  rewrite (bind_ok _ _ w2 w2 tt) by done.
  by rewrite (bind_ok _ _ w2 w4 tt) by done.
Qed.

(** *** [download_all_layers] *)

Lemma download_layers_results (env : environment) (model_id : string)
    (model_config : ModelConfig) (layers : list Z)
    (results : gmap Z (string * Z)) (w : world) :
  MODELS !! model_id = Some model_config ->
  exists results' w',
    download_layers env model_id layers results w = (Ok results', w') /\
    (forall k v,
       decoder_vectors_npy (fs w) !! k = Some v ->
       decoder_vectors_npy (fs w') !! k = Some v) /\
    (forall k,
       is_Some (decoder_vectors_npy (fs w') !! k) ->
       is_Some (decoder_vectors_npy (fs w) !! k) \/
       exists layer, k = (model_id, layer) /\ layer ∈ layers) /\
    (forall layer path,
       results' !! layer = Some path ->
       results !! layer = Some path \/ path = (model_id, layer)) /\
    (forall layer,
       is_Some (results' !! layer) <->
       is_Some (results !! layer) \/
       layer ∈ layers /\
       (0 <= layer < num_layers model_config)%Z /\
       is_Some (decoder_vectors_npy (fs w') !! (model_id, layer))).
Proof.
  intros Hmodel. revert results w.
  induction layers as [|layer layers IH]; intros results w.
  - exists results, w. split; [done|]. split; [done|]. split; [by left|].
    split; [by left|]. intros layer. split; [by left|].
    intros [|[Hl _]]; [done|]. by apply elem_of_nil in Hl.
  - cbn [download_layers]. unfold try_except, mbind, M_bind, bind, mret, M_ret, ret.
    destruct (download_decoder_vectors env model_id layer w) as [[v|e] w1]
      eqn:Hdownload.
    + destruct (download_decoder_vectors_ok _ _ _ _ _ _ Hdownload)
        as ((model_config' & Hmodel' & Hvalid) & Hstored & Hworld).
      assert (model_config' = model_config) as -> by congruence.
      destruct (IH (<[layer := (model_id, layer)]> results) w1)
        as (results' & w' & -> & Hkeep & Honly & Hpaths & Hiff).
      exists results', w'. split; [done|].
      assert (Hkeep1 : forall k v',
                decoder_vectors_npy (fs w) !! k = Some v' ->
                decoder_vectors_npy (fs w1) !! k = Some v').
      { destruct Hworld as [->|(Hnone & raw & _ & _ & ->)]; [done|].
        intros k v' Hk. cbn [fs decoder_vectors_npy].
        rewrite lookup_insert_ne; [done|]. intros <-. congruence. }
      assert (Honly1 : forall k,
                is_Some (decoder_vectors_npy (fs w1) !! k) ->
                is_Some (decoder_vectors_npy (fs w) !! k) \/
                k = (model_id, layer)).
      { destruct Hworld as [->|(Hnone & raw & _ & _ & ->)]; [by left|].
        intros k. cbn [fs decoder_vectors_npy].
        destruct (decide ((model_id, layer) = k)) as [<-|Hk]; [by right|].
        rewrite lookup_insert_ne by done. by left. }
      split; [by auto|]. split; [|split].
      * intros k Hk. destruct (Honly k Hk) as [Hk1|(l & -> & Hl)].
        -- destruct (Honly1 k Hk1) as [Hk0| ->]; [by left|].
           right. exists layer. split; [done|by left].
        -- right. exists l. split; [done|by right].
      * intros l path Hl. destruct (Hpaths l path Hl) as [Hin|]; [|by right].
        destruct (decide (layer = l)) as [<-|Hne].
        -- rewrite lookup_insert_eq in Hin. right. congruence.
        -- rewrite lookup_insert_ne in Hin by done. by left.
      * intros l. rewrite Hiff. split.
        -- intros [Hin|(Hl & Hv & Hsome)].
           ++ destruct (decide (layer = l)) as [<-|Hne].
              ** right. split; [by left|]. split; [done|].
                 by rewrite (Hkeep _ _ Hstored).
              ** rewrite lookup_insert_ne in Hin by done. by left.
           ++ right. split; [by right|done].
        -- intros [Hin|(Hl & Hv & Hsome)].
           ++ left. destruct (decide (layer = l)) as [<-|Hne].
              ** by rewrite lookup_insert_eq.
              ** by rewrite lookup_insert_ne.
           ++ apply elem_of_cons in Hl as [->|Hl].
              ** left. by rewrite lookup_insert_eq.
              ** right. done.
    + apply download_decoder_vectors_raise in Hdownload as Hsame.
      destruct Hsame as [Hfs _].
      destruct (IH results w1)
        as (results' & w' & -> & Hkeep & Honly & Hpaths & Hiff).
      exists results', w'. split; [done|]. rewrite Hfs in Hkeep, Honly.
      split; [done|]. split; [|split; [done|]].
      * intros k Hk. destruct (Honly k Hk) as [|(l & -> & Hl)]; [by left|].
        right. exists l. split; [done|by right].
      * intros l. rewrite Hiff. split.
        -- intros [|(Hl & Hv & Hsome)]; [by left|].
           right. split; [by right|done].
        -- intros [|(Hl & Hv & Hsome)]; [by left|].
           apply elem_of_cons in Hl as [->|Hl]; [|by right].
           destruct (Honly _ Hsome) as [[cached Hcached]|(l & [= <-] & Hl)];
             [|by right].
           rewrite (download_decoder_vectors_cached env model_id layer
                      model_config cached w Hmodel Hv Hcached) in Hdownload.
           done.
Qed.

(** X25.  For a known model [download_all_layers] does not raise, whatever
    the hub does.  Its result has an entry exactly for the requested layers
    that are valid for the model and whose [decoder_vectors.npy] is in the
    cache at the end, and the entry is the path of that file.  A file that
    was in the cache before is kept as it was. *)
Theorem download_all_layers_results (env : environment) (model_id : string)
    (model_config : ModelConfig) (layers : option (list Z)) (w : world) :
  MODELS !! model_id = Some model_config ->
  let requested :=
    default (map Z.of_nat (seq 0 (Z.to_nat (num_layers model_config))))
      layers in
  exists results w',
    download_all_layers env model_id layers w = (Ok results, w') /\
    (forall layer,
       results !! layer =
         if decide
              (layer ∈ requested /\
               (0 <= layer < num_layers model_config)%Z /\
               is_Some (decoder_vectors_npy (fs w') !! (model_id, layer)))
         then Some (model_id, layer) else None) /\
    (forall k v,
       decoder_vectors_npy (fs w) !! k = Some v ->
       decoder_vectors_npy (fs w') !! k = Some v).
Proof.
  intros Hmodel requested. unfold download_all_layers. rewrite Hmodel.
  fold requested.
  destruct (download_layers_results env model_id model_config requested ∅ w
              Hmodel) as (results & w' & Hrun & Hkeep & _ & Hpaths & Hiff).
  exists results, w'. split; [done|]. split; [|done].
  intros layer. destruct (decide _) as [Hyes|Hno].
  - assert (Hsome : is_Some (results !! layer)) by (apply Hiff; by right).
    destruct Hsome as [path Hpath]. rewrite Hpath.
    destruct (Hpaths _ _ Hpath) as [Hempty| ->]; [|done].
    by rewrite lookup_empty in Hempty.
  - apply eq_None_not_Some. intros Hsome. apply Hiff in Hsome as [Hempty|Hyes].
    + rewrite lookup_empty in Hempty. by destruct Hempty.
    + done.
Qed.

End StepProofs.

Section PipelineWitness.
Import Umap Config Pipeline Runner Scenario.

Lemma failed_layer_is_isolated_witness :
  exists result w',
    Runner.run_pipeline hub_offline "gemma-2-2b" (Some [12%Z]) "./output" 1000
      false false true (Pipeline.World no_files []) = (Ok result, w') /\
    result = Runner.Summary [] [12%Z] /\
    (Runner.main hub_offline layer_12_only (Pipeline.World no_files [])).1 <> 0%Z.
Proof.
  destruct (failed_layer_is_isolated hub_offline layer_12_only
              {| Config.model_id := "gemma-2-2b";
                 Config.display_name := "Gemma 2 2B";
                 Config.num_layers := 26; Config.features_per_layer := 16384;
                 Config.decoder_dim := 2304 |}
              (Pipeline.World no_files []) eq_refl ltac:(discriminate))
    as (result & w' & Hrun & _ & Hexit & Hisolated).
  destruct (Hisolated [] [] 12%Z []
              [Runner.step2_positions hub_offline "gemma-2-2b" 12 (options_of layer_12_only);
               Runner.step3_labels "gemma-2-2b" 12 (options_of layer_12_only);
               Runner.step4_export hub_offline "gemma-2-2b" 12 (options_of layer_12_only)]
              (Runner.step1_download hub_offline "gemma-2-2b" 12 (options_of layer_12_only))
              RuntimeError (Runner.Summary [] [])
              (Pipeline.World no_files []) (Pipeline.World no_files [])
              (Pipeline.World no_files [Pipeline.HfDownload "gemma-2-2b" 12])
              eq_refl eq_refl eq_refl eq_refl eq_refl)
    as (_ & acc2 & w3 & Hafter & _ & Hresult).
  cbn in Hafter. injection Hafter as <- <-.
  exists result, w'. split; [exact Hrun|]. split; [exact Hresult|].
  apply Hexit. rewrite Hresult. discriminate.
Defined.

End PipelineWitness.

Section PipelineMoreWitness.
Import Umap Config Pipeline Runner Scenario Footprint Downloads MoreScenarios.

Lemma run_layer_pipeline_resume_witness :
  exists w',
    run_layer_pipeline hub_offline "gemma-2-2b" 12 unforced_skipping_labels
      positions_cached = (Ok true, w') /\
    layer_json (fs w') !! ("gemma-2-2b", 12%Z, true) =
      Some (layer_data_of hub_offline [(0, 0, 0); (1, 1, 1)]%R [] ∅) /\
    run_layer_pipeline (hub_serving [[0; 1]]%R) "gemma-2-2b" 12
      (unforced unforced_skipping_labels) w' = (Ok true, w').
Proof.
  eexists. split; [reflexivity|]. split; [reflexivity|].
  apply (run_layer_pipeline_resume hub_offline _ _ _ _ positions_cached).
  reflexivity.
Defined.

Lemma run_pipeline_without_cached_labels_witness :
  exists w',
    run_pipeline hub_offline "gemma-2-2b" (Some [12%Z]) "./output" 1000
      false false true positions_cached = (Ok (Summary [] [12%Z]), w') /\
    main hub_offline layer_12_only positions_cached = (1%Z, w').
Proof.
  destruct (run_pipeline_without_cached_labels hub_offline layer_12_only
              {| model_id := "gemma-2-2b"; display_name := "Gemma 2 2B";
                 num_layers := 26; features_per_layer := 16384;
                 decoder_dim := 2304 |}
              positions_cached eq_refl ltac:(discriminate) eq_refl)
    as (w' & Hrun & Hmain & _).
  - right. intros layer _. reflexivity.
  - exists w'. split; [exact Hrun|exact Hmain].
Defined.

Lemma run_pipeline_manifest_witness :
  exists result w',
    run_pipeline hub_offline "gemma-2-2b" (Some [12%Z]) "./output" 1000
      true false true positions_cached = (Ok result, w') /\
    successful result = [12%Z] /\
    manifest_json (fs w') !! "gemma-2-2b"%string = Some [12%Z].
Proof.
  assert (Hrun : exists result w',
            run_pipeline hub_offline "gemma-2-2b" (Some [12%Z]) "./output" 1000
              true false true positions_cached = (Ok result, w') /\
            successful result = [12%Z]).
  { exists (Summary [12%Z] []).
    exists
      (World
         (Files (decoder_vectors_npy (fs positions_cached))
            (positions_npy (fs positions_cached)) ∅ ∅
            {[ ("gemma-2-2b"%string, 12%Z, true) :=
                 layer_data_of hub_offline [(0, 0, 0); (1, 1, 1)]%R [] ∅ ]}
            {[ "gemma-2-2b"%string := [12%Z] ]}
            ({[ "gemma-2-2b"%string ]} ∪ ∅)) []).
    split; reflexivity. }
  destruct Hrun as (result & w' & Hrun & Hsuccessful).
  destruct (run_pipeline_manifest _ _ _ _ _ _ _ _ _ _ _ Hrun) as [_ Hmanifest].
  rewrite Hsuccessful in Hmanifest.
  exists result, w'. split; [exact Hrun|]. split; [exact Hsuccessful|].
  rewrite Hmanifest. apply lookup_insert_eq.
Defined.

Lemma forced_run_exports_fresh_witness :
  exists positions edges data w',
    run_layer_pipeline (umap_serving [(0, 0, 0); (1, 1, 1)]%R) "gemma-2-2b" 12
      forced (cached_vectors_world (repeat [1; 0]%R 26)) = (Ok true, w') /\
    length positions = 2%nat /\
    exports (umap_serving [(0, 0, 0); (1, 1, 1)]%R) positions edges ∅ data /\
    positions_npy (fs w') !! ("gemma-2-2b"%string, 12%Z) = Some positions /\
    layer_json (fs w') !! ("gemma-2-2b"%string, 12%Z, true) = Some data /\
    calls w' = [UmapFit "gemma-2-2b" 12].
Proof.
  destruct (forced_run_exports_fresh (umap_serving [(0, 0, 0); (1, 1, 1)]%R)
              "gemma-2-2b" 12 forced
              {| model_id := "gemma-2-2b"; display_name := "Gemma 2 2B";
                 num_layers := 26; features_per_layer := 16384;
                 decoder_dim := 2304 |}
              (cached_vectors_world (repeat [1; 0]%R 26))
              (repeat [1; 0]%R 26) [(0, 0, 0); (1, 1, 1)]%R
              eq_refl ltac:(simpl; lia) eq_refl eq_refl
              (lookup_singleton_eq _ _) eq_refl ltac:(discriminate)
              ltac:(simpl; lia))
    as (positions & edges & data & Hlength & _ & _ & Hexports & Hrun).
  exists positions, edges, data. eexists. split; [exact Hrun|].
  split; [exact Hlength|]. split; [exact Hexports|].
  split; [apply lookup_insert_eq|]. split; [apply lookup_insert_eq|reflexivity].
Defined.

Lemma download_all_layers_results_witness :
  exists results w',
    download_all_layers hub_offline "gemma-2-2b" (Some [12%Z; 99%Z])
      (cached_vectors_world [[1; 0]]%R) = (Ok results, w') /\
    results !! 12%Z = Some ("gemma-2-2b"%string, 12%Z) /\
    results !! 99%Z = None.
Proof.
  destruct (download_all_layers_results hub_offline "gemma-2-2b"
              {| model_id := "gemma-2-2b"; display_name := "Gemma 2 2B";
                 num_layers := 26; features_per_layer := 16384;
                 decoder_dim := 2304 |}
              (Some [12%Z; 99%Z]) (cached_vectors_world [[1; 0]]%R) eq_refl)
    as (results & w' & Hrun & Hresults & Hkeep).
  exists results, w'. split; [exact Hrun|]. split.
  - rewrite Hresults. destruct (decide _) as [|Hno]; [done|].
    exfalso. apply Hno. split; [by left|]. split; [simpl; lia|].
    rewrite (Hkeep ("gemma-2-2b"%string, 12%Z) [[1; 0]]%R); [done|].
    apply lookup_singleton_eq.
  - rewrite Hresults. destruct (decide _) as [(_ & Hvalid & _)|]; [|done].
    simpl in Hvalid. lia.
Defined.

End PipelineMoreWitness.
